(** * Stratos backend: progression, achievements and lesson unlocking

    A shallow embedding of the request handlers of [backend/stratos.py] that
    grade a quiz submission ([complete_lesson]), award achievements
    ([check_and_award_achievement], [check_lesson_achievements],
    [start_language]) and derive the lesson list of a language
    ([get_lessons]), with the MongoDB collections they read and write.

    Conventions of the embedding.
    - Python [int] is [Z]; [//] is [Z.div] (both round towards minus
      infinity for a positive divisor).
    - Python [float] is the kernel's binary64 [float]; [a / b] on two ints is
      the correctly rounded quotient and [int(x)] truncates.
    - A collection is the list of its documents in natural order.  A filter
      selects the first matching document for [find_one] and [update_one].
    - A handler is a computation over the database that returns a value or
      raises; an exception keeps the database as it stands when raised.
    - Dates are day numbers (days since the epoch, UTC); the clock reading
      [now] is in seconds, so [now.date()] is [now / 86400].  The ISO text
      stored in [last_practice_date] is read back to the same day. *)

From Stdlib Require Import ZArith String Ascii DecimalString List Bool Lia Floats.
From Stdlib Require Import Sorted Permutation.
Import ListNotations.

Open Scope string_scope.
Open Scope Z_scope.

Set Implicit Arguments.

(** ** Documents *)

(** One graded item of a lesson; only [correct_answer] is read by grading
    ([type], [options], [voice_url] and [hint] are presentation data). *)
Module LessonContent.
Record t := mk { question : string; correct_answer : string }.
End LessonContent.

Module Lesson.
Record t := mk {
  id : string;
  language : string;
  title : string;
  description : string;
  order : Z;
  xp_reward : Z;
  content : list LessonContent.t
}.
End Lesson.

Module Language.
Record t := mk { code : string; name : string }.
End Language.

(** A document of the [users] collection (the [password] hash and
    [created_at] are left out: no modelled handler reads them). *)
Module User.
Record t := mk {
  id : string;
  email : string;
  name : string;
  xp : Z;
  level : Z;
  streak : Z;
  hearts : Z;
  current_language : option string;
  languages_learning : list string;
  achievements : list string;
  last_practice_date : option Z
}.

Definition set_name (n : string) (u : t) : t :=
  mk (id u) (email u) n (xp u) (level u) (streak u) (hearts u)
     (current_language u) (languages_learning u) (achievements u)
     (last_practice_date u).

Definition set_hearts (h : Z) (u : t) : t :=
  mk (id u) (email u) (name u) (xp u) (level u) (streak u) h
     (current_language u) (languages_learning u) (achievements u)
     (last_practice_date u).

Definition set_achievements (a : list string) (u : t) : t :=
  mk (id u) (email u) (name u) (xp u) (level u) (streak u) (hearts u)
     (current_language u) (languages_learning u) a
     (last_practice_date u).

Definition set_languages (cur : string) (ls : list string) (u : t) : t :=
  mk (id u) (email u) (name u) (xp u) (level u) (streak u) (hearts u)
     (Some cur) ls (achievements u) (last_practice_date u).

(** The [$set] of [complete_lesson]: [xp], [level], [streak],
    [last_practice_date], and [hearts] when the key is in [update_data]. *)
Definition set_progress (x l s : Z) (d : Z) (h : option Z) (u : t) : t :=
  mk (id u) (email u) (name u) x l s
     (match h with Some h' => h' | None => hearts u end)
     (current_language u) (languages_learning u) (achievements u)
     (Some d).
End User.

(** A document of the [lesson_progress] collection. *)
Module Progress.
Record t := mk {
  user_id : string;
  lesson_id : string;
  language : string;
  completed : bool;
  score : Z;
  completed_at : Z
}.
End Progress.

(** The response model of [complete_lesson]. *)
Module QuizResult.
Record t := mk {
  correct : Z;
  total : Z;
  xp_earned : Z;
  passed : bool;
  new_level : option Z;
  streak_bonus : Z
}.
End QuizResult.

(** One entry of the list returned by [get_lessons]. *)
Module LessonData.
Record t := mk {
  id : string;
  title : string;
  description : string;
  order : Z;
  xp_reward : Z;
  completed : bool;
  score : Z;
  locked : bool
}.
End LessonData.

(** ** The database and the handler monad *)

Module DB.
Record t := mk { users : list User.t; lesson_progress : list Progress.t }.
Definition empty : t := mk [] [].
End DB.

Inductive exn : Type :=
| HTTPException (status_code : Z) (detail : string)
| ZeroDivisionError.

Inductive outcome (A : Type) : Type :=
| Return (a : A)
| Raise (e : exn).
Arguments Return {A} a.
Arguments Raise {A} e.

Definition M (A : Type) : Type := DB.t -> outcome A * DB.t.

Definition ret {A} (a : A) : M A := fun db => (Return a, db).

Definition raise {A} (e : exn) : M A := fun db => (Raise e, db).

Definition bind {A B} (m : M A) (k : A -> M B) : M B :=
  fun db =>
    match m db with
    | (Return a, db') => k a db'
    | (Raise e, db') => (Raise e, db')
    end.

Declare Scope handler_scope.
Delimit Scope handler_scope with handler.
Notation "x <- m ;; k" := (bind m (fun x => k))
  (at level 100, m at next level, right associativity) : handler_scope.
Notation "m ;; k" := (bind m (fun _ => k))
  (at level 100, right associativity) : handler_scope.
Open Scope handler_scope.

(** ** Collection operations *)

(** [l in xs] on a list of strings. *)
Definition str_in (a : string) (xs : list string) : bool :=
  existsb (String.eqb a) xs.

(** [update_one({'id': uid}, {'$set': ...})]: the first document whose [id]
    is [uid] is rewritten by [f]; without a match nothing happens. *)
Fixpoint update_first (uid : string) (f : User.t -> User.t)
    (us : list User.t) : list User.t :=
  match us with
  | [] => []
  | u :: rest =>
      if String.eqb (User.id u) uid then f u :: rest
      else u :: update_first uid f rest
  end.

Definition first_user (uid : string) (us : list User.t) : option User.t :=
  find (fun u => String.eqb (User.id u) uid) us.

Definition users_find_one (uid : string) : M (option User.t) :=
  fun db => (Return (first_user uid (DB.users db)), db).

Definition users_update_one (uid : string) (f : User.t -> User.t) : M unit :=
  fun db =>
    (Return tt, DB.mk (update_first uid f (DB.users db)) (DB.lesson_progress db)).

Definition users_insert_one (u : User.t) : M unit :=
  fun db => (Return tt, DB.mk (DB.users db ++ [u])%list (DB.lesson_progress db)).

(** The filter [{'user_id': uid, 'lesson_id': lid}]. *)
Definition progress_key (uid lid : string) (p : Progress.t) : bool :=
  String.eqb (Progress.user_id p) uid && String.eqb (Progress.lesson_id p) lid.

(** [update_one(filter, {'$set': doc}, upsert=True)] where [doc] gives every
    field: the first match is replaced, and without a match [doc] is
    inserted at the end. *)
Fixpoint upsert (sel : Progress.t -> bool) (doc : Progress.t)
    (ps : list Progress.t) : list Progress.t :=
  match ps with
  | [] => [doc]
  | p :: rest => if sel p then doc :: rest else p :: upsert sel doc rest
  end.

Definition lesson_progress_upsert (sel : Progress.t -> bool)
    (doc : Progress.t) : M unit :=
  fun db => (Return tt, DB.mk (DB.users db) (upsert sel doc (DB.lesson_progress db))).

(** [find(filter).to_list(n)]: at most [n] matching documents. *)
Definition lesson_progress_find (sel : Progress.t -> bool) (n : nat)
    : M (list Progress.t) :=
  fun db => (Return (firstn n (filter sel (DB.lesson_progress db))), db).

Definition lesson_progress_count_documents (sel : Progress.t -> bool) : M Z :=
  fun db => (Return (Z.of_nat (length (filter sel (DB.lesson_progress db)))), db).

(** ** Numbers *)

(** [float(z)] for an int below 2^63 (exact below 2^53). *)
Definition float_of_int (z : Z) : float := PrimFloat.of_uint63 (Uint63.of_Z z).

(** [int(x)]: truncation towards zero of a finite float. *)
Definition int_of_float (x : float) : Z :=
  match Prim2SF x with
  | S754_finite s m e =>
      let a := if 0 <=? e then Z.pos m * 2 ^ e else Z.pos m / 2 ^ (- e) in
      if s then - a else a
  | _ => 0
  end.

(** [a / b] on two ints. *)
Definition true_div (a b : Z) : M float :=
  if b =? 0 then raise ZeroDivisionError
  else ret (PrimFloat.div (float_of_int a) (float_of_int b)).

(** [now.date()] as a day number. *)
Definition date_of (now : Z) : Z := now / 86400.

(** ** Seed data *)

(** [LANGUAGES] (the [flag] glyphs are left out). *)
Definition LANGUAGES : list Language.t :=
  [ Language.mk "es" "Spanish"; Language.mk "fr" "French";
    Language.mk "de" "German"; Language.mk "ja" "Japanese";
    Language.mk "zh" "Chinese"; Language.mk "it" "Italian";
    Language.mk "pt" "Portuguese"; Language.mk "ko" "Korean";
    Language.mk "ru" "Russian"; Language.mk "ar" "Arabic" ].

(** The ids of [ACHIEVEMENTS], in table order. *)
Definition ACHIEVEMENTS : list string :=
  [ "first-lesson"; "streak-3"; "streak-7"; "streak-30"; "xp-100"; "xp-500";
    "xp-1000"; "perfect-lesson"; "multi-language"; "level-5"; "level-10" ].

(** ** Handlers *)

Section Handlers.

(** [str.lower] and [str.strip] of the Python runtime. *)
Variable str_lower : string -> string.
Variable str_strip : string -> string.

(** The lesson catalog, a dict from language code to lesson list. *)
Variable SAMPLE_LESSONS : string -> option (list Lesson.t).

(** [SAMPLE_LESSONS.get(language, [])]. *)
Definition lessons_of (language : string) : list Lesson.t :=
  match SAMPLE_LESSONS language with
  | Some lessons => lessons
  | None => []
  end.

(** [next((l for l in lessons if l['id'] == lesson_id), None)]. *)
Definition lesson_by_id (lessons : list Lesson.t) (lesson_id : string)
    : option Lesson.t :=
  find (fun l => String.eqb (Lesson.id l) lesson_id) lessons.

(** The dependency [get_current_user], after the token has been decoded
    to its subject [user_id]. *)
Definition get_current_user (user_id : string) : M User.t :=
  user <- users_find_one user_id ;;
  match user with
  | None => raise (HTTPException 401 "User not found")
  | Some user => ret user
  end.

(** *** Achievements *)

Definition add_achievement (achievement_id : string) (u : User.t) : User.t :=
  User.set_achievements (User.achievements u ++ [achievement_id])%list u.

Definition check_and_award_achievement (user_id achievement_id : string)
    : M unit :=
  user <- users_find_one user_id ;;
  match user with
  | None => ret tt
  | Some user =>
      let achievements := User.achievements user in
      if negb (str_in achievement_id achievements) then
        users_update_one user_id
          (User.set_achievements (achievements ++ [achievement_id])%list)
      else ret tt
  end.

(** [if cond: await ...]. *)
Definition when (cond : bool) (m : M unit) : M unit :=
  if cond then m else ret tt.

Definition check_lesson_achievements (user_id : string)
    (streak xp level : Z) (perfect : bool) : M unit :=
  progress_count <-
    lesson_progress_count_documents
      (fun p => String.eqb (Progress.user_id p) user_id
                && Bool.eqb (Progress.completed p) true) ;;
  when (progress_count =? 1)
    (check_and_award_achievement user_id "first-lesson") ;;
  when (3 <=? streak) (check_and_award_achievement user_id "streak-3") ;;
  when (7 <=? streak) (check_and_award_achievement user_id "streak-7") ;;
  when (30 <=? streak) (check_and_award_achievement user_id "streak-30") ;;
  when (100 <=? xp) (check_and_award_achievement user_id "xp-100") ;;
  when (500 <=? xp) (check_and_award_achievement user_id "xp-500") ;;
  when (1000 <=? xp) (check_and_award_achievement user_id "xp-1000") ;;
  when perfect (check_and_award_achievement user_id "perfect-lesson") ;;
  when (5 <=? level) (check_and_award_achievement user_id "level-5") ;;
  when (10 <=? level) (check_and_award_achievement user_id "level-10").

(** [GET /achievements]: each table entry with its [unlocked] flag. *)
Definition get_achievements (user : User.t) : list (string * bool) :=
  map (fun ach => (ach, str_in ach (User.achievements user))) ACHIEVEMENTS.

(** *** Languages *)

Definition start_language (code : string) (user : User.t) : M Language.t :=
  match find (fun l => String.eqb (Language.code l) code) LANGUAGES with
  | None => raise (HTTPException 404 "Language not found")
  | Some lang =>
      let languages := User.languages_learning user in
      let languages :=
        if negb (str_in code languages) then (languages ++ [code])%list
        else languages in
      users_update_one (User.id user) (User.set_languages code languages) ;;
      when (3 <=? Z.of_nat (length languages))
        (check_and_award_achievement (User.id user) "multi-language") ;;
      ret lang
  end.

(** *** Grading *)

(** The body of the scoring loop for the pair [(i, answer)]. *)
Definition grade_answer (items : list LessonContent.t) (i : nat)
    (answer : string) (correct : Z) : Z :=
  if (i <? length items)%nat then
    match nth_error items i with
    | Some item =>
        let expected := str_strip (str_lower (LessonContent.correct_answer item)) in
        if String.eqb (str_strip (str_lower answer)) expected
        then correct + 1 else correct
    | None => correct
    end
  else correct.

(** [for i, answer in enumerate(answers)], entered at index [i]. *)
Fixpoint score_loop (items : list LessonContent.t) (i : nat)
    (answers : list string) (correct : Z) : Z :=
  match answers with
  | [] => correct
  | answer :: rest =>
      score_loop items (S i) rest (grade_answer items i answer correct)
  end.

(** [int((correct / total) * 100)]. *)
Definition percent (correct total : Z) : M Z :=
  q <- true_div correct total ;;
  ret (int_of_float (PrimFloat.mul q (float_of_int 100))).

(** The streak update: the new streak and the streak bonus. *)
Definition update_streak (today : Z) (user : User.t) : Z * Z :=
  let new_streak := User.streak user in
  match User.last_practice_date user with
  | Some last_date =>
      let days_diff := today - last_date in
      if days_diff =? 1 then
        let new_streak := new_streak + 1 in
        (new_streak, Z.min (new_streak * 2) 20)
      else if 1 <? days_diff then (1, 0)
      else (new_streak, 0)
  | None => (1, 0)
  end.

Definition complete_lesson (language lesson_id : string)
    (answers : list string) (now : Z) (user : User.t) : M QuizResult.t :=
  let lessons := lessons_of language in
  match lesson_by_id lessons lesson_id with
  | None => raise (HTTPException 404 "Lesson not found")
  | Some lesson =>
      let correct := score_loop (Lesson.content lesson) 0 answers 0 in
      let total := Z.of_nat (length (Lesson.content lesson)) in
      score_pct <- percent correct total ;;
      let passed := 70 <=? score_pct in
      let base_xp :=
        if passed then Lesson.xp_reward lesson
        else Lesson.xp_reward lesson / 2 in
      let today := date_of now in
      let '(new_streak, streak_bonus) := update_streak today user in
      let total_xp := base_xp + streak_bonus in
      let new_total_xp := User.xp user + total_xp in
      let new_level := new_total_xp / 100 + 1 in
      let old_level := User.level user in
      let hearts :=
        if negb passed then
          if 0 <? User.hearts user then Some (User.hearts user - 1) else None
        else None in
      users_update_one (User.id user)
        (User.set_progress new_total_xp new_level new_streak today hearts) ;;
      lesson_progress_upsert (progress_key (User.id user) lesson_id)
        (Progress.mk (User.id user) lesson_id language passed score_pct now) ;;
      check_lesson_achievements (User.id user) new_streak new_total_xp
        new_level (score_pct =? 100) ;;
      ret (QuizResult.mk correct total total_xp passed
             (if old_level <? new_level then Some new_level else None)
             streak_bonus)
  end.

(** *** Lesson list *)

(** [{p['lesson_id']: p for p in progress_docs}.get(lesson_id)]: the last
    document of a lesson id wins. *)
Definition progress_map_get (progress_docs : list Progress.t)
    (lesson_id : string) : option Progress.t :=
  find (fun p => String.eqb (Progress.lesson_id p) lesson_id)
    (rev progress_docs).

(** [progress_map.get(lesson_id, {}).get('completed', False)]. *)
Definition completed_of (progress_docs : list Progress.t)
    (lesson_id : string) : bool :=
  match progress_map_get progress_docs lesson_id with
  | Some p => Progress.completed p
  | None => false
  end.

Definition score_of (progress_docs : list Progress.t)
    (lesson_id : string) : Z :=
  match progress_map_get progress_docs lesson_id with
  | Some p => Progress.score p
  | None => 0
  end.

Definition lesson_locked (lessons : list Lesson.t)
    (progress_docs : list Progress.t) (lesson : Lesson.t) : bool :=
  if Lesson.order lesson =? 1 then false
  else if 1 <? Lesson.order lesson then
    let prev_ids :=
      map Lesson.id
        (filter (fun l => Lesson.order l =? Lesson.order lesson - 1) lessons) in
    negb (existsb (completed_of progress_docs) prev_ids)
  else false.

Definition lesson_data (lessons : list Lesson.t)
    (progress_docs : list Progress.t) (lesson : Lesson.t) : LessonData.t :=
  LessonData.mk (Lesson.id lesson) (Lesson.title lesson)
    (Lesson.description lesson) (Lesson.order lesson)
    (Lesson.xp_reward lesson)
    (completed_of progress_docs (Lesson.id lesson))
    (score_of progress_docs (Lesson.id lesson))
    (lesson_locked lessons progress_docs lesson).

Definition get_lessons (language : string) (user : User.t)
    : M (list LessonData.t) :=
  let lessons := lessons_of language in
  progress_docs <-
    lesson_progress_find
      (fun p => String.eqb (Progress.user_id p) (User.id user)
                && String.eqb (Progress.language p) language) 100 ;;
  ret (map (lesson_data lessons progress_docs) lessons).

(** *** Account and profile *)

(** [POST /auth/register]; [user_id] is the fresh [uuid4]. *)
Definition register (user_id email name : string) : M User.t :=
  fun db =>
    match find (fun u => String.eqb (User.email u) email) (DB.users db) with
    | Some _ => (Raise (HTTPException 400 "Email already registered"), db)
    | None =>
        let user_doc := User.mk user_id email name 0 1 0 5 None [] [] None in
        (users_insert_one user_doc ;; ret user_doc) db
    end.

Definition update_profile (name : string) (user : User.t) : M unit :=
  users_update_one (User.id user) (User.set_name name).

Definition refill_hearts (user : User.t) : M unit :=
  users_update_one (User.id user) (User.set_hearts 5).

(** *** Requests *)

Inductive request : Type :=
| Register (user_id email name : string)
| StartLanguage (user_id code : string)
| CompleteLesson (user_id language lesson_id : string)
    (answers : list string) (now : Z)
| UpdateProfile (user_id name : string)
| RefillHearts (user_id : string).

(** The database after a request has been served (whether it returned or
    raised). *)
Definition serve (r : request) (db : DB.t) : DB.t :=
  match r with
  | Register user_id email name => snd (register user_id email name db)
  | StartLanguage user_id code =>
      snd ((user <- get_current_user user_id ;; start_language code user) db)
  | CompleteLesson user_id language lesson_id answers now =>
      snd ((user <- get_current_user user_id ;;
            complete_lesson language lesson_id answers now user) db)
  | UpdateProfile user_id name =>
      snd ((user <- get_current_user user_id ;; update_profile name user) db)
  | RefillHearts user_id =>
      snd ((user <- get_current_user user_id ;; refill_hearts user) db)
  end.

(** The databases the service can be in, starting from empty collections. *)
Inductive reachable : DB.t -> Prop :=
| reachable_empty : reachable DB.empty
| reachable_serve : forall db r, reachable db -> reachable (serve r db).

(** *** Observations used in the statements *)

(** Both sides of the comparison in the scoring loop are normalized the
    same way. *)
Definition normalize (s : string) : string := str_strip (str_lower s).

(** Index [i] carries a right answer: the submission has an answer there,
    the lesson has an item there, and the two agree once normalized. *)
Definition answer_matches (items : list LessonContent.t)
    (answers : list string) (i : nat) : bool :=
  match nth_error answers i, nth_error items i with
  | Some answer, Some item =>
      String.eqb (normalize answer)
        (normalize (LessonContent.correct_answer item))
  | _, _ => false
  end.

(** The number of item indices that carry a right answer. *)
Definition count_matching (items : list LessonContent.t)
    (answers : list string) : Z :=
  Z.of_nat (length (filter (answer_matches items answers)
                      (seq 0 (length items)))).

(** Right answers among the pairs of an item and the answer at its index. *)
Fixpoint matching_pairs (items : list LessonContent.t)
    (answers : list string) : nat :=
  match items, answers with
  | item :: items', answer :: answers' =>
      (if String.eqb (normalize answer)
            (normalize (LessonContent.correct_answer item))
       then 1 else 0)
      + matching_pairs items' answers'
  | _, _ => 0
  end%nat.

(** The value of [int((correct / total) * 100)] when [total] is not 0. *)
Definition score_percent (correct total : Z) : Z :=
  int_of_float
    (PrimFloat.mul (PrimFloat.div (float_of_int correct) (float_of_int total))
       (float_of_int 100)).

(** What [check_and_award_achievement] does to the document it finds. *)
Definition award_to (achievement_id : string) (u : User.t) : User.t :=
  if str_in achievement_id (User.achievements u) then u
  else add_achievement achievement_id u.

Definition award (user_id achievement_id : string) (db : DB.t) : DB.t :=
  DB.mk (update_first user_id (award_to achievement_id) (DB.users db))
    (DB.lesson_progress db).

(** The ids [check_lesson_achievements] asks for, in call order. *)
Definition earned_ids (progress_count streak xp level : Z) (perfect : bool)
    : list string :=
  ((if progress_count =? 1 then ["first-lesson"] else [])
   ++ (if 3 <=? streak then ["streak-3"] else [])
   ++ (if 7 <=? streak then ["streak-7"] else [])
   ++ (if 30 <=? streak then ["streak-30"] else [])
   ++ (if 100 <=? xp then ["xp-100"] else [])
   ++ (if 500 <=? xp then ["xp-500"] else [])
   ++ (if 1000 <=? xp then ["xp-1000"] else [])
   ++ (if perfect then ["perfect-lesson"] else [])
   ++ (if 5 <=? level then ["level-5"] else [])
   ++ (if 10 <=? level then ["level-10"] else []))%list.

Definition award_all (user_id : string) (ids : list string) (db : DB.t)
    : DB.t :=
  fold_left (fun db a => award user_id a db) ids db.

Definition awards (ids : list string) (u : User.t) : User.t :=
  fold_left (fun u a => award_to a u) ids u.

(** Every lesson of the catalog rewards a non-negative amount of XP. *)
Definition nonnegative_rewards : Prop :=
  forall language lessons lesson,
    SAMPLE_LESSONS language = Some lessons ->
    In lesson lessons -> 0 <= Lesson.xp_reward lesson.

(** A profile that learns three languages or more holds "multi-language". *)
Definition polyglot_awarded (u : User.t) : Prop :=
  3 <= Z.of_nat (length (User.languages_learning u)) ->
  In "multi-language" (User.achievements u).

(** The progression fields of a document as [register] inserts it. *)
Definition fresh_profile (u : User.t) : Prop :=
  User.xp u = 0 /\ User.streak u = 0
  /\ User.achievements u = [] /\ User.languages_learning u = [].

(** What every handler guarantees of the document it rewrites. *)
Definition profile_step (u u' : User.t) : Prop :=
  incl (User.achievements u) (User.achievements u')
  /\ (NoDup (User.achievements u) -> NoDup (User.achievements u'))
  /\ (0 <= User.streak u -> 0 <= User.streak u')
  /\ (nonnegative_rewards -> 0 <= User.streak u -> User.xp u <= User.xp u')
  /\ (polyglot_awarded u -> polyglot_awarded u').

(** The database after a list of requests, served in order. *)
Definition serve_all (rs : list request) (db : DB.t) : DB.t :=
  fold_left (fun db r => serve r db) rs db.

End Handlers.

(** The stored profile of a user id. *)
Definition user_of (uid : string) (db : DB.t) : option User.t :=
  first_user uid (DB.users db).

Definition xp_of (uid : string) (db : DB.t) : Z :=
  match user_of uid db with Some u => User.xp u | None => 0 end.

Definition achievements_of (uid : string) (db : DB.t) : list string :=
  match user_of uid db with Some u => User.achievements u | None => [] end.

(** The completion record of a (user, lesson) pair. *)
Definition progress_of (uid lid : string) (db : DB.t) : option Progress.t :=
  find (progress_key uid lid) (DB.lesson_progress db).

(** The count read by [check_lesson_achievements]. *)
Definition completed_count (uid : string) (db : DB.t) : Z :=
  Z.of_nat (length (filter
    (fun p => String.eqb (Progress.user_id p) uid
              && Bool.eqb (Progress.completed p) true)
    (DB.lesson_progress db))).

(** The records [get_lessons] asks the store for. *)
Definition records_of (uid language : string) (db : DB.t) : list Progress.t :=
  filter (fun p => String.eqb (Progress.user_id p) uid
                   && String.eqb (Progress.language p) language)
    (DB.lesson_progress db).

(** At most one record per (user, lesson) pair. *)
Definition unique_records (db : DB.t) : Prop :=
  NoDup (map (fun p => (Progress.user_id p, Progress.lesson_id p))
           (DB.lesson_progress db)).

(** Lesson [lid] has a record of user [uid] in [language] with
    [completed == True]. *)
Definition completed_record (uid language lid : string) (db : DB.t) : Prop :=
  exists p, In p (records_of uid language db)
            /\ Progress.lesson_id p = lid /\ Progress.completed p = true.

(** ** ASCII text *)

(** [str.lower] and [str.strip] on ASCII text; bytes from 128 on are kept
    as they are. *)
Definition lower_char (c : ascii) : ascii :=
  let n := nat_of_ascii c in
  if ((65 <=? n) && (n <=? 90))%nat then ascii_of_nat (n + 32) else c.

Fixpoint ascii_lower (s : string) : string :=
  match s with
  | EmptyString => EmptyString
  | String c s' => String (lower_char c) (ascii_lower s')
  end.

(** [str.isspace] below 128: tab to carriage return, the four separators
    28 to 31, and the space. *)
Definition isspace (c : ascii) : bool :=
  let n := nat_of_ascii c in
  (((9 <=? n) && (n <=? 13)) || ((28 <=? n) && (n <=? 32)))%nat.

Fixpoint lstrip (s : string) : string :=
  match s with
  | EmptyString => EmptyString
  | String c s' => if isspace c then lstrip s' else s
  end.

Fixpoint rstrip (s : string) : string :=
  match s with
  | EmptyString => EmptyString
  | String c s' =>
      match rstrip s' with
      | EmptyString => if isspace c then EmptyString else String c EmptyString
      | r => String c r
      end
  end.

Definition ascii_strip (s : string) : string := rstrip (lstrip s).

(** ** Catalogs used in the worked examples *)

(** The three curated Spanish lessons of [SAMPLE_LESSONS]. *)
Definition es_basics_1 : Lesson.t :=
  Lesson.mk "es-basics-1" "es" "Greetings" "Learn basic Spanish greetings" 1 15
    [ LessonContent.mk "Listen and repeat: Hola" "hola";
      LessonContent.mk "What does 'Buenos d√≠as' mean?" "Good morning";
      LessonContent.mk "Write 'Thank you' in Spanish" "gracias";
      LessonContent.mk "How do you say 'Goodbye' in Spanish?" "Adi√≥s" ].

Definition es_basics_2 : Lesson.t :=
  Lesson.mk "es-basics-2" "es" "Numbers" "Count from 1 to 10 in Spanish" 2 15
    [ LessonContent.mk "Listen and repeat: Uno, Dos, Tres" "uno dos tres";
      LessonContent.mk "What is 'Cinco' in English?" "Five";
      LessonContent.mk "Write the number 7 in Spanish" "siete";
      LessonContent.mk "What comes after 'ocho'?" "Nueve" ].

Definition es_basics_3 : Lesson.t :=
  Lesson.mk "es-basics-3" "es" "Colors" "Learn colors in Spanish" 3 20
    [ LessonContent.mk "Listen: Rojo means Red" "rojo";
      LessonContent.mk "What color is 'Azul'?" "Blue";
      LessonContent.mk "Write 'Green' in Spanish" "verde";
      LessonContent.mk "'Amarillo' is which color?" "Yellow" ].

Definition spanish_catalog (language : string) : option (list Lesson.t) :=
  if String.eqb language "es" then Some [es_basics_1; es_basics_2; es_basics_3]
  else None.

(** A catalog whose only lesson has [n] items, each answered by "a". *)
Definition uniform_lesson (n : nat) : Lesson.t :=
  Lesson.mk "drill" "es" "Drill" "A lesson of equal items" 1 10
    (repeat (LessonContent.mk "Type a" "a") n).

Definition drill_catalog (n : nat) (language : string)
    : option (list Lesson.t) :=
  if String.eqb language "es" then Some [uniform_lesson n] else None.

(** A catalog of [n] one-item Spanish lessons with orders 1 to [n]. *)
Definition drill_id (k : nat) : string :=
  "es-drill-" ++ NilZero.string_of_uint (Nat.to_uint k).

Definition drill_lesson (k : nat) : Lesson.t :=
  Lesson.mk (drill_id k) "es" "Drill" "One word" (Z.of_nat k) 10
    [LessonContent.mk "Type a" "a"].

Definition long_catalog (n : nat) (language : string)
    : option (list Lesson.t) :=
  if String.eqb language "es" then Some (map drill_lesson (seq 1 n)) else None.

(** A learner as [register] stores them. *)
Definition ana : User.t :=
  User.mk "u1" "ana@example.org" "Ana" 0 1 0 5 None [] [] None.

(** A learner with a streak of 2 who last practised on day 0. *)
Definition ben : User.t :=
  User.mk "u2" "ben@example.org" "Ben" 40 1 2 5 (Some "es") ["es"]
    ["first-lesson"] (Some 0).

(** A learner with 90 xp who already practised on day 1. *)
Definition cleo : User.t :=
  User.mk "u3" "cleo@example.org" "Cleo" 90 1 1 5 (Some "es") ["es"]
    ["first-lesson"] (Some 1).

(** Four right answers to [es_basics_1], and one right answer. *)
Definition all_right : list string :=
  ["Hola "; "good morning"; " GRACIAS"; "Adi√≥s"].

Definition one_right : list string := ["hola"; "good night"].

(** Ana registers and passes [es_basics_1] on day 1; later that day she
    fails it. *)
Definition ana_passes : list request :=
  [ Register "u1" "ana@example.org" "Ana";
    CompleteLesson "u1" "es" "es-basics-1" all_right 86400 ].

Definition ana_fails : request :=
  CompleteLesson "u1" "es" "es-basics-1" one_right 90000.

(** Ana registers and passes the first [n] lessons of a long catalog. *)
Definition ana_drills (n : nat) : list request :=
  Register "u1" "ana@example.org" "Ana"
  :: map (fun k => CompleteLesson "u1" "es" (drill_id k) ["a"] 86400)
       (seq 1 n).

(** Ana's profile once she has passed [es_basics_1]. *)
Definition ana_passed : User.t :=
  User.mk "u1" "ana@example.org" "Ana" 15 1 1 5 None []
    ["first-lesson"; "perfect-lesson"] (Some 1).

(** The databases of these runs. *)
Definition passed_db : DB.t :=
  serve_all ascii_lower ascii_strip spanish_catalog ana_passes DB.empty.

Definition failed_db : DB.t :=
  serve ascii_lower ascii_strip spanish_catalog ana_fails passed_db.

Definition drilled_db : DB.t :=
  serve_all ascii_lower ascii_strip (long_catalog 102) (ana_drills 101)
    DB.empty.

(** The ids and lock flags that [get_lessons] lists. *)
Definition listed_locks (catalog : string -> option (list Lesson.t))
    (language uid : string) (db : DB.t) : list (string * bool) :=
  match
    fst ((user <- get_current_user uid ;; get_lessons catalog language user) db)
  with
  | Return out => map (fun d => (LessonData.id d, LessonData.locked d)) out
  | Raise _ => []
  end.

(** ** How a request rewrites a profile *)

(** The documents a handler can put in place of the profile [user]:
    [start_language] with a known code, a graded [complete_lesson] (with the
    percentage [score_pct] and the count [count] of completed lessons it
    read), [update_profile] and [refill_hearts]. *)
Inductive profile_change (catalog : string -> option (list Lesson.t))
    (user : User.t) : User.t -> Prop :=
| change_language (code : string) (lang : Language.t) :
    find (fun l => String.eqb (Language.code l) code) LANGUAGES = Some lang ->
    profile_change catalog user
      (let languages :=
         if negb (str_in code (User.languages_learning user))
         then (User.languages_learning user ++ [code])%list
         else User.languages_learning user in
       awards
         (if 3 <=? Z.of_nat (length languages) then ["multi-language"] else [])
         (User.set_languages code languages user))
| change_graded (language lesson_id : string) (lesson : Lesson.t)
    (score_pct now count : Z) :
    lesson_by_id (lessons_of catalog language) lesson_id = Some lesson ->
    profile_change catalog user
      (let passed := 70 <=? score_pct in
       let base_xp :=
         if passed then Lesson.xp_reward lesson
         else Lesson.xp_reward lesson / 2 in
       let today := date_of now in
       let new_streak := fst (update_streak today user) in
       let streak_bonus := snd (update_streak today user) in
       let new_total_xp := User.xp user + (base_xp + streak_bonus) in
       let new_level := new_total_xp / 100 + 1 in
       let hearts :=
         if negb passed then
           if 0 <? User.hearts user then Some (User.hearts user - 1) else None
         else None in
       awards
         (earned_ids count new_streak new_total_xp new_level (score_pct =? 100))
         (User.set_progress new_total_xp new_level new_streak today hearts
            user))
| change_name (name : string) :
    profile_change catalog user (User.set_name name user)
| change_hearts : profile_change catalog user (User.set_hearts 5 user).

(** The document [register] inserts. *)
Definition new_user (user_id email name : string) : User.t :=
  User.mk user_id email name 0 1 0 5 None [] [] None.

(** The user id a request is made under (for [Register], the id given to
    the new profile). *)
Definition requester (r : request) : string :=
  match r with
  | Register user_id _ _ => user_id
  | StartLanguage user_id _ => user_id
  | CompleteLesson user_id _ _ _ _ => user_id
  | UpdateProfile user_id _ => user_id
  | RefillHearts user_id => user_id
  end.

(** A profile that has not practised has streak 0 and no practice day; one
    that has, has a practice day and a streak of at least 1. *)
Definition streak_consistent (u : User.t) : Prop :=
  (User.last_practice_date u = None /\ User.streak u = 0)
  \/ (exists d, User.last_practice_date u = Some d /\ 1 <= User.streak u).

(** The language codes of [LANGUAGES]. *)
Definition language_codes : list string := map Language.code LANGUAGES.

(** The languages in progress are distinct, are codes of [LANGUAGES], and
    include the current language. *)
Definition languages_consistent (u : User.t) : Prop :=
  NoDup (User.languages_learning u)
  /\ incl (User.languages_learning u) language_codes
  /\ (forall c, User.current_language u = Some c ->
                In c (User.languages_learning u)).

(** The xp and level achievements a profile holds are backed by its xp and
    level. *)
Definition metrics_backed (u : User.t) : Prop :=
  (In "xp-100" (User.achievements u) -> 100 <= User.xp u)
  /\ (In "xp-500" (User.achievements u) -> 500 <= User.xp u)
  /\ (In "xp-1000" (User.achievements u) -> 1000 <= User.xp u)
  /\ (In "level-5" (User.achievements u) -> 5 <= User.level u)
  /\ (In "level-10" (User.achievements u) -> 10 <= User.level u).

(** ** Further handlers *)

(** [GET /lessons/{language}/{lesson_id}]. *)
Definition get_lesson_detail (SAMPLE_LESSONS : string -> option (list Lesson.t))
    (language lesson_id : string) (user : User.t) : M Lesson.t :=
  let lessons := lessons_of SAMPLE_LESSONS language in
  match lesson_by_id lessons lesson_id with
  | None => raise (HTTPException 404 "Lesson not found")
  | Some lesson => ret lesson
  end.

(** The response model of [get_languages] (without the [flag] glyph). *)
Module LanguageInfo.
Record t := mk {
  code : string;
  name : string;
  lessons_count : Z;
  progress : Z
}.
End LanguageInfo.

(** The filter [{'user_id': uid, 'language': code, 'completed': True}]. *)
Definition completed_in (uid code : string) (p : Progress.t) : bool :=
  String.eqb (Progress.user_id p) uid
  && String.eqb (Progress.language p) code
  && Bool.eqb (Progress.completed p) true.

(** [int((len(progress_docs) / max(len(lessons), 1)) * 100) if lessons
    else 0]. *)
Definition progress_pct (n_docs n_lessons : Z) : M Z :=
  if n_lessons =? 0 then ret 0
  else
    q <- true_div n_docs (Z.max n_lessons 1) ;;
    ret (int_of_float (PrimFloat.mul q (float_of_int 100))).

(** [for lang in LANGUAGES], entered with the entries built so far. *)
Fixpoint get_languages_loop (SAMPLE_LESSONS : string -> option (list Lesson.t))
    (user : User.t) (langs : list Language.t) (result : list LanguageInfo.t)
    : M (list LanguageInfo.t) :=
  match langs with
  | [] => ret result
  | lang :: rest =>
      let lessons := lessons_of SAMPLE_LESSONS (Language.code lang) in
      progress_docs <-
        lesson_progress_find
          (completed_in (User.id user) (Language.code lang)) 100 ;;
      pct <-
        progress_pct (Z.of_nat (length progress_docs))
          (Z.of_nat (length lessons)) ;;
      get_languages_loop SAMPLE_LESSONS user rest
        (result
         ++ [LanguageInfo.mk (Language.code lang) (Language.name lang)
               (Z.of_nat (length lessons)) pct])%list
  end.

(** [GET /languages]. *)
Definition get_languages (SAMPLE_LESSONS : string -> option (list Lesson.t))
    (user : User.t) : M (list LanguageInfo.t) :=
  get_languages_loop SAMPLE_LESSONS user LANGUAGES [].

(** The number of lessons of a language that a user has completed. *)
Definition completed_lessons (uid code : string) (db : DB.t) : Z :=
  Z.of_nat (length (filter (completed_in uid code) (DB.lesson_progress db))).

(** An entry of the leaderboard. *)
Module LeaderboardEntry.
Record t := mk {
  rank : Z;
  user_id : string;
  name : string;
  xp : Z;
  level : Z;
  streak : Z
}.
End LeaderboardEntry.

(** [sort('xp', -1)]: profiles by decreasing xp; profiles of equal xp keep
    their natural order (the store leaves the order of ties open). *)
Fixpoint insert_by_xp (u : User.t) (sorted : list User.t) : list User.t :=
  match sorted with
  | [] => [u]
  | v :: rest =>
      if User.xp v <=? User.xp u then u :: v :: rest
      else v :: insert_by_xp u rest
  end.

Definition sort_by_xp (us : list User.t) : list User.t :=
  fold_right insert_by_xp [] us.

(** [for i, u in enumerate(users)], entered at index [i]. *)
Fixpoint leaderboard_entries (i : Z) (users : list User.t)
    : list LeaderboardEntry.t :=
  match users with
  | [] => []
  | u :: rest =>
      LeaderboardEntry.mk (i + 1) (User.id u) (User.name u) (User.xp u)
        (User.level u) (User.streak u)
      :: leaderboard_entries (i + 1) rest
  end.

(** [GET /leaderboard]: [find().sort('xp', -1).limit(50).to_list(50)]. *)
Definition get_leaderboard (user : User.t) : M (list LeaderboardEntry.t) :=
  fun db =>
    let users := firstn 50 (firstn 50 (sort_by_xp (DB.users db))) in
    (Return (leaderboard_entries 0 users), db).

(** ** The catalog generator *)

(** [dict.get(key, default)] on an optional entry. *)
Definition get_default {A} (entry : option A) (default : A) : A :=
  match entry with Some a => a | None => default end.

(** An entry of [common_phrases]; a missing key is [None].  The [family]
    and [travel] dicts have their own keys. *)
Module Family.
Record t := mk {
  father : option string;
  mother : option string;
  brother : option string;
  sister : option string
}.
Definition empty : t := mk None None None None.
End Family.

Module Travel.
Record t := mk {
  airport : option string;
  hotel : option string;
  ticket : option string;
  map : option string
}.
Definition empty : t := mk None None None None.
End Travel.

Module Phrases.
Record t := mk {
  hello : option string;
  thank : option string;
  goodbye : option string;
  please : option string;
  numbers : option (list string);
  colors : option (list string);
  family : option Family.t;
  travel : option Travel.t
}.
Definition empty : t := mk None None None None None None None None.
End Phrases.

(** [f"{n}"] for a non-negative int. *)
Definition str_of_nat (n : nat) : string :=
  NilZero.string_of_uint (Nat.to_uint n).

Definition make_greetings_lesson (code name : string) (data : Phrases.t)
    (order : nat) : Lesson.t :=
  let hello := get_default (Phrases.hello data) ("hello_" ++ code) in
  let goodbye := get_default (Phrases.goodbye data) "goodbye" in
  let thank := get_default (Phrases.thank data) "thank you" in
  Lesson.mk (code ++ "-greetings-" ++ str_of_nat order) code "Greetings"
    ("Basic greetings in " ++ name) (Z.of_nat order) 15
    [ LessonContent.mk ("Listen and repeat: " ++ hello) hello;
      LessonContent.mk ("What does '" ++ hello ++ "' mean?") "Hello";
      LessonContent.mk ("How do you say 'Thank you' in " ++ name ++ "?") thank;
      LessonContent.mk ("How do you say 'Goodbye' in " ++ name ++ "?") goodbye ].

(** [nums[i]] raises [IndexError] past the end: [None]. *)
Definition make_numbers_lesson (code name : string) (data : Phrases.t)
    (order : nat) : option Lesson.t :=
  let nums :=
    get_default (Phrases.numbers data) ["one"; "two"; "three"; "four"; "five"] in
  match nth_error nums 0, nth_error nums 1, nth_error nums 2, nth_error nums 4
  with
  | Some n0, Some n1, Some n2, Some n4 =>
      Some
        (Lesson.mk (code ++ "-numbers-" ++ str_of_nat order) code "Numbers"
           ("Counting basics in " ++ name) (Z.of_nat order) 15
           [ LessonContent.mk
               ("Listen and repeat: " ++ n0 ++ ", " ++ n1 ++ ", " ++ n2)
               (String.concat " " (firstn 3 nums));
             LessonContent.mk ("What is '" ++ n2 ++ "' in English?") "Three";
             LessonContent.mk ("Write the number 5 in " ++ name) n4 ])
  | _, _, _, _ => None
  end.

Definition make_colors_lesson (code name : string) (data : Phrases.t)
    (order : nat) : option Lesson.t :=
  let cols :=
    get_default (Phrases.colors data) ["red"; "blue"; "green"; "yellow"] in
  match nth_error cols 0, nth_error cols 1, nth_error cols 2 with
  | Some c0, Some c1, Some c2 =>
      Some
        (Lesson.mk (code ++ "-colors-" ++ str_of_nat order) code "Colors"
           ("Common colors in " ++ name) (Z.of_nat order) 15
           [ LessonContent.mk ("Listen: " ++ c0 ++ " means " ++ c0) c0;
             LessonContent.mk ("Which color is '" ++ c1 ++ "'?") "Blue";
             LessonContent.mk ("Write 'Green' in " ++ name) c2 ])
  | _, _, _ => None
  end.

Definition make_phrases_lesson (code name : string) (data : Phrases.t)
    (order : nat) : Lesson.t :=
  Lesson.mk (code ++ "-phrases-" ++ str_of_nat order) code "Useful Phrases"
    ("Useful everyday phrases in " ++ name) (Z.of_nat order) 20
    [ LessonContent.mk "How would you politely ask for help?"
        "Can you help me?";
      LessonContent.mk ("Translate 'Please' into " ++ name)
        (get_default (Phrases.please data) "please");
      LessonContent.mk "Which phrase shows gratitude?" "Thank you" ].

Definition make_family_lesson (code name : string) (data : Phrases.t)
    (order : nat) : Lesson.t :=
  let family := get_default (Phrases.family data) Family.empty in
  Lesson.mk (code ++ "-family-" ++ str_of_nat order) code "Family Members"
    ("Learn family vocabulary in " ++ name) (Z.of_nat order) 20
    [ LessonContent.mk ("How do you say 'Mother' in " ++ name ++ "?")
        (get_default (Family.mother family) "mother");
      LessonContent.mk ("Write 'Father' in " ++ name)
        (get_default (Family.father family) "father");
      LessonContent.mk
        ("'" ++ get_default (Family.brother family) "brother" ++ "' means:")
        "Brother" ].

Definition make_travel_lesson (code name : string) (data : Phrases.t)
    (order : nat) : Lesson.t :=
  let travel := get_default (Phrases.travel data) Travel.empty in
  Lesson.mk (code ++ "-travel-" ++ str_of_nat order) code "Travel & Directions"
    ("Useful travel words in " ++ name) (Z.of_nat order) 25
    [ LessonContent.mk
        ("Where would you go to catch a flight in " ++ name ++ "?")
        (get_default (Travel.airport travel) "airport");
      LessonContent.mk ("How do you say 'Ticket' in " ++ name ++ "?")
        (get_default (Travel.ticket travel) "ticket");
      LessonContent.mk
        ("You need a '" ++ get_default (Travel.map travel) "map"
         ++ "' to find your way. What is it?")
        "Map" ].

(** The [if idx == 1: ... elif ... else] chain of the backfill loop. *)
Definition make_lesson (code name : string) (data : Phrases.t) (idx : nat)
    : option Lesson.t :=
  if (idx =? 1)%nat then Some (make_greetings_lesson code name data idx)
  else if (idx =? 2)%nat then make_numbers_lesson code name data idx
  else if (idx =? 3)%nat then make_colors_lesson code name data idx
  else if (idx =? 4)%nat then Some (make_phrases_lesson code name data idx)
  else if (idx =? 5)%nat then Some (make_family_lesson code name data idx)
  else Some (make_travel_lesson code name data idx).

(** What module-level code comes to: a value, an [IndexError], or a loop
    cut short by the fuel of the model. *)
Inductive built (A : Type) : Type :=
| Built (a : A)
| RaisedIndexError
| FuelSpent.
Arguments Built {A} a.
Arguments RaisedIndexError {A}.
Arguments FuelSpent {A}.

(** [while len(SAMPLE_LESSONS[code]) < 6: ... append(...)]. *)
Fixpoint fill_lessons (fuel : nat) (code name : string) (data : Phrases.t)
    (lessons : list Lesson.t) : built (list Lesson.t) :=
  if (length lessons <? 6)%nat then
    match fuel with
    | O => FuelSpent
    | S fuel' =>
        let idx := (length lessons + 1)%nat in
        match make_lesson code name data idx with
        | Some lesson =>
            fill_lessons fuel' code name data (lessons ++ [lesson])%list
        | None => RaisedIndexError
        end
    end
  else Built lessons.

(** [d[key] = value] on a dict seen as a function. *)
Definition dict_set {A} (d : string -> option A) (key : string) (value : A)
    : string -> option A :=
  fun k => if String.eqb k key then Some value else d k.

(** [for lang in LANGUAGES: ...], over the languages still to do. *)
Fixpoint backfill (fuel : nat) (common_phrases : string -> option Phrases.t)
    (langs : list Language.t) (samples : string -> option (list Lesson.t))
    : built (string -> option (list Lesson.t)) :=
  match langs with
  | [] => Built samples
  | lang :: rest =>
      let code := Language.code lang in
      let name := Language.name lang in
      let data := get_default (common_phrases code) Phrases.empty in
      let samples :=
        match samples code with
        | None => dict_set samples code []
        | Some _ => samples
        end in
      match fill_lessons fuel code name data (lessons_of samples code) with
      | Built lessons =>
          backfill fuel common_phrases rest (dict_set samples code lessons)
      | RaisedIndexError => RaisedIndexError
      | FuelSpent => FuelSpent
      end
  end.

(** The data lets the number and colour lessons be built: a [numbers] list
    has five entries or more, a [colors] list three or more. *)
Definition phrases_usable (data : Phrases.t) : Prop :=
  (forall nums, Phrases.numbers data = Some nums -> (5 <= length nums)%nat)
  /\ (forall cols, Phrases.colors data = Some cols -> (3 <= length cols)%nat).

(** A lesson as the generator builds them for [code] at position [k]. *)
Definition generated_lesson (code : string) (k : nat) (lesson : Lesson.t)
    : Prop :=
  Lesson.language lesson = code
  /\ Lesson.order lesson = Z.of_nat k
  /\ (3 <= length (Lesson.content lesson) <= 4)%nat
  /\ 15 <= Lesson.xp_reward lesson <= 25
  /\ exists kind, Lesson.id lesson = code ++ "-" ++ kind ++ "-" ++ str_of_nat k.

(** The lessons of a language after the backfill: the ones it had, then
    generated ones up to six. *)
Definition backfilled (samples catalog : string -> option (list Lesson.t))
    (code : string) : Prop :=
  exists added,
    catalog code = Some (lessons_of samples code ++ added)%list
    /\ length (lessons_of samples code ++ added)
       = Nat.max 6 (length (lessons_of samples code))
    /\ forall j lesson,
         nth_error added j = Some lesson ->
         generated_lesson code (length (lessons_of samples code) + j + 1)
           lesson.

(** The [es] entry of [common_phrases]. *)
Definition es_phrases : Phrases.t :=
  Phrases.mk (Some "hola") (Some "gracias") (Some "adi√≥s") (Some "por favor")
    (Some ["uno"; "dos"; "tres"; "cuatro"; "cinco"; "seis"; "siete"; "ocho";
           "nueve"; "diez"])
    (Some ["rojo"; "azul"; "verde"; "amarillo"; "negro"; "blanco"; "naranja";
           "morado"])
    (Some (Family.mk (Some "padre") (Some "madre") (Some "hermano")
             (Some "hermana")))
    (Some (Travel.mk (Some "aeropuerto") (Some "hotel") (Some "boleto")
             (Some "mapa"))).

(** A phrase table with the Spanish entry only. *)
Definition spanish_phrases (code : string) : option Phrases.t :=
  if String.eqb code "es" then Some es_phrases else None.

(** ** Port selection of [run_server.py] *)




(** ** Further runs used in the worked examples *)

(** Ana passes [es_basics_1], Ben registers, and Ana starts three
    languages. *)
Definition ana_and_ben : list request :=
  (ana_passes
   ++ [ Register "u2" "ben@example.org" "Ben";
        StartLanguage "u1" "es"; StartLanguage "u1" "fr";
        StartLanguage "u1" "de" ])%list.

Definition shared_db : DB.t :=
  serve_all ascii_lower ascii_strip spanish_catalog ana_and_ben DB.empty.

(** Phrase data whose [numbers] list is too short. *)
Definition short_numbers : Phrases.t :=
  Phrases.mk None None None None (Some ["uno"; "dos"]) None None None.

(** The Spanish catalog after the backfill (the curated lists when the
    generator does not return). *)
Definition spanish_backfilled : string -> option (list Lesson.t) :=
  match backfill 6 spanish_phrases LANGUAGES spanish_catalog with
  | Built catalog => catalog
  | _ => spanish_catalog
  end.

(** Ana's profile at the end of [ana_and_ben]. *)
Definition ana_polyglot : User.t :=
  User.mk "u1" "ana@example.org" "Ana" 15 1 1 5 (Some "de") ["es"; "fr"; "de"]
    ["first-lesson"; "perfect-lesson"; "multi-language"] (Some 1).

(** * Properties *)

(** ** Lists and collections *)

Lemma str_in_In (a : string) (xs : list string) :
  str_in a xs = true <-> In a xs.
Proof.
  unfold str_in. rewrite existsb_exists. split.
  - intros [x [Hx Heq]]. apply String.eqb_eq in Heq. now subst.
  - intros H. exists a. split; [assumption | apply String.eqb_refl].
Qed.

Lemma str_in_app (a : string) (xs ys : list string) :
  str_in a (xs ++ ys) = str_in a xs || str_in a ys.
Proof. unfold str_in. apply existsb_app. Qed.

Lemma first_user_id (uid : string) (us : list User.t) (u : User.t) :
  first_user uid us = Some u -> User.id u = uid /\ In u us.
Proof.
  unfold first_user. intros H. apply find_some in H as [Hin Heq].
  apply String.eqb_eq in Heq. auto.
Qed.

Section UpdateFirst.
Variable uid : string.
Variable f : User.t -> User.t.
Hypothesis f_id : forall u, User.id (f u) = User.id u.

Lemma first_user_update_same (us : list User.t) :
  first_user uid (update_first uid f us) = option_map f (first_user uid us).
Proof.
  unfold first_user. induction us as [|u us IH]; simpl; [reflexivity|].
  destruct (String.eqb (User.id u) uid) eqn:E; simpl.
  - rewrite f_id, E. reflexivity.
  - rewrite E. exact IH.
Qed.

Lemma first_user_update_other (uid' : string) (us : list User.t) :
  uid' <> uid ->
  first_user uid' (update_first uid f us) = first_user uid' us.
Proof.
  intros Hne. unfold first_user. induction us as [|u us IH]; simpl; [reflexivity|].
  destruct (String.eqb (User.id u) uid) eqn:E; simpl.
  - rewrite f_id. apply String.eqb_eq in E.
    destruct (String.eqb (User.id u) uid') eqn:E'; [|reflexivity].
    apply String.eqb_eq in E'. congruence.
  - destruct (String.eqb (User.id u) uid'); [reflexivity | exact IH].
Qed.

Lemma update_first_twice (g : User.t -> User.t) (us : list User.t) :
  update_first uid g (update_first uid f us)
  = update_first uid (fun u => g (f u)) us.
Proof.
  induction us as [|u us IH]; simpl; [reflexivity|].
  destruct (String.eqb (User.id u) uid) eqn:E; simpl.
  - rewrite f_id, E. reflexivity.
  - rewrite E, IH. reflexivity.
Qed.
End UpdateFirst.

Lemma update_first_ext (uid : string) (f g : User.t -> User.t)
    (us : list User.t) :
  (forall u, first_user uid us = Some u -> f u = g u) ->
  update_first uid f us = update_first uid g us.
Proof.
  unfold first_user. induction us as [|u us IH]; simpl; intros H; [reflexivity|].
  destruct (String.eqb (User.id u) uid) eqn:E.
  - rewrite (H u eq_refl). reflexivity.
  - rewrite (IH H). reflexivity.
Qed.

Lemma update_first_fixed (uid : string) (f : User.t -> User.t)
    (us : list User.t) :
  (forall u, first_user uid us = Some u -> f u = u) ->
  update_first uid f us = us.
Proof.
  unfold first_user. induction us as [|u us IH]; simpl; intros H; [reflexivity|].
  destruct (String.eqb (User.id u) uid) eqn:E.
  - rewrite (H u eq_refl). reflexivity.
  - rewrite (IH H). reflexivity.
Qed.

Lemma Forall_update_first (P : User.t -> Prop) (uid : string)
    (f : User.t -> User.t) (us : list User.t) :
  Forall P us ->
  (forall u, first_user uid us = Some u -> P u -> P (f u)) ->
  Forall P (update_first uid f us).
Proof.
  unfold first_user. induction 1 as [|u us Hu Hus IH]; simpl; intros Hf.
  - constructor.
  - destruct (String.eqb (User.id u) uid) eqn:E.
    + constructor; [apply Hf; auto | assumption].
    + constructor; [assumption | apply IH, Hf].
Qed.

Lemma first_user_app (uid : string) (us vs : list User.t) :
  first_user uid (us ++ vs)
  = match first_user uid us with
    | Some u => Some u
    | None => first_user uid vs
    end.
Proof.
  unfold first_user. induction us as [|u us IH]; simpl; [reflexivity|].
  destruct (String.eqb (User.id u) uid); [reflexivity | exact IH].
Qed.

Lemma DB_eta (db : DB.t) : DB.mk (DB.users db) (DB.lesson_progress db) = db.
Proof. destruct db; reflexivity. Qed.

(** ** Awarding achievements *)

Lemma award_to_id (a : string) (u : User.t) :
  User.id (award_to a u) = User.id u.
Proof. unfold award_to. destruct (str_in a (User.achievements u)); reflexivity. Qed.

Lemma awards_id (ids : list string) (u : User.t) :
  User.id (awards ids u) = User.id u.
Proof.
  revert u. induction ids as [|a ids IH]; intros u; simpl; [reflexivity|].
  unfold awards in *. simpl. rewrite IH. apply award_to_id.
Qed.

Lemma check_and_award_achievement_run (uid a : string) (db : DB.t) :
  check_and_award_achievement uid a db = (Return tt, award uid a db).
Proof.
  unfold check_and_award_achievement, bind, users_find_one, award.
  destruct (first_user uid (DB.users db)) as [u|] eqn:Hu.
  - destruct (str_in a (User.achievements u)) eqn:Hin; simpl.
    + unfold ret. f_equal. rewrite update_first_fixed; [now rewrite DB_eta|].
      intros u' Hu'. rewrite Hu in Hu'. injection Hu' as <-.
      unfold award_to. now rewrite Hin.
    + unfold users_update_one. f_equal. f_equal.
      apply update_first_ext. intros u' Hu'. rewrite Hu in Hu'.
      injection Hu' as <-. unfold award_to. now rewrite Hin.
  - unfold ret. f_equal. rewrite update_first_fixed; [now rewrite DB_eta|].
    intros u' Hu'. rewrite Hu in Hu'. discriminate.
Qed.

Lemma award_all_app (uid : string) (xs ys : list string) (db : DB.t) :
  award_all uid (xs ++ ys) db = award_all uid ys (award_all uid xs db).
Proof. unfold award_all. apply fold_left_app. Qed.

Lemma when_award (c : bool) (uid a : string) (db : DB.t) :
  when c (check_and_award_achievement uid a) db
  = (Return tt, award_all uid (if c then [a] else []) db).
Proof.
  destruct c; simpl; [apply check_and_award_achievement_run | reflexivity].
Qed.

Lemma check_lesson_achievements_run (uid : string) (streak xp level : Z)
    (perfect : bool) (db : DB.t) :
  check_lesson_achievements uid streak xp level perfect db
  = (Return tt,
     award_all uid
       (earned_ids (completed_count uid db) streak xp level perfect) db).
Proof.
  unfold check_lesson_achievements, bind, lesson_progress_count_documents.
  fold (completed_count uid db).
  repeat (rewrite when_award; cbv beta iota).
  unfold earned_ids. now rewrite !award_all_app.
Qed.

Lemma award_all_users (uid : string) (ids : list string) (db : DB.t) :
  award_all uid ids db
  = DB.mk (update_first uid (awards ids) (DB.users db)) (DB.lesson_progress db).
Proof.
  revert db. induction ids as [|a ids IH]; intros db.
  - simpl. rewrite update_first_fixed; [now rewrite DB_eta | reflexivity].
  - change (award_all uid (a :: ids) db) with (award_all uid ids (award uid a db)).
    rewrite IH. unfold award. simpl.
    rewrite update_first_twice by apply award_to_id. reflexivity.
Qed.

Lemma award_to_keeps (a b : string) (u : User.t) :
  In b (User.achievements u) -> In b (User.achievements (award_to a u)).
Proof.
  unfold award_to. destruct (str_in a (User.achievements u)); simpl; [auto|].
  intros H. apply in_or_app. now left.
Qed.

Lemma award_to_adds (a : string) (u : User.t) :
  In a (User.achievements (award_to a u)).
Proof.
  unfold award_to. destruct (str_in a (User.achievements u)) eqn:E; simpl.
  - now apply str_in_In.
  - apply in_or_app. right. now left.
Qed.

Lemma awards_keeps (ids : list string) (b : string) (u : User.t) :
  In b (User.achievements u) -> In b (User.achievements (awards ids u)).
Proof.
  revert u. induction ids as [|a ids IH]; intros u H; [exact H|].
  apply (IH (award_to a u)). now apply award_to_keeps.
Qed.

Lemma awards_adds (ids : list string) (a : string) (u : User.t) :
  In a ids -> In a (User.achievements (awards ids u)).
Proof.
  revert u. induction ids as [|b ids IH]; intros u H; [destruct H|].
  destruct H as [->|H].
  - apply (awards_keeps ids). apply award_to_adds.
  - apply (IH (award_to b u) H).
Qed.

Lemma award_to_NoDup (a : string) (u : User.t) :
  NoDup (User.achievements u) -> NoDup (User.achievements (award_to a u)).
Proof.
  unfold award_to. destruct (str_in a (User.achievements u)) eqn:E; simpl; [auto|].
  intros H. apply NoDup_app; [assumption | repeat constructor; intros [] |].
  intros x Hx [<-|[]]. apply str_in_In in Hx. congruence.
Qed.

Lemma awards_NoDup (ids : list string) (u : User.t) :
  NoDup (User.achievements u) -> NoDup (User.achievements (awards ids u)).
Proof.
  revert u. induction ids as [|a ids IH]; intros u H; [exact H|].
  apply (IH (award_to a u)). now apply award_to_NoDup.
Qed.

Lemma award_to_fields (a : string) (u : User.t) :
  User.xp (award_to a u) = User.xp u
  /\ User.level (award_to a u) = User.level u
  /\ User.streak (award_to a u) = User.streak u
  /\ User.hearts (award_to a u) = User.hearts u
  /\ User.last_practice_date (award_to a u) = User.last_practice_date u
  /\ User.languages_learning (award_to a u) = User.languages_learning u.
Proof.
  unfold award_to. destruct (str_in a (User.achievements u)); simpl; tauto.
Qed.

Lemma awards_fields (ids : list string) (u : User.t) :
  User.xp (awards ids u) = User.xp u
  /\ User.level (awards ids u) = User.level u
  /\ User.streak (awards ids u) = User.streak u
  /\ User.hearts (awards ids u) = User.hearts u
  /\ User.last_practice_date (awards ids u) = User.last_practice_date u
  /\ User.languages_learning (awards ids u) = User.languages_learning u.
Proof.
  revert u. induction ids as [|a ids IH]; intros u; [simpl; tauto|].
  change (awards (a :: ids) u) with (awards ids (award_to a u)).
  destruct (IH (award_to a u)) as (-> & -> & -> & -> & -> & ->).
  apply award_to_fields.
Qed.

(** ** Grading a submission *)

Section Properties.

Variable str_lower : string -> string.
Variable str_strip : string -> string.
Variable SAMPLE_LESSONS : string -> option (list Lesson.t).

Local Abbreviation lessons_of := (lessons_of SAMPLE_LESSONS).
Local Abbreviation score_loop := (score_loop str_lower str_strip).
Local Abbreviation complete_lesson :=
  (complete_lesson str_lower str_strip SAMPLE_LESSONS).
Local Abbreviation serve := (serve str_lower str_strip SAMPLE_LESSONS).
Local Abbreviation serve_all := (serve_all str_lower str_strip SAMPLE_LESSONS).
Local Abbreviation reachable := (reachable str_lower str_strip SAMPLE_LESSONS).
Local Abbreviation normalize := (normalize str_lower str_strip).
Local Abbreviation nonnegative_rewards := (nonnegative_rewards SAMPLE_LESSONS).
Local Abbreviation profile_step := (profile_step SAMPLE_LESSONS).
Local Abbreviation answer_matches := (answer_matches str_lower str_strip).
Local Abbreviation count_matching := (count_matching str_lower str_strip).
Local Abbreviation matching_pairs := (matching_pairs str_lower str_strip).

Lemma percent_run (correct total : Z) (db : DB.t) :
  percent correct total db
  = if total =? 0 then (Raise ZeroDivisionError, db)
    else (Return (score_percent correct total), db).
Proof.
  unfold percent, bind, true_div. destruct (total =? 0); reflexivity.
Qed.

Lemma total_nonzero (items : list LessonContent.t) :
  items <> [] -> (Z.of_nat (length items) =? 0) = false.
Proof.
  intros H. destruct items; [congruence|]. apply Z.eqb_neq. simpl length. lia.
Qed.

(** The outcome of grading a lesson that exists and has items. *)
Lemma complete_lesson_graded (language lesson_id : string)
    (answers : list string) (now : Z) (user : User.t) (db : DB.t)
    (lesson : Lesson.t) :
  lesson_by_id (lessons_of language) lesson_id = Some lesson ->
  Lesson.content lesson <> [] ->
  let uid := User.id user in
  let correct := score_loop (Lesson.content lesson) 0 answers 0 in
  let total := Z.of_nat (length (Lesson.content lesson)) in
  let score_pct := score_percent correct total in
  let passed := 70 <=? score_pct in
  let base_xp :=
    if passed then Lesson.xp_reward lesson else Lesson.xp_reward lesson / 2 in
  let today := date_of now in
  let new_streak := fst (update_streak today user) in
  let streak_bonus := snd (update_streak today user) in
  let total_xp := base_xp + streak_bonus in
  let new_total_xp := User.xp user + total_xp in
  let new_level := new_total_xp / 100 + 1 in
  let hearts :=
    if negb passed then
      if 0 <? User.hearts user then Some (User.hearts user - 1) else None
    else None in
  let db1 :=
    DB.mk (DB.users db)
      (upsert (progress_key uid lesson_id)
         (Progress.mk uid lesson_id language passed score_pct now)
         (DB.lesson_progress db)) in
  let ids :=
    earned_ids (completed_count uid db1) new_streak new_total_xp new_level
      (score_pct =? 100) in
  complete_lesson language lesson_id answers now user db
  = (Return
       (QuizResult.mk correct total total_xp passed
          (if User.level user <? new_level then Some new_level else None)
          streak_bonus),
     DB.mk
       (update_first uid
          (fun u =>
             awards ids
               (User.set_progress new_total_xp new_level new_streak today
                  hearts u))
          (DB.users db))
       (DB.lesson_progress db1)).
Proof.
  intros Hfound Hitems. cbv zeta.
  unfold complete_lesson. rewrite Hfound.
  unfold bind at 1. rewrite percent_run, (total_nonzero Hitems).
  destruct (update_streak (date_of now) user) as [new_streak streak_bonus].
  unfold bind, users_update_one, lesson_progress_upsert. cbv beta iota.
  rewrite check_lesson_achievements_run, award_all_users.
  cbn [DB.users DB.lesson_progress fst snd].
  rewrite update_first_twice by reflexivity.
  reflexivity.
Qed.

(** *** The scoring loop counts the right answers *)

Lemma matching_pairs_nil_r (items : list LessonContent.t) :
  matching_pairs items [] = 0%nat.
Proof. destruct items; reflexivity. Qed.

Lemma skipn_nth_error {A} (l : list A) (i : nat) (x : A) :
  nth_error l i = Some x -> skipn i l = x :: skipn (S i) l.
Proof.
  revert i. induction l as [|a l IH]; intros [|i] H; simpl in *; try discriminate.
  - now injection H as ->.
  - now apply IH.
Qed.

Lemma score_loop_pairs (items : list LessonContent.t) (answers : list string) :
  forall i correct,
    score_loop items i answers correct
    = correct + Z.of_nat (matching_pairs (skipn i items) answers).
Proof.
  induction answers as [|answer rest IH]; intros i correct.
  - simpl. rewrite matching_pairs_nil_r. lia.
  - simpl score_loop. rewrite IH. unfold grade_answer.
    destruct (nth_error items i) as [item|] eqn:Hi.
    + assert (Hlt : (i < length items)%nat)
        by (apply nth_error_Some; congruence).
      apply Nat.ltb_lt in Hlt. rewrite Hlt.
      rewrite (skipn_nth_error _ _ Hi). simpl matching_pairs.
      unfold normalize.
      destruct (String.eqb _ _); lia.
    + apply nth_error_None in Hi.
      rewrite (skipn_all2 items) by lia.
      rewrite (skipn_all2 items (n := i)) by lia.
      destruct (i <? length items)%nat; simpl; lia.
Qed.

Lemma filter_map_length {A B} (f : B -> bool) (g : A -> B) (l : list A) :
  length (filter f (map g l)) = length (filter (fun x => f (g x)) l).
Proof.
  induction l as [|a l IH]; simpl; [reflexivity|].
  destruct (f (g a)); simpl; now rewrite IH.
Qed.

Lemma answer_matches_length (items : list LessonContent.t)
    (answers : list string) :
  length (filter (answer_matches items answers)
            (seq 0 (length items)))
  = matching_pairs items answers.
Proof.
  revert answers. induction items as [|item items IH]; intros answers.
  - reflexivity.
  - simpl length. rewrite <- seq_shift.
    destruct answers as [|answer answers].
    + simpl. rewrite filter_map_length.
      rewrite (filter_ext _ (fun _ => false)); [|reflexivity].
      generalize (seq 0 (length items)) as l. clear.
      induction l; simpl; auto.
    + simpl matching_pairs. rewrite <- (IH answers).
      change (answer_matches (item :: items)
                (answer :: answers) 0%nat)
        with (String.eqb (normalize answer)
                (normalize
                   (LessonContent.correct_answer item))).
      destruct (String.eqb _ _); simpl length;
        rewrite filter_map_length; reflexivity.
Qed.

(** The loop's count is the number of item indices with a right answer:
    answers past the last item are skipped, missing answers count for
    nothing. *)
Lemma score_loop_count_matching (items : list LessonContent.t)
    (answers : list string) :
  score_loop items 0 answers 0
  = count_matching items answers.
Proof.
  rewrite score_loop_pairs. unfold count_matching.
  now rewrite answer_matches_length.
Qed.

Lemma count_matching_bounds (items : list LessonContent.t)
    (answers : list string) :
  0 <= count_matching items answers
     <= Z.of_nat (length items).
Proof.
  unfold count_matching. split; [lia|].
  apply Nat2Z.inj_le.
  eapply Nat.le_trans; [apply filter_length_le|].
  rewrite length_seq. lia.
Qed.

(** *** The percentage *)

(** Below 50 items the float computation gives the integer quotient. *)
Lemma score_percent_floor_below_50 (correct total : Z) :
  0 < total < 50 -> 0 <= correct <= total ->
  score_percent correct total = correct * 100 / total.
Proof.
  intros Ht Hc.
  assert (Hall :
    forallb (fun t =>
      forallb (fun c =>
        score_percent (Z.of_nat c) (Z.of_nat t)
        =? Z.of_nat c * 100 / Z.of_nat t)
        (seq 0 (S t)))
      (seq 1 49) = true) by (vm_compute; reflexivity).
  rewrite forallb_forall in Hall.
  assert (Hin : In (Z.to_nat total) (seq 1 49)) by (apply in_seq; lia).
  specialize (Hall _ Hin). rewrite forallb_forall in Hall.
  specialize (Hall (Z.to_nat correct)).
  rewrite !Z2Nat.id in Hall by lia.
  apply Z.eqb_eq, Hall, in_seq. lia.
Qed.

Lemma find_upsert (sel : Progress.t -> bool) (doc : Progress.t)
    (ps : list Progress.t) :
  sel doc = true -> find sel (upsert sel doc ps) = Some doc.
Proof.
  intros Hdoc. induction ps as [|p ps IH]; simpl.
  - now rewrite Hdoc.
  - destruct (sel p) eqn:E; simpl; [now rewrite Hdoc | now rewrite E].
Qed.

Lemma progress_key_refl (uid lid language : string) (c : bool) (s t : Z) :
  progress_key uid lid (Progress.mk uid lid language c s t) = true.
Proof. unfold progress_key. simpl. now rewrite !String.eqb_refl. Qed.

(** For lessons with fewer than 50 items the scoring step of
    [complete_lesson] is the one of the specification: the count of right
    answers by index, the item count, the integer percentage and the 70
    percent pass mark. *)
Lemma scoring_below_50_items (language lesson_id : string)
    (answers : list string) (now : Z) (user : User.t) (db : DB.t)
    (lesson : Lesson.t) :
  lesson_by_id (lessons_of language) lesson_id = Some lesson ->
  Lesson.content lesson <> [] ->
  (length (Lesson.content lesson) < 50)%nat ->
  exists r db' p,
    complete_lesson language lesson_id answers now user db = (Return r, db')
    /\ QuizResult.correct r
       = count_matching (Lesson.content lesson) answers
    /\ QuizResult.total r = Z.of_nat (length (Lesson.content lesson))
    /\ progress_of (User.id user) lesson_id db' = Some p
    /\ Progress.score p = QuizResult.correct r * 100 / QuizResult.total r
    /\ QuizResult.passed r = (70 <=? Progress.score p).
Proof.
  intros Hfound Hitems Hlen.
  pose proof (complete_lesson_graded language lesson_id answers now user db
                Hfound Hitems) as Hrun.
  cbv zeta in Hrun. rewrite Hrun. clear Hrun.
  do 3 eexists. split; [reflexivity|].
  unfold progress_of. cbn [DB.lesson_progress QuizResult.correct
    QuizResult.total QuizResult.passed].
  rewrite find_upsert by apply progress_key_refl.
  rewrite score_loop_count_matching.
  pose proof (count_matching_bounds (Lesson.content lesson) answers) as Hb.
  repeat split; cbn [Progress.score].
  apply score_percent_floor_below_50; [|exact Hb].
  destruct (Lesson.content lesson); [congruence | simpl length in *; lia].
Qed.

(** ** The stored profile after a graded completion *)

Lemma user_of_update (uid : string) (f : User.t -> User.t)
    (us : list User.t) (ps : list Progress.t) (user : User.t) :
  (forall u, User.id (f u) = User.id u) ->
  first_user uid us = Some user ->
  user_of uid (DB.mk (update_first uid f us) ps) = Some (f user).
Proof.
  intros Hid Hu. unfold user_of. cbn [DB.users].
  rewrite first_user_update_same by exact Hid. now rewrite Hu.
Qed.

Lemma awards_streak (ids : list string) (u : User.t) :
  User.streak (awards ids u) = User.streak u.
Proof. apply awards_fields. Qed.

Lemma awards_xp (ids : list string) (u : User.t) :
  User.xp (awards ids u) = User.xp u.
Proof. apply awards_fields. Qed.

Lemma awards_level (ids : list string) (u : User.t) :
  User.level (awards ids u) = User.level u.
Proof. apply awards_fields. Qed.

Lemma awards_languages (ids : list string) (u : User.t) :
  User.languages_learning (awards ids u) = User.languages_learning u.
Proof. apply awards_fields. Qed.

(** Rewrites a graded call of [complete_lesson] to its outcome and names the
    stored profile. *)
Ltac graded answers now user db Hfound Hitems Huser :=
  let Hrun := fresh "Hrun" in
  pose proof (complete_lesson_graded _ _ answers now user db Hfound Hitems)
    as Hrun;
  cbv zeta in Hrun;
  do 3 eexists; split; [apply Hrun|]; clear Hrun;
  split;
  [ apply user_of_update;
    [ intros ?; rewrite awards_id; reflexivity | exact Huser ] |].

(** C2: the streak after a graded completion and the streak bonus depend on
    the stored profile only through the day difference between today and
    [last_practice_date]: no date gives streak 1 and no bonus; difference 0
    keeps the streak, no bonus; difference 1 adds one to the streak and the
    bonus is min(2 * new streak, 20); a larger difference resets the streak
    to 1, no bonus.  A bonus other than 0 only comes with difference 1. *)
Theorem streak_transition (language lesson_id : string)
    (answers : list string) (now : Z) (user : User.t) (db : DB.t)
    (lesson : Lesson.t) :
  lesson_by_id (lessons_of language) lesson_id = Some lesson ->
  Lesson.content lesson <> [] ->
  user_of (User.id user) db = Some user ->
  exists r db' user',
    complete_lesson language lesson_id answers now user db = (Return r, db')
    /\ user_of (User.id user) db' = Some user'
    /\ (User.last_practice_date user = None ->
        User.streak user' = 1 /\ QuizResult.streak_bonus r = 0)
    /\ (forall last, User.last_practice_date user = Some last ->
        (date_of now - last = 0 ->
         User.streak user' = User.streak user
         /\ QuizResult.streak_bonus r = 0)
        /\ (date_of now - last = 1 ->
            User.streak user' = User.streak user + 1
            /\ QuizResult.streak_bonus r = Z.min (User.streak user' * 2) 20)
        /\ (date_of now - last > 1 ->
            User.streak user' = 1 /\ QuizResult.streak_bonus r = 0))
    /\ (QuizResult.streak_bonus r <> 0 ->
        exists last,
          User.last_practice_date user = Some last
          /\ date_of now - last = 1).
Proof.
  intros Hfound Hitems Huser. graded answers now user db Hfound Hitems Huser.
  rewrite awards_streak. cbn [User.streak User.set_progress
    QuizResult.streak_bonus].
  unfold update_streak.
  destruct (User.last_practice_date user) as [last|].
  - split; [discriminate|]. split.
    + intros last' [= <-].
      destruct (date_of now - last =? 1) eqn:E1;
        [apply Z.eqb_eq in E1 | apply Z.eqb_neq in E1];
        (destruct (1 <? date_of now - last) eqn:E2;
          [apply Z.ltb_lt in E2 | apply Z.ltb_ge in E2]);
        cbn [fst snd]; repeat split; intros; try lia.
    + destruct (date_of now - last =? 1) eqn:E1.
      * apply Z.eqb_eq in E1. intros _. now exists last.
      * destruct (1 <? date_of now - last); cbn [snd]; intros H; now elim H.
  - cbn [fst snd]. split; [auto|]. split; [discriminate|].
    intros H; now elim H.
Qed.

(** C3: after a graded completion the stored profile has
    [level = xp // 100 + 1], and the result carries [new_level], equal to the
    stored level, exactly when that level is above the level stored before;
    otherwise [new_level] is absent. *)
Theorem level_after_completion (language lesson_id : string)
    (answers : list string) (now : Z) (user : User.t) (db : DB.t)
    (lesson : Lesson.t) :
  lesson_by_id (lessons_of language) lesson_id = Some lesson ->
  Lesson.content lesson <> [] ->
  user_of (User.id user) db = Some user ->
  exists r db' user',
    complete_lesson language lesson_id answers now user db = (Return r, db')
    /\ user_of (User.id user) db' = Some user'
    /\ User.level user' = User.xp user' / 100 + 1
    /\ QuizResult.new_level r
       = (if User.level user <? User.level user'
          then Some (User.level user') else None).
Proof.
  intros Hfound Hitems Huser. graded answers now user db Hfound Hitems Huser.
  rewrite awards_level, awards_xp. split; reflexivity.
Qed.

(** ** What a request does to the [users] collection *)

Lemma get_current_user_run (uid : string) (db : DB.t) :
  get_current_user uid db
  = match first_user uid (DB.users db) with
    | Some u => (Return u, db)
    | None => (Raise (HTTPException 401 "User not found"), db)
    end.
Proof.
  unfold get_current_user, bind, users_find_one.
  destruct (first_user uid (DB.users db)); reflexivity.
Qed.

Lemma start_language_run (code : string) (user : User.t) (db : DB.t)
    (lang : Language.t) :
  find (fun l => String.eqb (Language.code l) code) LANGUAGES = Some lang ->
  let languages :=
    if negb (str_in code (User.languages_learning user))
    then (User.languages_learning user ++ [code])%list
    else User.languages_learning user in
  let ids :=
    if 3 <=? Z.of_nat (length languages) then ["multi-language"] else [] in
  start_language code user db
  = (Return lang,
     DB.mk
       (update_first (User.id user)
          (fun u => awards ids (User.set_languages code languages u))
          (DB.users db))
       (DB.lesson_progress db)).
Proof.
  intros Hlang. cbv zeta. unfold start_language. rewrite Hlang.
  unfold bind, users_update_one. cbv beta iota.
  rewrite when_award, award_all_users. cbn [DB.users DB.lesson_progress].
  rewrite update_first_twice by reflexivity. reflexivity.
Qed.

Lemma profile_step_refl (u : User.t) : profile_step u u.
Proof. repeat split; auto using incl_refl; lia. Qed.

Lemma update_streak_nonneg (today : Z) (user : User.t) :
  0 <= User.streak user ->
  0 <= fst (update_streak today user) /\ 0 <= snd (update_streak today user).
Proof.
  intros H. unfold update_streak.
  destruct (User.last_practice_date user) as [last|]; [|simpl; lia].
  destruct (today - last =? 1); [simpl; lia|].
  destruct (1 <? today - last); simpl; lia.
Qed.

Lemma lesson_by_id_reward (language lesson_id : string) (lesson : Lesson.t) :
  nonnegative_rewards ->
  lesson_by_id (lessons_of language) lesson_id = Some lesson ->
  0 <= Lesson.xp_reward lesson.
Proof.
  intros Hr Hfound. apply find_some in Hfound as [Hin _].
  unfold lessons_of in Hin.
  destruct (SAMPLE_LESSONS language) as [lessons|] eqn:E; [|destruct Hin].
  exact (Hr _ _ _ E Hin).
Qed.

(** A request leaves the collection alone, appends a fresh document, or
    rewrites the first document of one user id. *)
Lemma serve_users (r : request) (db : DB.t) :
  DB.users (serve r db) = DB.users db
  \/ (exists u, DB.users (serve r db) = (DB.users db ++ [u])%list
                /\ fresh_profile u)
  \/ (exists uid user f,
        first_user uid (DB.users db) = Some user
        /\ (forall u, User.id (f u) = User.id u)
        /\ DB.users (serve r db) = update_first uid f (DB.users db)
        /\ profile_step user (f user)).
Proof.
  destruct r as [uid email name | uid code | uid language lesson_id answers now
                | uid name | uid]; unfold serve.
  - unfold register.
    destruct (find _ (DB.users db)); [now left|].
    right; left. eexists. split; [reflexivity|]. now repeat split.
  - unfold bind. rewrite get_current_user_run.
    destruct (first_user uid (DB.users db)) as [user|] eqn:Hu; [|now left].
    destruct (first_user_id _ _ Hu) as [Hid _].
    destruct (find (fun l => String.eqb (Language.code l) code) LANGUAGES)
      as [lang|] eqn:Hlang.
    + rewrite (start_language_run code user db Hlang). cbn [snd DB.users].
      right; right. rewrite Hid.
      eexists uid, user, _. split; [exact Hu|]. split; [|split; [reflexivity|]].
      * intros u. cbv beta. now rewrite awards_id.
      * cbv beta. set (u1 := User.set_languages code _ user).
        destruct (awards_fields
          (if 3 <=? Z.of_nat (length (User.languages_learning u1))
           then ["multi-language"] else []) u1) as (Hx & _ & Hs & _ & _ & Hl).
        repeat split.
        -- intros a Ha. now apply awards_keeps.
        -- intros Hnd. now apply awards_NoDup.
        -- subst u1. cbn [User.languages_learning User.set_languages] in *.
           now rewrite Hs.
        -- subst u1. cbn [User.languages_learning User.set_languages] in *.
           rewrite Hx. intros _ _. simpl. lia.
        -- subst u1. cbn [User.languages_learning User.set_languages] in *.
           intros _ H3. rewrite Hl in H3. cbn [User.languages_learning] in H3.
           apply Z.leb_le in H3. rewrite H3. apply awards_adds. now left.
    + unfold start_language. rewrite Hlang. now left.
  - unfold bind. rewrite get_current_user_run.
    destruct (first_user uid (DB.users db)) as [user|] eqn:Hu; [|now left].
    destruct (first_user_id _ _ Hu) as [Hid _].
    destruct (lesson_by_id (lessons_of language) lesson_id) as [lesson|]
      eqn:Hfound.
    + destruct (Lesson.content lesson) as [|item items] eqn:Hitems.
      * unfold complete_lesson. rewrite Hfound. unfold bind at 1.
        rewrite percent_run, Hitems. now left.
      * assert (Hne : Lesson.content lesson <> []) by congruence.
        pose proof (complete_lesson_graded _ _ answers now user db Hfound Hne)
          as Hrun.
        cbv zeta in Hrun. rewrite Hrun. clear Hrun. cbn [snd DB.users].
        right; right. rewrite Hid.
        eexists uid, user, _. split; [exact Hu|].
        split; [|split; [reflexivity|]].
        -- intros u. cbv beta. now rewrite awards_id.
        -- cbv beta.
           match goal with
           | |- profile_step _ (awards ?ids ?u1) =>
               destruct (awards_fields ids u1) as (Hx & _ & Hs & _ & _ & Hl)
           end.
           repeat split.
           ++ intros a Ha. now apply awards_keeps.
           ++ intros Hnd. now apply awards_NoDup.
           ++ rewrite Hs. cbn [User.streak User.set_progress].
              intros H. now apply update_streak_nonneg.
           ++ rewrite Hx. cbn [User.xp User.set_progress].
              intros Hr Hs0.
              pose proof (lesson_by_id_reward _ _ Hr Hfound) as Hreward.
              pose proof (update_streak_nonneg (date_of now) user Hs0)
                as [_ Hbonus].
              assert (0 <= Lesson.xp_reward lesson / 2)
                by (apply Z.div_pos; lia).
              destruct (70 <=? _); lia.
           ++ intros Hml H3. rewrite Hl in H3.
              cbn [User.languages_learning User.set_progress] in H3.
              apply awards_keeps. now apply Hml.
    + unfold complete_lesson. rewrite Hfound. now left.
  - unfold bind. rewrite get_current_user_run.
    destruct (first_user uid (DB.users db)) as [user|] eqn:Hu; [|now left].
    destruct (first_user_id _ _ Hu) as [Hid _].
    right; right. unfold update_profile, users_update_one. cbn [snd DB.users].
    rewrite Hid. eexists uid, user, _. split; [exact Hu|].
    split; [|split; [reflexivity|]]; [reflexivity|].
    exact (profile_step_refl user).
  - unfold bind. rewrite get_current_user_run.
    destruct (first_user uid (DB.users db)) as [user|] eqn:Hu; [|now left].
    destruct (first_user_id _ _ Hu) as [Hid _].
    right; right. unfold refill_hearts, users_update_one. cbn [snd DB.users].
    rewrite Hid. eexists uid, user, _. split; [exact Hu|].
    split; [|split; [reflexivity|]]; [reflexivity|].
    exact (profile_step_refl user).
Qed.

(** ** Invariants of the reachable databases *)

Lemma serve_Forall (P : User.t -> Prop) (r : request) (db : DB.t) :
  (forall u, fresh_profile u -> P u) ->
  (forall u u', profile_step u u' -> P u -> P u') ->
  Forall P (DB.users db) -> Forall P (DB.users (serve r db)).
Proof.
  intros Hfresh Hstep Hall.
  destruct (serve_users r db)
    as [-> | [(u & -> & Hu) | (uid & user & f & Hfirst & _ & -> & Hf)]].
  - exact Hall.
  - apply Forall_app. split; [exact Hall|]. constructor; auto.
  - apply Forall_update_first; [exact Hall|].
    intros u Hu. rewrite Hfirst in Hu. injection Hu as <-.
    now apply Hstep.
Qed.

Lemma reachable_Forall (P : User.t -> Prop) :
  (forall u, fresh_profile u -> P u) ->
  (forall u u', profile_step u u' -> P u -> P u') ->
  forall db, reachable db -> Forall P (DB.users db).
Proof.
  intros Hfresh Hstep db Hdb. induction Hdb as [|db r _ IH].
  - constructor.
  - now apply serve_Forall.
Qed.

Lemma streak_step (u u' : User.t) :
  profile_step u u' -> 0 <= User.streak u -> 0 <= User.streak u'.
Proof. intros (_ & _ & H & _). exact H. Qed.

Lemma streak_fresh (u : User.t) : fresh_profile u -> 0 <= User.streak u.
Proof. intros (_ & -> & _). lia. Qed.

Lemma NoDup_step (u u' : User.t) :
  profile_step u u' ->
  NoDup (User.achievements u) -> NoDup (User.achievements u').
Proof. intros (_ & H & _). exact H. Qed.

Lemma NoDup_fresh (u : User.t) :
  fresh_profile u -> NoDup (User.achievements u).
Proof. intros (_ & _ & -> & _). constructor. Qed.

Lemma polyglot_step (u u' : User.t) :
  profile_step u u' -> polyglot_awarded u -> polyglot_awarded u'.
Proof. intros (_ & _ & _ & _ & H). exact H. Qed.

Lemma polyglot_fresh (u : User.t) : fresh_profile u -> polyglot_awarded u.
Proof. intros (_ & _ & _ & Hl) H3. rewrite Hl in H3. simpl in H3. lia. Qed.

(** The profile of a user id across one request. *)
Lemma serve_user_of (r : request) (db : DB.t) (uid : string) :
  match user_of uid db with
  | Some u =>
      exists u', user_of uid (serve r db) = Some u'
                 /\ (u' = u \/ profile_step u u')
  | None =>
      user_of uid (serve r db) = None
      \/ exists u', user_of uid (serve r db) = Some u' /\ fresh_profile u'
  end.
Proof.
  unfold user_of.
  destruct (serve_users r db)
    as [-> | [(v & -> & Hv) | (uid0 & user & f & Hfirst & Hid & -> & Hf)]].
  - destruct (first_user uid (DB.users db)) as [u|]; eauto.
  - rewrite first_user_app.
    destruct (first_user uid (DB.users db)) as [u|]; [eauto|].
    simpl. destruct (String.eqb (User.id v) uid); eauto.
  - destruct (String.eqb uid uid0) eqn:E.
    + apply String.eqb_eq in E. subst uid0.
      rewrite first_user_update_same by exact Hid. rewrite Hfirst. simpl. eauto.
    + apply String.eqb_neq in E.
      rewrite first_user_update_other by assumption.
      destruct (first_user uid (DB.users db)) as [u|]; eauto.
Qed.

Lemma serve_xp_monotone (r : request) (db : DB.t) (uid : string) :
  nonnegative_rewards ->
  Forall (fun u => 0 <= User.streak u) (DB.users db) ->
  xp_of uid db <= xp_of uid (serve r db).
Proof.
  intros Hr Hall. unfold xp_of.
  pose proof (serve_user_of r db uid) as H.
  destruct (user_of uid db) as [u|] eqn:Hu.
  - destruct H as (u' & -> & [-> | Hstep]); [lia|].
    destruct Hstep as (_ & _ & _ & Hxp & _). apply Hxp; [exact Hr|].
    rewrite Forall_forall in Hall. apply Hall.
    now apply (first_user_id uid).
  - destruct H as [-> | (u' & -> & Hx & _)]; lia.
Qed.

Lemma serve_all_xp_monotone (rs : list request) (db : DB.t) (uid : string) :
  nonnegative_rewards ->
  Forall (fun u => 0 <= User.streak u) (DB.users db) ->
  xp_of uid db <= xp_of uid (serve_all rs db).
Proof.
  intros Hr. revert db. induction rs as [|r rs IH]; intros db Hall; simpl.
  - lia.
  - etransitivity; [apply (serve_xp_monotone r db uid Hr Hall)|].
    apply IH. apply serve_Forall;
      [exact streak_fresh | exact streak_step | exact Hall].
Qed.

Lemma serve_achievements_kept (r : request) (db : DB.t) (uid a : string) :
  In a (achievements_of uid db) -> In a (achievements_of uid (serve r db)).
Proof.
  unfold achievements_of.
  pose proof (serve_user_of r db uid) as H.
  destruct (user_of uid db) as [u|]; [|intros []].
  destruct H as (u' & -> & [-> | Hstep]); [auto|].
  destruct Hstep as (Hincl & _). apply Hincl.
Qed.

(** ** Experience points *)

(** C4: a graded completion earns the base award plus the streak bonus,
    where the base is the lesson reward when passed and [reward // 2]
    otherwise, and adds what it earns to the stored xp; hence, with a catalog
    of non-negative rewards, the xp of a user never decreases along any
    sequence of requests served from a reachable database. *)
Theorem xp_earned_and_monotone :
  (forall language lesson_id answers now user db lesson,
      lesson_by_id (lessons_of language) lesson_id = Some lesson ->
      Lesson.content lesson <> [] ->
      user_of (User.id user) db = Some user ->
      exists r db' user',
        complete_lesson language lesson_id answers now user db
        = (Return r, db')
        /\ user_of (User.id user) db' = Some user'
        /\ QuizResult.xp_earned r
           = (if QuizResult.passed r then Lesson.xp_reward lesson
              else Lesson.xp_reward lesson / 2)
             + QuizResult.streak_bonus r
        /\ User.xp user' = User.xp user + QuizResult.xp_earned r)
  /\ (nonnegative_rewards ->
      forall db, reachable db ->
      forall rs uid, xp_of uid db <= xp_of uid (serve_all rs db)).
Proof.
  split.
  - intros language lesson_id answers now user db lesson Hfound Hitems Huser.
    graded answers now user db Hfound Hitems Huser.
    rewrite awards_xp. split; reflexivity.
  - intros Hr db Hdb rs uid. apply serve_all_xp_monotone; [exact Hr|].
    apply reachable_Forall; [exact streak_fresh | exact streak_step | exact Hdb].
Qed.

(** ** Achievements earned by a completion *)

Lemma earned_ids_spec (c s x l : Z) (p : bool) :
  (c = 1 -> In "first-lesson" (earned_ids c s x l p))
  /\ (3 <= s -> In "streak-3" (earned_ids c s x l p))
  /\ (7 <= s -> In "streak-7" (earned_ids c s x l p))
  /\ (30 <= s -> In "streak-30" (earned_ids c s x l p))
  /\ (100 <= x -> In "xp-100" (earned_ids c s x l p))
  /\ (500 <= x -> In "xp-500" (earned_ids c s x l p))
  /\ (1000 <= x -> In "xp-1000" (earned_ids c s x l p))
  /\ (p = true -> In "perfect-lesson" (earned_ids c s x l p))
  /\ (5 <= l -> In "level-5" (earned_ids c s x l p))
  /\ (10 <= l -> In "level-10" (earned_ids c s x l p)).
Proof.
  unfold earned_ids.
  repeat split; intros H;
    [ apply Z.eqb_eq in H | apply Z.leb_le in H | apply Z.leb_le in H
    | apply Z.leb_le in H | apply Z.leb_le in H | apply Z.leb_le in H
    | apply Z.leb_le in H | idtac | apply Z.leb_le in H
    | apply Z.leb_le in H ];
    rewrite H; rewrite !in_app_iff; simpl; tauto.
Qed.

(** C5: after a graded completion served from a reachable database, every
    rule of the table whose trigger holds has its achievement in the stored
    set: first-lesson when the count of completed lessons is 1, streak-3, -7
    and -30 by the new streak, xp-100, -500 and -1000 by the new xp,
    perfect-lesson when the recorded score is 100, level-5 and -10 by the new
    level, and multi-language when three languages or more are in progress. *)
Theorem achievements_after_completion (language lesson_id : string)
    (answers : list string) (now : Z) (user : User.t) (db : DB.t)
    (lesson : Lesson.t) :
  reachable db ->
  lesson_by_id (lessons_of language) lesson_id = Some lesson ->
  Lesson.content lesson <> [] ->
  user_of (User.id user) db = Some user ->
  exists r db' user' p,
    complete_lesson language lesson_id answers now user db = (Return r, db')
    /\ user_of (User.id user) db' = Some user'
    /\ progress_of (User.id user) lesson_id db' = Some p
    /\ (completed_count (User.id user) db' = 1 ->
        In "first-lesson" (User.achievements user'))
    /\ (3 <= User.streak user' -> In "streak-3" (User.achievements user'))
    /\ (7 <= User.streak user' -> In "streak-7" (User.achievements user'))
    /\ (30 <= User.streak user' -> In "streak-30" (User.achievements user'))
    /\ (100 <= User.xp user' -> In "xp-100" (User.achievements user'))
    /\ (500 <= User.xp user' -> In "xp-500" (User.achievements user'))
    /\ (1000 <= User.xp user' -> In "xp-1000" (User.achievements user'))
    /\ (Progress.score p = 100 ->
        In "perfect-lesson" (User.achievements user'))
    /\ (5 <= User.level user' -> In "level-5" (User.achievements user'))
    /\ (10 <= User.level user' -> In "level-10" (User.achievements user'))
    /\ (3 <= Z.of_nat (length (User.languages_learning user')) ->
        In "multi-language" (User.achievements user')).
Proof.
  intros Hdb Hfound Hitems Huser.
  pose proof (complete_lesson_graded _ _ answers now user db Hfound Hitems)
    as Hrun.
  cbv zeta in Hrun.
  do 4 eexists. split; [apply Hrun|]. clear Hrun.
  split; [apply user_of_update;
          [intros ?; rewrite awards_id; reflexivity | exact Huser]|].
  split; [unfold progress_of; cbn [DB.lesson_progress];
          apply find_upsert, progress_key_refl|].
  rewrite awards_streak, awards_xp, awards_level, awards_languages.
  cbn [User.streak User.xp User.level User.languages_learning
       User.set_progress Progress.score].
  match goal with
  | |- context [awards (earned_ids ?c ?s ?x ?l ?p) _] =>
      destruct (earned_ids_spec c s x l p)
        as (H1 & H2 & H3 & H4 & H5 & H6 & H7 & H8 & H9 & H10)
  end.
  repeat split; intros H; try (apply awards_adds; auto; fail).
  - apply awards_adds. apply H8. now apply Z.eqb_eq.
  - apply awards_keeps. cbn [User.achievements User.set_progress].
    assert (Hall : Forall polyglot_awarded (DB.users db))
      by (apply reachable_Forall;
          [exact polyglot_fresh | exact polyglot_step | exact Hdb]).
    rewrite Forall_forall in Hall.
    apply (Hall user); [|exact H].
    now apply (first_user_id (User.id user)).
Qed.

(** ** Unknown lessons *)

(** C9: when the language is not in the catalog, or no lesson of the
    language has the requested id, [complete_lesson] raises 404 "Lesson not
    found" and the database (every profile and every completion record) is
    the one before the call. *)
Theorem unknown_lesson_not_found (language lesson_id : string)
    (answers : list string) (now : Z) (user : User.t) (db : DB.t) :
  SAMPLE_LESSONS language = None
  \/ (forall lesson, In lesson (lessons_of language) ->
                     Lesson.id lesson <> lesson_id) ->
  complete_lesson language lesson_id answers now user db
  = (Raise (HTTPException 404 "Lesson not found"), db)
  /\ forall uid,
       serve (CompleteLesson uid language lesson_id answers now) db = db.
Proof.
  intros H.
  assert (Hnone : lesson_by_id (lessons_of language) lesson_id = None).
  { unfold lesson_by_id.
    destruct (find _ (lessons_of language)) as [lesson|] eqn:E; [|reflexivity].
    apply find_some in E as [Hin Heq]. apply String.eqb_eq in Heq.
    destruct H as [H | H].
    - unfold lessons_of in Hin. rewrite H in Hin. destruct Hin.
    - now elim (H lesson Hin). }
  assert (Hrun : forall u,
    complete_lesson language lesson_id answers now u db
    = (Raise (HTTPException 404 "Lesson not found"), db)).
  { intros u. unfold complete_lesson. now rewrite Hnone. }
  split; [apply Hrun|].
  intros uid. unfold serve, bind. rewrite get_current_user_run.
  destruct (first_user uid (DB.users db)); [now rewrite Hrun | reflexivity].
Qed.

(** ** Idempotent unlocking *)

Lemma award_to_fixed (a : string) (u : User.t) :
  In a (User.achievements u) -> award_to a u = u.
Proof.
  intros H. apply str_in_In in H. unfold award_to. now rewrite H.
Qed.

Lemma awards_fixed (ids : list string) (u : User.t) :
  (forall a, In a ids -> In a (User.achievements u)) -> awards ids u = u.
Proof.
  induction ids as [|a ids IH]; intros H; [reflexivity|].
  change (awards (a :: ids) u) with (awards ids (award_to a u)).
  rewrite award_to_fixed by (apply H; now left).
  apply IH. intros b Hb. apply H. now right.
Qed.

Lemma awards_twice (ids : list string) (u : User.t) :
  awards ids (awards ids u) = awards ids u.
Proof. apply awards_fixed. intros a Ha. now apply awards_adds. Qed.

Lemma user_of_award_all (uid uid' : string) (ids : list string) (db : DB.t) :
  user_of uid' (award_all uid ids db)
  = if String.eqb uid' uid then option_map (awards ids) (user_of uid db)
    else user_of uid' db.
Proof.
  rewrite award_all_users. unfold user_of. cbn [DB.users].
  destruct (String.eqb uid' uid) eqn:E.
  - apply String.eqb_eq in E. subst uid'.
    apply first_user_update_same. intros u. apply awards_id.
  - apply String.eqb_neq in E.
    apply first_user_update_other; [intros u; apply awards_id | exact E].
Qed.

Lemma award_all_kept (uid uid' a : string) (ids : list string) (db : DB.t) :
  In a (achievements_of uid' db) ->
  In a (achievements_of uid' (award_all uid ids db)).
Proof.
  unfold achievements_of. rewrite user_of_award_all.
  destruct (String.eqb uid' uid) eqn:E; [|auto].
  apply String.eqb_eq in E. subst uid'.
  destruct (user_of uid db) as [u|]; simpl; [apply awards_keeps | auto].
Qed.

Lemma award_all_NoDup (uid uid' : string) (ids : list string) (db : DB.t) :
  NoDup (achievements_of uid' db) ->
  NoDup (achievements_of uid' (award_all uid ids db)).
Proof.
  unfold achievements_of. rewrite user_of_award_all.
  destruct (String.eqb uid' uid) eqn:E; [|auto].
  apply String.eqb_eq in E. subst uid'.
  destruct (user_of uid db) as [u|]; simpl; [apply awards_NoDup | auto].
Qed.

Lemma award_all_twice (uid : string) (ids : list string) (db : DB.t) :
  award_all uid ids (award_all uid ids db) = award_all uid ids db.
Proof.
  rewrite !award_all_users. cbn [DB.users DB.lesson_progress].
  rewrite update_first_twice by (intros u; apply awards_id).
  f_equal. apply update_first_ext. intros u _. apply awards_twice.
Qed.

Lemma award_as_award_all (uid a : string) (db : DB.t) :
  award uid a db = award_all uid [a] db.
Proof. reflexivity. Qed.

Lemma get_achievements_unlocked (a : string) (u : User.t) :
  In (a, true) (get_achievements u)
  <-> In a ACHIEVEMENTS /\ In a (User.achievements u).
Proof.
  unfold get_achievements. rewrite in_map_iff. split.
  - intros (x & Heq & Hin). injection Heq as -> Hx.
    split; [exact Hin | now apply str_in_In].
  - intros [Hin Hu]. exists a. split; [|exact Hin].
    f_equal. now apply str_in_In.
Qed.

(** C8: unlocking is idempotent.  Awarding an id the user already holds
    leaves the database as it is; awarding never duplicates an id, and no
    reachable profile holds an id twice; evaluating the rules again with the
    same metrics changes nothing, and evaluating them with any metrics, like
    serving any request, keeps every achievement a user holds, so an entry
    that [get_achievements] lists as unlocked stays unlocked. *)
Theorem achievement_unlocking_idempotent :
  (forall uid a db,
      In a (achievements_of uid db) ->
      check_and_award_achievement uid a db = (Return tt, db))
  /\ (forall uid a uid' db,
         NoDup (achievements_of uid' db) ->
         NoDup (achievements_of uid'
                  (snd (check_and_award_achievement uid a db))))
  /\ (forall db, reachable db -> forall uid, NoDup (achievements_of uid db))
  /\ (forall uid streak xp level perfect db,
         let db1 :=
           snd (check_lesson_achievements uid streak xp level perfect db) in
         check_lesson_achievements uid streak xp level perfect db1
         = (Return tt, db1))
  /\ (forall uid streak xp level perfect uid' a db,
         In a (achievements_of uid' db) ->
         In a (achievements_of uid'
                 (snd (check_lesson_achievements uid streak xp level perfect
                         db))))
  /\ (forall r db uid a,
         In a (achievements_of uid db) ->
         In a (achievements_of uid (serve r db)))
  /\ (forall r db uid u a,
         user_of uid db = Some u ->
         In (a, true) (get_achievements u) ->
         exists u',
           user_of uid (serve r db) = Some u'
           /\ In (a, true) (get_achievements u')).
Proof.
  split; [|split; [|split; [|split; [|split; [|split]]]]].
  - intros uid a db Hin. rewrite check_and_award_achievement_run. f_equal.
    unfold award. rewrite update_first_fixed; [apply DB_eta|].
    intros u Hu. apply award_to_fixed.
    unfold achievements_of, user_of in Hin. now rewrite Hu in Hin.
  - intros uid a uid' db Hnd. rewrite check_and_award_achievement_run.
    cbn [snd]. rewrite award_as_award_all. now apply award_all_NoDup.
  - intros db Hdb uid. unfold achievements_of.
    destruct (user_of uid db) as [u|] eqn:Hu; [|constructor].
    assert (Hall : Forall (fun u => NoDup (User.achievements u)) (DB.users db))
      by (apply reachable_Forall;
          [exact NoDup_fresh | exact NoDup_step | exact Hdb]).
    rewrite Forall_forall in Hall. apply Hall.
    now apply (first_user_id uid).
  - intros uid streak xp level perfect db db1. subst db1.
    rewrite !check_lesson_achievements_run. cbn [snd]. f_equal.
    assert (Hcount : forall ids,
      completed_count uid (award_all uid ids db) = completed_count uid db)
      by (intros ids; rewrite award_all_users; reflexivity).
    rewrite Hcount. apply award_all_twice.
  - intros uid streak xp level perfect uid' a db Hin.
    rewrite check_lesson_achievements_run. cbn [snd].
    now apply award_all_kept.
  - intros r db uid a. apply serve_achievements_kept.
  - intros r db uid u a Hu Hin.
    apply get_achievements_unlocked in Hin as [Htable Hheld].
    pose proof (serve_user_of r db uid) as H. rewrite Hu in H.
    destruct H as (u' & Hu' & Hstep). exists u'. split; [exact Hu'|].
    apply get_achievements_unlocked. split; [exact Htable|].
    destruct Hstep as [-> | (Hincl & _)]; [exact Hheld | now apply Hincl].
Qed.

(** ** The completion record *)

(** After a graded completion the record of the (user, lesson) pair carries
    the verdict and the percentage of this attempt, whatever was stored. *)
Lemma completion_record_overwritten (language lesson_id : string)
    (answers : list string) (now : Z) (user : User.t) (db : DB.t)
    (lesson : Lesson.t) :
  lesson_by_id (lessons_of language) lesson_id = Some lesson ->
  Lesson.content lesson <> [] ->
  exists r db' p,
    complete_lesson language lesson_id answers now user db = (Return r, db')
    /\ progress_of (User.id user) lesson_id db' = Some p
    /\ Progress.completed p = QuizResult.passed r
    /\ Progress.score p
       = score_percent (QuizResult.correct r) (QuizResult.total r)
    /\ QuizResult.passed r = (70 <=? Progress.score p).
Proof.
  intros Hfound Hitems.
  pose proof (complete_lesson_graded _ _ answers now user db Hfound Hitems)
    as Hrun.
  cbv zeta in Hrun.
  do 3 eexists. split; [apply Hrun|]. clear Hrun.
  split; [unfold progress_of; cbn [DB.lesson_progress];
          apply find_upsert, progress_key_refl|].
  repeat split.
Qed.

(** ** The lesson list *)

Lemma NoDup_map_eq {A B} (f : A -> B) (l : list A) (a b : A) :
  NoDup (map f l) -> In a l -> In b l -> f a = f b -> a = b.
Proof.
  induction l as [|x l IH]; simpl; intros Hnd Ha Hb Hf; [destruct Ha|].
  inversion Hnd as [|? ? Hx Hl]; subst.
  destruct Ha as [<-|Ha], Hb as [<-|Hb]; auto.
  - elim Hx. rewrite Hf. now apply in_map.
  - elim Hx. rewrite <- Hf. now apply in_map.
Qed.

Lemma records_of_NoDup (uid language : string) (db : DB.t) :
  unique_records db ->
  NoDup (map Progress.lesson_id (records_of uid language db)).
Proof.
  unfold unique_records, records_of.
  induction (DB.lesson_progress db) as [|p ps IH]; simpl; intros Hnd.
  - constructor.
  - inversion Hnd as [|? ? Hp Hps]; subst.
    destruct (String.eqb (Progress.user_id p) uid
              && String.eqb (Progress.language p) language) eqn:E; [|auto].
    simpl. constructor; [|auto].
    intros Hin. apply in_map_iff in Hin as (q & Hq & Hin).
    apply filter_In in Hin as [Hin Hsel].
    apply andb_prop in E as [Eu _]. apply andb_prop in Hsel as [Equ _].
    apply String.eqb_eq in Eu. apply String.eqb_eq in Equ.
    apply Hp. apply in_map_iff. exists q. split; [|exact Hin].
    now rewrite Hq, Eu, Equ.
Qed.

Lemma completed_of_true (docs : list Progress.t) (lid : string) :
  NoDup (map Progress.lesson_id docs) ->
  completed_of docs lid = true
  <-> exists p, In p docs /\ Progress.lesson_id p = lid
                /\ Progress.completed p = true.
Proof.
  intros Hnd. unfold completed_of, progress_map_get. split.
  - destruct (find _ (rev docs)) as [p|] eqn:E; [|discriminate].
    intros Hc. apply find_some in E as [Hin Heq].
    apply String.eqb_eq in Heq. apply in_rev in Hin. eauto.
  - intros (p & Hin & Hlid & Hc).
    destruct (find _ (rev docs)) as [q|] eqn:E.
    + apply find_some in E as [Hq Heq]. apply String.eqb_eq in Heq.
      apply in_rev in Hq.
      assert (q = p) by (apply (NoDup_map_eq _ _ _ _ Hnd Hq Hin); congruence).
      now subst q.
    + apply in_rev in Hin. apply (find_none _ _ E p) in Hin.
      rewrite Hlid, String.eqb_refl in Hin. discriminate.
Qed.

(** C6, amended: when the user has at most one record per lesson and at most
    100 records in the language (the listing reads no more), [get_lessons]
    marks every lesson of order 1 unlocked and a lesson of order k > 1
    unlocked exactly when some lesson of order k - 1 has a record with
    [completed == True]; so a lesson of order k > 1 is locked for a user who
    completed no lesson of order k - 1.  The database is not changed. *)
Theorem lesson_unlock_rule (language : string) (user : User.t) (db : DB.t) :
  unique_records db ->
  (length (records_of (User.id user) language db) <= 100)%nat ->
  exists out,
    get_lessons SAMPLE_LESSONS language user db = (Return out, db)
    /\ length out = length (lessons_of language)
    /\ forall i lesson,
         nth_error (lessons_of language) i = Some lesson ->
         exists d,
           nth_error out i = Some d
           /\ LessonData.id d = Lesson.id lesson
           /\ (Lesson.order lesson = 1 -> LessonData.locked d = false)
           /\ (1 < Lesson.order lesson ->
               (LessonData.locked d = false
                <-> exists prev,
                      In prev (lessons_of language)
                      /\ Lesson.order prev = Lesson.order lesson - 1
                      /\ completed_record (User.id user) language
                           (Lesson.id prev) db)
               /\ ((forall prev,
                      In prev (lessons_of language) ->
                      Lesson.order prev = Lesson.order lesson - 1 ->
                      ~ completed_record (User.id user) language
                          (Lesson.id prev) db) ->
                   LessonData.locked d = true)).
Proof.
  intros Huniq Hlen.
  pose proof (records_of_NoDup (User.id user) language Huniq) as Hnd.
  unfold get_lessons, bind, lesson_progress_find, ret.
  fold (records_of (User.id user) language db).
  rewrite firstn_all2 by exact Hlen.
  eexists. split; [reflexivity|]. split; [apply length_map|].
  intros i lesson Hi. eexists. split; [apply map_nth_error, Hi|].
  unfold lesson_data. cbn [LessonData.id LessonData.locked].
  split; [reflexivity|]. unfold lesson_locked. split.
  - intros H1. apply Z.eqb_eq in H1. now rewrite H1.
  - intros Hk.
    assert (E1 : (Lesson.order lesson =? 1) = false) by (apply Z.eqb_neq; lia).
    assert (E2 : (1 <? Lesson.order lesson) = true) by (now apply Z.ltb_lt).
    rewrite E1, E2.
    assert (Hany :
      existsb (completed_of (records_of (User.id user) language db))
        (map Lesson.id
           (filter (fun l => Lesson.order l =? Lesson.order lesson - 1)
              (lessons_of language))) = true
      <-> exists prev,
            In prev (lessons_of language)
            /\ Lesson.order prev = Lesson.order lesson - 1
            /\ completed_record (User.id user) language (Lesson.id prev) db).
    { rewrite existsb_exists. split.
      - intros (lid & Hin & Hc).
        apply in_map_iff in Hin as (prev & <- & Hin).
        apply filter_In in Hin as [Hin Ho]. apply Z.eqb_eq in Ho.
        exists prev. repeat split; auto.
        now apply (completed_of_true _ _ Hnd).
      - intros (prev & Hin & Ho & Hc).
        exists (Lesson.id prev). split.
        + apply in_map. apply filter_In. split; [exact Hin|].
          now apply Z.eqb_eq.
        + now apply (completed_of_true _ _ Hnd). }
    split.
    + rewrite negb_false_iff. exact Hany.
    + intros Hnone. rewrite negb_true_iff.
      destruct (existsb _ _) eqn:E; [|reflexivity].
      destruct (proj1 Hany eq_refl) as (prev & Hin & Ho & Hc).
      now elim (Hnone prev).
Qed.

(** ** Records stay unique *)

Lemma upsert_keys (uid lid : string) (doc : Progress.t)
    (ps : list Progress.t) (k : string * string) :
  In k (map (fun p => (Progress.user_id p, Progress.lesson_id p))
          (upsert (progress_key uid lid) doc ps)) ->
  k = (Progress.user_id doc, Progress.lesson_id doc)
  \/ In k (map (fun p => (Progress.user_id p, Progress.lesson_id p)) ps).
Proof.
  induction ps as [|p ps IH]; simpl.
  - intros [<-|[]]. now left.
  - destruct (progress_key uid lid p); simpl.
    + intros [<-|H]; auto.
    + intros [<-|H]; auto. destruct (IH H); auto.
Qed.

Lemma upsert_unique (uid lid : string) (doc : Progress.t)
    (ps : list Progress.t) :
  Progress.user_id doc = uid -> Progress.lesson_id doc = lid ->
  NoDup (map (fun p => (Progress.user_id p, Progress.lesson_id p)) ps) ->
  NoDup (map (fun p => (Progress.user_id p, Progress.lesson_id p))
           (upsert (progress_key uid lid) doc ps)).
Proof.
  intros Hu Hl. induction ps as [|p ps IH]; simpl; intros Hnd.
  - repeat constructor. intros [].
  - inversion Hnd as [|? ? Hp Hps]; subst.
    destruct (progress_key (Progress.user_id doc) (Progress.lesson_id doc) p)
      eqn:E; simpl.
    + apply andb_prop in E as [E1 E2].
      apply String.eqb_eq in E1. apply String.eqb_eq in E2.
      rewrite <- E1, <- E2. now constructor.
    + constructor; [|auto].
      intros Hin. apply upsert_keys in Hin as [Heq | Hin]; [|auto].
      injection Heq as E1 E2. unfold progress_key in E.
      rewrite E1, E2, !String.eqb_refl in E. discriminate.
Qed.

Lemma serve_unique_records (r : request) (db : DB.t) :
  unique_records db -> unique_records (serve r db).
Proof.
  intros Hu.
  destruct r as [uid email name | uid code | uid language lesson_id answers now
                | uid name | uid]; unfold serve.
  - unfold register. destruct (find _ (DB.users db)); exact Hu.
  - unfold bind. rewrite get_current_user_run.
    destruct (first_user uid (DB.users db)) as [user|]; [|exact Hu].
    destruct (find (fun l => String.eqb (Language.code l) code) LANGUAGES)
      as [lang|] eqn:Hlang.
    + rewrite (start_language_run code user db Hlang). exact Hu.
    + unfold start_language. rewrite Hlang. exact Hu.
  - unfold bind. rewrite get_current_user_run.
    destruct (first_user uid (DB.users db)) as [user|]; [|exact Hu].
    destruct (lesson_by_id (lessons_of language) lesson_id) as [lesson|]
      eqn:Hfound.
    + destruct (Lesson.content lesson) as [|item items] eqn:Hitems.
      * unfold complete_lesson. rewrite Hfound. unfold bind at 1.
        rewrite percent_run, Hitems. exact Hu.
      * assert (Hne : Lesson.content lesson <> []) by congruence.
        pose proof (complete_lesson_graded _ _ answers now user db Hfound Hne)
          as Hrun.
        cbv zeta in Hrun. rewrite Hrun. clear Hrun.
        unfold unique_records. cbn [snd DB.lesson_progress].
        now apply upsert_unique.
    + unfold complete_lesson. rewrite Hfound. exact Hu.
  - unfold bind. rewrite get_current_user_run.
    destruct (first_user uid (DB.users db)); exact Hu.
  - unfold bind. rewrite get_current_user_run.
    destruct (first_user uid (DB.users db)); exact Hu.
Qed.

Lemma reachable_unique_records (db : DB.t) :
  reachable db -> unique_records db.
Proof.
  induction 1 as [|db r _ IH]; [constructor | now apply serve_unique_records].
Qed.

(** ** Lessons without items *)

(** A lesson found in the catalog with no item makes the division raise,
    before anything is written. *)
Lemma empty_lesson_raises (language lesson_id : string)
    (answers : list string) (now : Z) (user : User.t) (db : DB.t)
    (lesson : Lesson.t) :
  lesson_by_id (lessons_of language) lesson_id = Some lesson ->
  Lesson.content lesson = [] ->
  complete_lesson language lesson_id answers now user db
  = (Raise ZeroDivisionError, db).
Proof.
  intros Hfound Hitems. unfold complete_lesson. rewrite Hfound.
  unfold bind at 1. rewrite percent_run, Hitems. reflexivity.
Qed.

Lemma reachable_serve_all (rs : list request) (db : DB.t) :
  reachable db -> reachable (serve_all rs db).
Proof.
  revert db. induction rs as [|r rs IH]; intros db Hdb; [exact Hdb|].
  apply IH. now apply reachable_serve.
Qed.

(** ** The effect of a request, case by case *)

(** A request leaves the database alone, or inserts the document of
    [register], or puts a changed profile in place of the requester's and
    leaves the completion records alone or upserts the requester's record of
    a catalog lesson. *)
Lemma serve_change (r : request) (db : DB.t) :
  serve r db = db
  \/ (exists uid email name,
        r = Register uid email name
        /\ find (fun u => String.eqb (User.email u) email) (DB.users db) = None
        /\ serve r db
           = DB.mk (DB.users db ++ [new_user uid email name])%list
               (DB.lesson_progress db))
  \/ (exists uid user user',
        requester r = uid
        /\ first_user uid (DB.users db) = Some user
        /\ profile_change SAMPLE_LESSONS user user'
        /\ DB.users (serve r db)
           = update_first uid (fun _ => user') (DB.users db)
        /\ (DB.lesson_progress (serve r db) = DB.lesson_progress db
            \/ exists language lesson_id lesson passed score now,
                 lesson_by_id (lessons_of language) lesson_id = Some lesson
                 /\ DB.lesson_progress (serve r db)
                    = upsert (progress_key uid lesson_id)
                        (Progress.mk uid lesson_id language passed score now)
                        (DB.lesson_progress db))).
Proof.
  destruct r as [uid email name | uid code | uid language lesson_id answers now
                | uid name | uid]; unfold serve.
  - unfold register.
    destruct (find _ (DB.users db)) eqn:E; [now left|].
    right; left. exists uid, email, name.
    split; [reflexivity|]. split; [exact E | reflexivity].
  - unfold bind. rewrite get_current_user_run.
    destruct (first_user uid (DB.users db)) as [user|] eqn:Hu; [|now left].
    destruct (first_user_id _ _ Hu) as [Hid _].
    destruct (find (fun l => String.eqb (Language.code l) code) LANGUAGES)
      as [lang|] eqn:Hlang.
    + rewrite (start_language_run code user db Hlang).
      cbn [snd DB.users DB.lesson_progress]. rewrite Hid.
      right; right. eexists uid, user, _. split; [reflexivity|].
      split; [exact Hu|]. split; [exact (change_language _ user code Hlang)|].
      split; [|now left].
      apply update_first_ext. intros u Hu'. rewrite Hu in Hu'.
      now injection Hu' as <-.
    + unfold start_language. rewrite Hlang. now left.
  - unfold bind. rewrite get_current_user_run.
    destruct (first_user uid (DB.users db)) as [user|] eqn:Hu; [|now left].
    destruct (first_user_id _ _ Hu) as [Hid _].
    destruct (lesson_by_id (lessons_of language) lesson_id) as [lesson|]
      eqn:Hfound.
    + destruct (Lesson.content lesson) as [|item items] eqn:Hitems.
      * left. now rewrite (empty_lesson_raises _ _ answers now user db Hfound Hitems).
      * assert (Hne : Lesson.content lesson <> []) by congruence.
        pose proof (complete_lesson_graded _ _ answers now user db Hfound Hne)
          as Hrun.
        cbv zeta in Hrun. rewrite Hrun. clear Hrun.
        cbn [snd DB.users DB.lesson_progress]. rewrite Hid.
        right; right. eexists uid, user, _. split; [reflexivity|].
        split; [exact Hu|].
        split; [|split].
        2: { apply update_first_ext. intros u Hu'. rewrite Hu in Hu'.
             injection Hu' as <-. reflexivity. }
        -- eapply (@change_graded SAMPLE_LESSONS user language lesson_id
                     lesson _ now _ Hfound).
        -- right. do 6 eexists. split; [exact Hfound | reflexivity].
    + left. unfold complete_lesson. now rewrite Hfound.
  - unfold bind. rewrite get_current_user_run.
    destruct (first_user uid (DB.users db)) as [user|] eqn:Hu; [|now left].
    destruct (first_user_id _ _ Hu) as [Hid _].
    right; right. unfold update_profile, users_update_one.
    cbn [snd DB.users DB.lesson_progress]. rewrite Hid.
    exists uid, user, (User.set_name name user). split; [reflexivity|].
    split; [exact Hu|]. split; [constructor|]. split; [|now left].
    apply update_first_ext. intros u Hu'. rewrite Hu in Hu'.
    now injection Hu' as <-.
  - unfold bind. rewrite get_current_user_run.
    destruct (first_user uid (DB.users db)) as [user|] eqn:Hu; [|now left].
    destruct (first_user_id _ _ Hu) as [Hid _].
    right; right. unfold refill_hearts, users_update_one.
    cbn [snd DB.users DB.lesson_progress]. rewrite Hid.
    exists uid, user, (User.set_hearts 5 user). split; [reflexivity|].
    split; [exact Hu|]. split; [constructor|]. split; [|now left].
    apply update_first_ext. intros u Hu'. rewrite Hu in Hu'.
    now injection Hu' as <-.
Qed.

(** ** Profiles of the reachable databases *)

Lemma update_first_const_Forall (P : User.t -> Prop) (uid : string)
    (user' : User.t) (us : list User.t) :
  Forall P us -> P user' -> Forall P (update_first uid (fun _ => user') us).
Proof.
  intros Hall Hu. apply Forall_update_first; auto.
Qed.

Lemma serve_profiles (P : User.t -> Prop) (r : request) (db : DB.t) :
  (forall uid email name, P (new_user uid email name)) ->
  (forall u u', profile_change SAMPLE_LESSONS u u' -> P u -> P u') ->
  Forall P (DB.users db) -> Forall P (DB.users (serve r db)).
Proof.
  intros Hnew Hstep Hall.
  destruct (serve_change r db)
    as [-> | [(uid & email & name & _ & _ & ->)
             | (uid & user & user' & _ & Hfirst & Hch & -> & _)]].
  - exact Hall.
  - apply Forall_app. split; [exact Hall|]. constructor; auto.
  - apply update_first_const_Forall; [exact Hall|].
    apply (Hstep user); [exact Hch|].
    rewrite Forall_forall in Hall. apply Hall.
    now apply (first_user_id uid).
Qed.

Lemma reachable_profiles (P : User.t -> Prop) :
  (forall uid email name, P (new_user uid email name)) ->
  (forall u u', profile_change SAMPLE_LESSONS u u' -> P u -> P u') ->
  forall db, reachable db -> Forall P (DB.users db).
Proof.
  intros Hnew Hstep db Hdb. induction Hdb as [|db r _ IH].
  - constructor.
  - now apply serve_profiles.
Qed.

Lemma reachable_profile (P : User.t -> Prop) :
  (forall uid email name, P (new_user uid email name)) ->
  (forall u u', profile_change SAMPLE_LESSONS u u' -> P u -> P u') ->
  forall db uid u, reachable db -> user_of uid db = Some u -> P u.
Proof.
  intros Hnew Hstep db uid u Hdb Hu.
  pose proof (reachable_profiles P Hnew Hstep Hdb) as Hall.
  rewrite Forall_forall in Hall. apply Hall.
  now apply (first_user_id uid).
Qed.

Lemma awards_hearts (ids : list string) (u : User.t) :
  User.hearts (awards ids u) = User.hearts u.
Proof. apply awards_fields. Qed.

Lemma awards_last_practice_date (ids : list string) (u : User.t) :
  User.last_practice_date (awards ids u) = User.last_practice_date u.
Proof. apply awards_fields. Qed.

(** ** Hearts *)

(** X1: a graded completion takes one heart when the submission failed and
    the profile had a heart left, and leaves the hearts alone otherwise. *)
Theorem hearts_after_completion (language lesson_id : string)
    (answers : list string) (now : Z) (user : User.t) (db : DB.t)
    (lesson : Lesson.t) :
  lesson_by_id (lessons_of language) lesson_id = Some lesson ->
  Lesson.content lesson <> [] ->
  user_of (User.id user) db = Some user ->
  exists r db' user',
    complete_lesson language lesson_id answers now user db = (Return r, db')
    /\ user_of (User.id user) db' = Some user'
    /\ (QuizResult.passed r = true -> User.hearts user' = User.hearts user)
    /\ (QuizResult.passed r = false -> 0 < User.hearts user ->
        User.hearts user' = User.hearts user - 1)
    /\ (QuizResult.passed r = false -> User.hearts user <= 0 ->
        User.hearts user' = User.hearts user).
Proof.
  intros Hfound Hitems Huser.
  graded answers now user db Hfound Hitems Huser.
  rewrite awards_hearts.
  cbn [User.hearts User.set_progress QuizResult.passed].
  repeat split; intros Hp; rewrite Hp; cbn [negb]; [reflexivity | |];
    intros Hh.
  - apply Z.ltb_lt in Hh. now rewrite Hh.
  - apply Z.ltb_ge in Hh. now rewrite Hh.
Qed.

(** X2: in every reachable database every profile has between 0 and 5
    hearts. *)
Theorem hearts_in_range (db : DB.t) (uid : string) (u : User.t) :
  reachable db -> user_of uid db = Some u -> 0 <= User.hearts u <= 5.
Proof.
  apply (reachable_profile (fun u => 0 <= User.hearts u <= 5)).
  - intros; simpl; lia.
  - intros v v' Hch Hv. destruct Hch; cbv zeta;
      rewrite ?awards_hearts; cbn [User.hearts User.set_languages
        User.set_progress User.set_name User.set_hearts]; try lia.
    destruct (negb (70 <=? score_pct)); [|lia].
    destruct (0 <? User.hearts v) eqn:E; [apply Z.ltb_lt in E|]; lia.
Qed.

(** ** Level, streak and last practice day *)

(** X3: in every reachable database every profile has
    [level = xp // 100 + 1]; with a catalog of non-negative rewards its xp is
    not negative and its level is at least 1. *)
Theorem level_matches_xp (db : DB.t) (uid : string) (u : User.t) :
  reachable db -> user_of uid db = Some u ->
  User.level u = User.xp u / 100 + 1
  /\ (nonnegative_rewards -> 0 <= User.xp u /\ 1 <= User.level u).
Proof.
  intros Hdb Hu.
  assert (Hlevel : User.level u = User.xp u / 100 + 1).
  { revert Hdb Hu.
    apply (reachable_profile (fun u => User.level u = User.xp u / 100 + 1)).
    - reflexivity.
    - intros v v' Hch Hv. destruct Hch; cbv zeta;
        rewrite ?awards_level, ?awards_xp; cbn [User.level User.xp
          User.set_languages User.set_progress User.set_name
          User.set_hearts]; auto. }
  split; [exact Hlevel|]. intros Hr.
  assert (Hxp : 0 <= User.xp u).
  { revert Hdb Hu.
    enough (forall db uid u, reachable db -> user_of uid db = Some u ->
              0 <= User.streak u /\ 0 <= User.xp u) as Hgen
      by (intros Hdb Hu; exact (proj2 (Hgen db uid u Hdb Hu))).
    clear db uid u Hlevel.
    apply (reachable_profile
             (fun u => 0 <= User.streak u /\ 0 <= User.xp u)).
    - simpl; lia.
    - intros v v' Hch [Hs Hx].
      destruct Hch as [? ? ? | ? ? lesson score_pct now ? Hfound | ? | ];
        cbv zeta;
        rewrite ?awards_streak, ?awards_xp; cbn [User.streak User.xp
          User.set_languages User.set_progress User.set_name
          User.set_hearts]; auto.
      pose proof (update_streak_nonneg (date_of now) v Hs) as [Hn Hb].
      pose proof (lesson_by_id_reward _ _ Hr Hfound) as Hreward.
      assert (0 <= Lesson.xp_reward lesson / 2) by (apply Z.div_pos; lia).
      split; [exact Hn|]. destruct (70 <=? score_pct); lia. }
  split; [exact Hxp|]. rewrite Hlevel.
  assert (0 <= User.xp u / 100) by (apply Z.div_pos; lia). lia.
Qed.

Lemma award_to_email (a : string) (u : User.t) :
  User.email (award_to a u) = User.email u.
Proof. unfold award_to. destruct (str_in a (User.achievements u)); reflexivity. Qed.

Lemma awards_email (ids : list string) (u : User.t) :
  User.email (awards ids u) = User.email u.
Proof.
  revert u. induction ids as [|a ids IH]; intros u; [reflexivity|].
  change (awards (a :: ids) u) with (awards ids (award_to a u)).
  rewrite IH. apply award_to_email.
Qed.

Lemma reachable_streak (db : DB.t) (uid : string) (u : User.t) :
  reachable db -> user_of uid db = Some u -> streak_consistent u.
Proof.
  apply (reachable_profile streak_consistent).
  - intros; left; split; reflexivity.
  - intros v v' Hch Hv.
    destruct Hch as [? ? ? | ? ? lesson score_pct now ? Hfound | ? | ];
      unfold streak_consistent in *; cbv zeta;
      rewrite ?awards_streak, ?awards_last_practice_date;
      cbn [User.streak User.last_practice_date User.set_languages
           User.set_progress User.set_name User.set_hearts]; auto.
    right. eexists. split; [reflexivity|].
    unfold update_streak.
    destruct Hv as [[-> _] | (d & -> & Hs)]; [simpl; lia|].
    destruct (date_of now - d =? 1); [simpl; lia|].
    destruct (1 <? date_of now - d); simpl; lia.
Qed.

(** X4: in every reachable database a profile has streak 0 exactly when it
    has no [last_practice_date], that is before its first graded completion;
    a profile that has practised has a streak of at least 1. *)
Theorem streak_zero_iff_never_practised (db : DB.t) (uid : string)
    (u : User.t) :
  reachable db -> user_of uid db = Some u ->
  (User.streak u = 0 <-> User.last_practice_date u = None)
  /\ (User.last_practice_date u <> None -> 1 <= User.streak u).
Proof.
  intros Hdb Hu.
  destruct (@reachable_streak db uid u Hdb Hu) as [[Hd Hs] | (d & Hd & Hs)];
    rewrite Hd; repeat split; intros; try congruence; lia.
Qed.

(** X5: a graded completion served from a reachable database stores today
    as the last practice day and a streak of at least 1, and its streak
    bonus lies between 0 and 20. *)
Theorem practice_day_and_bonus (language lesson_id : string)
    (answers : list string) (now : Z) (user : User.t) (db : DB.t)
    (lesson : Lesson.t) :
  reachable db ->
  lesson_by_id (lessons_of language) lesson_id = Some lesson ->
  Lesson.content lesson <> [] ->
  user_of (User.id user) db = Some user ->
  exists r db' user',
    complete_lesson language lesson_id answers now user db = (Return r, db')
    /\ user_of (User.id user) db' = Some user'
    /\ User.last_practice_date user' = Some (date_of now)
    /\ 1 <= User.streak user'
    /\ 0 <= QuizResult.streak_bonus r <= 20.
Proof.
  intros Hdb Hfound Hitems Huser.
  pose proof (@reachable_streak db (User.id user) user Hdb Huser) as Hs.
  graded answers now user db Hfound Hitems Huser.
  rewrite awards_streak, awards_last_practice_date.
  cbn [User.streak User.last_practice_date User.set_progress
       QuizResult.streak_bonus].
  split; [reflexivity|]. unfold update_streak.
  destruct Hs as [[-> _] | (d & -> & Hs)]; [simpl; lia|].
  destruct (date_of now - d =? 1); [simpl; lia|].
  destruct (1 <? date_of now - d); simpl; lia.
Qed.

(** ** One user's requests leave the others alone *)

Lemma profile_change_id (u u' : User.t) :
  profile_change SAMPLE_LESSONS u u' ->
  User.id u' = User.id u /\ User.email u' = User.email u.
Proof.
  intros Hch. destruct Hch; cbv zeta; rewrite ?awards_id;
    try (split; [reflexivity|]);
    try (rewrite awards_email); reflexivity.
Qed.

Lemma first_user_replace_other (uid uid' : string) (user' : User.t)
    (us : list User.t) :
  User.id user' = uid -> uid' <> uid ->
  first_user uid' (update_first uid (fun _ => user') us) = first_user uid' us.
Proof.
  intros Hid Hne. unfold first_user.
  induction us as [|u us IH]; simpl; [reflexivity|].
  destruct (String.eqb (User.id u) uid) eqn:E; simpl.
  - apply String.eqb_eq in E. rewrite Hid, E.
    assert (Hn : String.eqb uid uid' = false)
      by (apply String.eqb_neq; congruence).
    now rewrite Hn.
  - destruct (String.eqb (User.id u) uid'); [reflexivity | exact IH].
Qed.

Lemma filter_upsert_other (sel sel' : Progress.t -> bool) (doc : Progress.t)
    (ps : list Progress.t) :
  sel' doc = false ->
  (forall p, sel p = true -> sel' p = false) ->
  filter sel' (upsert sel doc ps) = filter sel' ps.
Proof.
  intros Hdoc Hsel. induction ps as [|p ps IH]; simpl.
  - now rewrite Hdoc.
  - destruct (sel p) eqn:E; simpl.
    + now rewrite Hdoc, (Hsel p E).
    + now rewrite IH.
Qed.

Lemma find_filter_head {A} (f : A -> bool) (l : list A) :
  find f l = hd_error (filter f l).
Proof.
  induction l as [|a l IH]; simpl; [reflexivity|].
  destruct (f a); [reflexivity | exact IH].
Qed.

(** X6: a request changes nothing of another user: for every user id other
    than the requester's, the stored profile, every completion record and
    the records of every language are the same before and after. *)
Theorem other_users_untouched (r : request) (db : DB.t) (uid' : string) :
  requester r <> uid' ->
  user_of uid' (serve r db) = user_of uid' db
  /\ (forall lesson_id,
        progress_of uid' lesson_id (serve r db)
        = progress_of uid' lesson_id db)
  /\ (forall language,
        records_of uid' language (serve r db)
        = records_of uid' language db).
Proof.
  intros Hne.
  destruct (serve_change r db)
    as [-> | [(uid & email & name & -> & _ & ->)
             | (uid & user & user' & <- & Hfirst & Hch & Husers & Hprog)]].
  - auto.
  - simpl in Hne. unfold user_of, progress_of, records_of.
    cbn [DB.users DB.lesson_progress]. split; [|auto].
    rewrite first_user_app. destruct (first_user uid' (DB.users db)); auto.
    unfold first_user. simpl.
    assert (Hn : String.eqb uid uid' = false) by now apply String.eqb_neq.
    now rewrite Hn.
  - destruct (@profile_change_id user user' Hch) as [Hid _].
    destruct (first_user_id _ _ Hfirst) as [Hid0 _].
    split.
    + unfold user_of. rewrite Husers.
      apply first_user_replace_other; congruence.
    + assert (Hfilter : forall sel',
        (forall p, sel' p = true -> Progress.user_id p = uid') ->
        filter sel' (DB.lesson_progress (serve r db))
        = filter sel' (DB.lesson_progress db)).
      { intros sel' Hsel'.
        destruct Hprog as [-> | (language & lesson_id & lesson & passed
                                 & score & now & _ & ->)]; [reflexivity|].
        apply filter_upsert_other.
        - destruct (sel' _) eqn:E; [|reflexivity].
          apply Hsel' in E. simpl in E. congruence.
        - intros p Hp. destruct (sel' p) eqn:E; [|reflexivity].
          apply Hsel' in E. apply andb_prop in Hp as [Hp _].
          apply String.eqb_eq in Hp. congruence. }
      split.
      * intros lesson_id. unfold progress_of.
        rewrite !find_filter_head. f_equal. apply Hfilter.
        intros p Hp. apply andb_prop in Hp as [Hp _].
        now apply String.eqb_eq in Hp.
      * intros language. unfold records_of. apply Hfilter.
        intros p Hp. apply andb_prop in Hp as [Hp _].
        now apply String.eqb_eq in Hp.
Qed.

(** ** Languages in progress *)

Lemma awards_current_language (ids : list string) (u : User.t) :
  User.current_language (awards ids u) = User.current_language u.
Proof.
  revert u. induction ids as [|a ids IH]; intros u; [reflexivity|].
  change (awards (a :: ids) u) with (awards ids (award_to a u)).
  rewrite IH. unfold award_to.
  destruct (str_in a (User.achievements u)); reflexivity.
Qed.

Lemma awards_achievements_inv (ids : list string) (a : string) (u : User.t) :
  In a (User.achievements (awards ids u)) ->
  In a ids \/ In a (User.achievements u).
Proof.
  revert u. induction ids as [|b ids IH]; intros u H; [now right|].
  change (awards (b :: ids) u) with (awards ids (award_to b u)) in H.
  apply IH in H as [H | H]; [left; now right|].
  unfold award_to in H. destruct (str_in b (User.achievements u)); [now right|].
  simpl in H. apply in_app_or in H as [H | [<- | []]]; [now right|].
  left. now left.
Qed.

Lemma known_language_code (code : string) (lang : Language.t) :
  find (fun l => String.eqb (Language.code l) code) LANGUAGES = Some lang ->
  Language.code lang = code /\ In code language_codes.
Proof.
  intros H. apply find_some in H as [Hin Heq]. apply String.eqb_eq in Heq.
  split; [exact Heq|]. rewrite <- Heq. now apply in_map.
Qed.

(** X7: [start_language] with a code of [LANGUAGES] returns that language,
    makes it the current language and puts it among the languages in
    progress, once: a language already in progress leaves the list as it is,
    a new one is appended; xp, level, streak, hearts and the completion
    records are not touched.  With any other code it raises 404 and changes
    nothing. *)
Theorem start_language_effect (code : string) (user : User.t) (db : DB.t) :
  user_of (User.id user) db = Some user ->
  (forall lang,
      find (fun l => String.eqb (Language.code l) code) LANGUAGES = Some lang ->
      exists db' user',
        start_language code user db = (Return lang, db')
        /\ Language.code lang = code
        /\ user_of (User.id user) db' = Some user'
        /\ User.current_language user' = Some code
        /\ In code (User.languages_learning user')
        /\ (In code (User.languages_learning user) ->
            User.languages_learning user' = User.languages_learning user)
        /\ (~ In code (User.languages_learning user) ->
            User.languages_learning user'
            = (User.languages_learning user ++ [code])%list)
        /\ User.xp user' = User.xp user
        /\ User.level user' = User.level user
        /\ User.streak user' = User.streak user
        /\ User.hearts user' = User.hearts user
        /\ DB.lesson_progress db' = DB.lesson_progress db)
  /\ (find (fun l => String.eqb (Language.code l) code) LANGUAGES = None ->
      start_language code user db
      = (Raise (HTTPException 404 "Language not found"), db)).
Proof.
  intros Huser. split.
  - intros lang Hlang.
    pose proof (start_language_run code user db Hlang) as Hrun.
    cbv zeta in Hrun. rewrite Hrun. clear Hrun.
    do 2 eexists. split; [reflexivity|].
    split; [apply (known_language_code code), Hlang|].
    split; [apply user_of_update;
            [intros ?; rewrite awards_id; reflexivity | exact Huser]|].
    rewrite awards_current_language, awards_languages, awards_xp,
      awards_level, awards_streak, awards_hearts.
    cbn [User.current_language User.languages_learning User.xp User.level
         User.streak User.hearts User.set_languages DB.lesson_progress].
    split; [reflexivity|].
    destruct (str_in code (User.languages_learning user)) eqn:E; cbn [negb].
    + apply str_in_In in E. repeat split; auto. intros Hn. now elim Hn.
    + assert (Hn : ~ In code (User.languages_learning user)).
      { intros Hin. apply str_in_In in Hin. congruence. }
      repeat split; auto.
      * apply in_or_app. right. now left.
      * intros Hin. now elim Hn.
  - intros Hnone. unfold start_language. now rewrite Hnone.
Qed.

Lemma reachable_languages (db : DB.t) (uid : string) (u : User.t) :
  reachable db -> user_of uid db = Some u -> languages_consistent u.
Proof.
  apply (reachable_profile languages_consistent).
  - intros. repeat split; simpl; [constructor | intros ? [] | discriminate].
  - intros v v' Hch (Hnd & Hincl & Hcur).
    destruct Hch as [code lang Hlang | ? ? ? ? ? ? ? | ? | ];
      unfold languages_consistent; cbv zeta;
      rewrite ?awards_languages, ?awards_current_language;
      cbn [User.languages_learning User.current_language User.set_languages
           User.set_progress User.set_name User.set_hearts]; auto.
    destruct (known_language_code code Hlang) as [_ Hcode].
    destruct (str_in code (User.languages_learning v)) eqn:E; cbn [negb].
    + apply str_in_In in E. repeat split; auto. now intros c [= <-].
    + assert (Hn : ~ In code (User.languages_learning v)).
      { intros Hin. apply str_in_In in Hin. congruence. }
      repeat split.
      * apply NoDup_app; [exact Hnd | repeat constructor; intros [] |].
        intros x Hx [<- | []]. now elim Hn.
      * intros c Hc. apply in_app_or in Hc as [Hc | [<- | []]]; auto.
      * intros c [= <-]. apply in_or_app. right. now left.
Qed.

(** X8: in every reachable database the languages in progress of a profile
    are distinct codes of [LANGUAGES], so there are at most 10, and the
    current language, when there is one, is among them. *)
Theorem languages_in_progress_wellformed (db : DB.t) (uid : string)
    (u : User.t) :
  reachable db -> user_of uid db = Some u ->
  NoDup (User.languages_learning u)
  /\ (forall c, In c (User.languages_learning u) ->
                exists lang, In lang LANGUAGES /\ Language.code lang = c)
  /\ (length (User.languages_learning u) <= 10)%nat
  /\ (forall c, User.current_language u = Some c ->
                In c (User.languages_learning u)).
Proof.
  intros Hdb Hu.
  destruct (@reachable_languages db uid u Hdb Hu) as (Hnd & Hincl & Hcur).
  split; [exact Hnd|]. split; [|split; [|exact Hcur]].
  - intros c Hc. apply Hincl in Hc. unfold language_codes in Hc.
    apply in_map_iff in Hc as (lang & Heq & Hin). eauto.
  - change 10%nat with (length language_codes).
    now apply NoDup_incl_length.
Qed.

(** ** Which achievements a profile can hold *)

(** Splits a membership in [earned_ids] into the rule that gave the id. *)
Ltac earned_cases H :=
  unfold earned_ids in H;
  repeat (apply in_app_or in H; destruct H as [H | H]);
  match type of H with
  | In _ (if ?c then _ else _) =>
      let E := fresh "E" in
      destruct c eqn:E; [destruct H as [<- | []] | destruct H]
  end.

Lemma earned_ids_sound (c s x l : Z) (p : bool) (a : string) :
  In a (earned_ids c s x l p) ->
  In a ACHIEVEMENTS
  /\ a <> "multi-language"
  /\ (a = "xp-100" -> 100 <= x)
  /\ (a = "xp-500" -> 500 <= x)
  /\ (a = "xp-1000" -> 1000 <= x)
  /\ (a = "level-5" -> 5 <= l)
  /\ (a = "level-10" -> 10 <= l).
Proof.
  intros H. earned_cases H;
    (split; [simpl; tauto|]); (split; [discriminate|]);
    repeat split; intros Heq; try discriminate Heq;
    now apply Z.leb_le.
Qed.

Lemma reachable_polyglot (db : DB.t) (uid : string) (u : User.t) :
  reachable db -> user_of uid db = Some u ->
  In "multi-language" (User.achievements u)
  <-> 3 <= Z.of_nat (length (User.languages_learning u)).
Proof.
  apply (reachable_profile
           (fun u => In "multi-language" (User.achievements u)
                     <-> 3 <= Z.of_nat (length (User.languages_learning u)))).
  - intros. simpl. split; [intros [] | lia].
  - intros v v' Hch Hv.
    destruct Hch as [code lang Hlang | ? ? ? ? ? ? ? | ? | ]; cbv zeta;
      rewrite ?awards_languages;
      cbn [User.languages_learning User.achievements User.set_languages
           User.set_progress User.set_name User.set_hearts]; auto.
    + match goal with
      | |- context [awards (if ?c then _ else _) ?u1] =>
          destruct c eqn:E
      end.
      * apply Z.leb_le in E. split; [auto|]. intros _.
        apply awards_adds. now left.
      * apply Z.leb_gt in E. split; [|lia].
        intros H. apply awards_achievements_inv in H as [[] | H].
        cbn [User.achievements User.set_languages] in H.
        apply Hv in H.
        destruct (negb (str_in code (User.languages_learning v)));
          [rewrite length_app in E; simpl in E|]; lia.
    + rewrite <- Hv. split; [|intros Hin; apply awards_keeps; exact Hin].
      intros Hin.
      apply awards_achievements_inv in Hin as [Hin | Hin]; [|exact Hin].
      apply earned_ids_sound in Hin as (_ & Hne & _). now elim Hne.
Qed.

(** X9: in every reachable database a profile holds "multi-language"
    exactly when it has three languages or more in progress. *)
Theorem polyglot_iff_three_languages (db : DB.t) (uid : string) (u : User.t) :
  reachable db -> user_of uid db = Some u ->
  (In "multi-language" (User.achievements u)
   <-> (3 <= length (User.languages_learning u))%nat).
Proof.
  intros Hdb Hu. rewrite (@reachable_polyglot db uid u Hdb Hu). lia.
Qed.

Lemma ACHIEVEMENTS_NoDup : NoDup ACHIEVEMENTS.
Proof.
  unfold ACHIEVEMENTS.
  repeat (constructor; [simpl; intuition discriminate|]). constructor.
Qed.

Lemma reachable_achievements (db : DB.t) (uid : string) (u : User.t) :
  reachable db -> user_of uid db = Some u ->
  incl (User.achievements u) ACHIEVEMENTS /\ NoDup (User.achievements u).
Proof.
  apply (reachable_profile
           (fun u => incl (User.achievements u) ACHIEVEMENTS
                     /\ NoDup (User.achievements u))).
  - intros. simpl. split; [intros ? [] | constructor].
  - intros v v' Hch [Hincl Hnd].
    destruct Hch as [code lang Hlang | ? ? ? ? ? ? ? | ? | ]; cbv zeta;
      cbn [User.achievements User.set_name User.set_hearts]; auto;
      (split; [|now apply awards_NoDup]);
      intros a Ha; apply awards_achievements_inv in Ha as [Ha | Ha]; auto.
    + destruct (3 <=? _); [destruct Ha as [<- | []] | destruct Ha].
      simpl. tauto.
    + now apply earned_ids_sound in Ha.
Qed.

(** X10: in every reachable database the achievements of a profile are
    distinct ids of the [ACHIEVEMENTS] table, at most 11; [get_achievements]
    lists the table in order, and the number of entries it marks unlocked is
    the number of achievements the profile holds. *)
Theorem achievements_listing (db : DB.t) (uid : string) (u : User.t) :
  reachable db -> user_of uid db = Some u ->
  incl (User.achievements u) ACHIEVEMENTS
  /\ (length (User.achievements u) <= 11)%nat
  /\ map fst (get_achievements u) = ACHIEVEMENTS
  /\ length (filter snd (get_achievements u)) = length (User.achievements u).
Proof.
  intros Hdb Hu.
  destruct (@reachable_achievements db uid u Hdb Hu) as [Hincl Hnd].
  split; [exact Hincl|]. split; [|split].
  - change 11%nat with (length ACHIEVEMENTS). now apply NoDup_incl_length.
  - reflexivity.
  - unfold get_achievements. rewrite filter_map_length. cbn [snd].
    apply Nat.le_antisymm.
    + apply NoDup_incl_length.
      * apply NoDup_filter, ACHIEVEMENTS_NoDup.
      * intros a Ha. apply filter_In in Ha as [_ Ha]. now apply str_in_In.
    + apply NoDup_incl_length; [exact Hnd|].
      intros a Ha. apply filter_In. split; [now apply Hincl|].
      now apply str_in_In.
Qed.

Lemma reachable_metrics (db : DB.t) (uid : string) (u : User.t) :
  nonnegative_rewards ->
  reachable db -> user_of uid db = Some u ->
  0 <= User.streak u /\ User.level u = User.xp u / 100 + 1
  /\ metrics_backed u.
Proof.
  intros Hr.
  apply (reachable_profile
           (fun u => 0 <= User.streak u
                     /\ User.level u = User.xp u / 100 + 1
                     /\ metrics_backed u)).
  - intros. unfold metrics_backed. simpl. repeat split; try lia; intros [].
  - intros v v' Hch (Hs & Hl & Hm).
    destruct Hch as [code lang Hlang | ? ? lesson score_pct now count Hfound
                    | ? | ]; cbv zeta; unfold metrics_backed in *;
      rewrite ?awards_streak, ?awards_xp, ?awards_level;
      cbn [User.streak User.xp User.level User.achievements
           User.set_languages User.set_progress User.set_name
           User.set_hearts]; auto.
    + split; [exact Hs|]. split; [exact Hl|].
      destruct Hm as (H1 & H2 & H3 & H4 & H5).
      repeat split; intros H;
        apply awards_achievements_inv in H as [H | H]; auto;
        (destruct (3 <=? _); [destruct H as [H | []]; discriminate H
                             | destruct H]).
    + pose proof (update_streak_nonneg (date_of now) v Hs) as [Hn Hb].
      pose proof (lesson_by_id_reward _ _ Hr Hfound) as Hreward.
      assert (Hhalf : 0 <= Lesson.xp_reward lesson / 2)
        by (apply Z.div_pos; lia).
      set (earned := (if 70 <=? score_pct then Lesson.xp_reward lesson
                      else Lesson.xp_reward lesson / 2)
                     + snd (update_streak (date_of now) v)).
      assert (Hearned : 0 <= earned)
        by (unfold earned; destruct (70 <=? score_pct); lia).
      assert (Hmono : User.xp v / 100 <= (User.xp v + earned) / 100)
        by (apply Z.div_le_mono; lia).
      split; [exact Hn|]. split; [reflexivity|].
      destruct Hm as (H1 & H2 & H3 & H4 & H5).
      repeat split; intros H;
        apply awards_achievements_inv in H as [H | H];
        try (apply earned_ids_sound in H as (_ & _ & E1 & E2 & E3 & E4 & E5);
             auto; fail);
        cbn [User.achievements User.set_progress] in H;
        [ apply H1 in H | apply H2 in H | apply H3 in H | apply H4 in H
        | apply H5 in H ]; lia.
Qed.

(** X11: with a catalog of non-negative rewards, in every reachable
    database a profile that holds xp-100, xp-500 or xp-1000 has at least
    that much xp, and one that holds level-5 or level-10 has at least that
    level. *)
Theorem metric_achievements_backed (db : DB.t) (uid : string) (u : User.t) :
  nonnegative_rewards ->
  reachable db -> user_of uid db = Some u ->
  (In "xp-100" (User.achievements u) -> 100 <= User.xp u)
  /\ (In "xp-500" (User.achievements u) -> 500 <= User.xp u)
  /\ (In "xp-1000" (User.achievements u) -> 1000 <= User.xp u)
  /\ (In "level-5" (User.achievements u) -> 5 <= User.level u)
  /\ (In "level-10" (User.achievements u) -> 10 <= User.level u).
Proof.
  intros Hr Hdb Hu. apply (@reachable_metrics db uid u Hr Hdb Hu).
Qed.

(** ** Registration *)

(** X12: [register] with an email some profile already has raises 400 and
    changes nothing; with an unused email it returns and stores a profile
    with xp 0, level 1, streak 0 and 5 hearts, keeps every profile that was
    stored, and, when the new id was unused, requests under that id are
    served with the new profile. *)
Theorem register_effect (user_id email name : string) (db : DB.t) :
  ((exists u, In u (DB.users db) /\ User.email u = email) ->
   register user_id email name db
   = (Raise (HTTPException 400 "Email already registered"), db))
  /\ ((forall u, In u (DB.users db) -> User.email u <> email) ->
      exists db',
        register user_id email name db
        = (Return (new_user user_id email name), db')
        /\ DB.lesson_progress db' = DB.lesson_progress db
        /\ (forall uid u, user_of uid db = Some u -> user_of uid db' = Some u)
        /\ (user_of user_id db = None ->
            get_current_user user_id db'
            = (Return (new_user user_id email name), db'))).
Proof.
  unfold register. split.
  - intros (u & Hin & Hmail).
    destruct (find _ (DB.users db)) eqn:E; [reflexivity|].
    apply (find_none _ _ E) in Hin. rewrite Hmail, String.eqb_refl in Hin.
    discriminate.
  - intros Hfree.
    destruct (find _ (DB.users db)) as [u|] eqn:E.
    + apply find_some in E as [Hin Heq]. apply String.eqb_eq in Heq.
      now elim (Hfree u Hin).
    + eexists. split; [reflexivity|]. split; [reflexivity|].
      unfold user_of. cbn [DB.users]. split.
      * intros uid u Hu. now rewrite first_user_app, Hu.
      * intros Hnone. rewrite get_current_user_run. cbn [DB.users].
        rewrite first_user_app, Hnone. unfold first_user. simpl.
        now rewrite String.eqb_refl.
Qed.

Lemma map_update_first_const {B} (g : User.t -> B) (uid : string)
    (user user' : User.t) (us : list User.t) :
  first_user uid us = Some user -> g user' = g user ->
  map g (update_first uid (fun _ => user') us) = map g us.
Proof.
  unfold first_user. induction us as [|u us IH]; simpl; [reflexivity|].
  destruct (String.eqb (User.id u) uid).
  - intros [= ->] Hg. simpl. now rewrite Hg.
  - intros Hu Hg. simpl. now rewrite IH.
Qed.

(** X13: in every reachable database no two profiles share an email. *)
Theorem emails_unique (db : DB.t) :
  reachable db -> NoDup (map User.email (DB.users db)).
Proof.
  induction 1 as [|db r _ IH]; [constructor|].
  destruct (serve_change r db)
    as [-> | [(uid & email & name & _ & Hfree & ->)
             | (uid & user & user' & _ & Hfirst & Hch & -> & _)]].
  - exact IH.
  - cbn [DB.users]. rewrite map_app. simpl.
    apply NoDup_app; [exact IH | repeat constructor; intros [] |].
    intros e He [<- | []]. apply in_map_iff in He as (u & Hu & Hin).
    apply (find_none _ _ Hfree) in Hin.
    rewrite Hu, String.eqb_refl in Hin. discriminate.
  - rewrite (@map_update_first_const _ User.email uid user user' _ Hfirst);
      [exact IH|].
    apply (@profile_change_id user user' Hch).
Qed.

(** ** Completion records *)

Lemma Forall_upsert (P : Progress.t -> Prop) (sel : Progress.t -> bool)
    (doc : Progress.t) (ps : list Progress.t) :
  P doc -> Forall P ps -> Forall P (upsert sel doc ps).
Proof.
  intros Hdoc. induction 1 as [|p ps Hp Hps IH]; simpl.
  - now constructor.
  - destruct (sel p); now constructor.
Qed.

Lemma reachable_records_in_catalog (db : DB.t) :
  reachable db ->
  Forall (fun p =>
            exists lesson,
              lesson_by_id (lessons_of (Progress.language p))
                (Progress.lesson_id p) = Some lesson)
    (DB.lesson_progress db).
Proof.
  induction 1 as [|db r _ IH]; [constructor|].
  destruct (serve_change r db)
    as [-> | [(uid & email & name & _ & _ & ->)
             | (uid & user & user' & _ & _ & _ & _ & Hprog)]];
    [exact IH | exact IH |].
  destruct Hprog as [-> | (language & lesson_id & lesson & passed & score
                           & now & Hfound & ->)]; [exact IH|].
  apply Forall_upsert; [|exact IH]. now exists lesson.
Qed.

Lemma records_bounded_by_catalog_aux (db : DB.t) (uid language : string) :
  reachable db ->
  (length (records_of uid language db) <= length (lessons_of language))%nat.
Proof.
  intros Hdb.
  pose proof (@reachable_records_in_catalog db Hdb) as Hcat.
  rewrite Forall_forall in Hcat.
  pose proof (@records_of_NoDup uid language db
                (@reachable_unique_records db Hdb)) as Hnd.
  rewrite <- (length_map Progress.lesson_id),
    <- (length_map Lesson.id (lessons_of language)).
  apply NoDup_incl_length; [exact Hnd|].
  intros lid Hlid. apply in_map_iff in Hlid as (p & <- & Hp).
  apply filter_In in Hp as [Hp Hsel]. apply andb_prop in Hsel as [_ Hlang].
  apply String.eqb_eq in Hlang.
  destruct (Hcat p Hp) as (lesson & Hfound).
  apply find_some in Hfound as [Hl Heq]. apply String.eqb_eq in Heq.
  rewrite Hlang in Hl. rewrite <- Heq. now apply in_map.
Qed.

(** X14: in every reachable database each completion record is for a
    lesson of the catalog in the language of the record, a user has one
    record per lesson at most, and so has no more records in a language
    than the language has lessons. *)
Theorem records_bounded_by_catalog (db : DB.t) (uid language : string) :
  reachable db ->
  (forall p, In p (DB.lesson_progress db) ->
             exists lesson,
               In lesson (lessons_of (Progress.language p))
               /\ Lesson.id lesson = Progress.lesson_id p)
  /\ NoDup (map Progress.lesson_id (records_of uid language db))
  /\ (length (records_of uid language db)
      <= length (lessons_of language))%nat.
Proof.
  intros Hdb.
  pose proof (@reachable_records_in_catalog db Hdb) as Hcat.
  rewrite Forall_forall in Hcat.
  assert (Hin : forall p, In p (DB.lesson_progress db) ->
                 exists lesson,
                   In lesson (lessons_of (Progress.language p))
                   /\ Lesson.id lesson = Progress.lesson_id p).
  { intros p Hp. destruct (Hcat p Hp) as (lesson & Hfound).
    apply find_some in Hfound as [Hl Heq]. apply String.eqb_eq in Heq.
    now exists lesson. }
  pose proof (@records_of_NoDup uid language db
                (@reachable_unique_records db Hdb)) as Hnd.
  split; [exact Hin|]. split; [exact Hnd|].
  rewrite <- (length_map Progress.lesson_id),
    <- (length_map Lesson.id (lessons_of language)).
  apply NoDup_incl_length; [exact Hnd|].
  intros lid Hlid. apply in_map_iff in Hlid as (p & <- & Hp).
  apply filter_In in Hp as [Hp Hsel]. apply andb_prop in Hsel as [_ Hlang].
  apply String.eqb_eq in Hlang.
  destruct (Hin p Hp) as (lesson & Hl & Heq).
  rewrite Hlang in Hl. rewrite <- Heq. now apply in_map.
Qed.

Lemma In_upsert (sel : Progress.t -> bool) (doc : Progress.t)
    (ps : list Progress.t) :
  In doc (upsert sel doc ps).
Proof.
  induction ps as [|p ps IH]; simpl; [now left|].
  destruct (sel p); [now left | now right].
Qed.

Lemma filter_upsert_length (sel sel' : Progress.t -> bool) (doc : Progress.t)
    (ps : list Progress.t) :
  (length (filter sel' (upsert sel doc ps)) <= S (length (filter sel' ps)))%nat.
Proof.
  induction ps as [|p ps IH]; simpl.
  - destruct (sel' doc); simpl; lia.
  - destruct (sel p); simpl.
    + destruct (sel' doc), (sel' p); simpl; lia.
    + destruct (sel' p); simpl; lia.
Qed.

(** X15: after a graded completion, [get_lessons] for the same language
    lists the lesson with [completed] equal to the verdict and [score] equal
    to the percentage of that submission (given one record per lesson and
    fewer than 100 records of the user in the language before the call). *)
Theorem listing_shows_latest_attempt (language lesson_id : string)
    (answers : list string) (now : Z) (user : User.t) (db : DB.t)
    (lesson : Lesson.t) :
  lesson_by_id (lessons_of language) lesson_id = Some lesson ->
  Lesson.content lesson <> [] ->
  unique_records db ->
  (length (records_of (User.id user) language db) < 100)%nat ->
  exists r db' out,
    complete_lesson language lesson_id answers now user db = (Return r, db')
    /\ get_lessons SAMPLE_LESSONS language user db' = (Return out, db')
    /\ forall i l,
         nth_error (lessons_of language) i = Some l ->
         Lesson.id l = lesson_id ->
         exists d,
           nth_error out i = Some d
           /\ LessonData.id d = lesson_id
           /\ LessonData.completed d = QuizResult.passed r
           /\ LessonData.score d
              = score_percent (QuizResult.correct r) (QuizResult.total r).
Proof.
  intros Hfound Hitems Huniq Hlen.
  pose proof (complete_lesson_graded _ _ answers now user db Hfound Hitems)
    as Hrun.
  cbv zeta in Hrun.
  match type of Hrun with
  | _ = (Return ?res, ?db1) => set (r := res) in *; set (db' := db1) in *
  end.
  exists r, db'.
  assert (Huniq' : unique_records db')
    by (unfold unique_records, db'; cbn [DB.lesson_progress];
        now apply upsert_unique).
  pose proof (@records_of_NoDup (User.id user) language db' Huniq') as Hnd.
  set (doc := Progress.mk (User.id user) lesson_id language
                (QuizResult.passed r)
                (score_percent (QuizResult.correct r) (QuizResult.total r))
                now).
  assert (Hdoc : In doc (records_of (User.id user) language db')).
  { unfold records_of, db'. cbn [DB.lesson_progress].
    apply filter_In. split; [apply In_upsert|].
    unfold doc. simpl. now rewrite !String.eqb_refl. }
  assert (Hlen' : (length (records_of (User.id user) language db') <= 100)%nat).
  { unfold records_of, db' in *. cbn [DB.lesson_progress].
    eapply Nat.le_trans; [apply filter_upsert_length|]. lia. }
  unfold get_lessons, bind, lesson_progress_find, ret.
  fold (records_of (User.id user) language db').
  rewrite firstn_all2 by exact Hlen'.
  eexists. split; [exact Hrun|]. split; [reflexivity|].
  intros i l Hi Hid. eexists. split; [apply map_nth_error, Hi|].
  unfold lesson_data. cbn [LessonData.id LessonData.completed LessonData.score].
  split; [exact Hid|].
  assert (Hget : progress_map_get (records_of (User.id user) language db')
                   (Lesson.id l) = Some doc).
  { unfold progress_map_get.
    destruct (find _ (rev (records_of (User.id user) language db')))
      as [q|] eqn:E.
    - apply find_some in E as [Hq Heq]. apply String.eqb_eq in Heq.
      apply in_rev in Hq. f_equal.
      apply (NoDup_map_eq _ _ _ _ Hnd Hq Hdoc). now rewrite Heq, Hid.
    - apply in_rev in Hdoc. apply (find_none _ _ E) in Hdoc.
      unfold doc in Hdoc. simpl in Hdoc.
      rewrite Hid, String.eqb_refl in Hdoc. discriminate. }
  unfold completed_of, score_of. rewrite Hget. split; reflexivity.
Qed.

(** ** Grading thresholds and surplus answers *)

Lemma percent_thresholds (correct total : Z) :
  0 < total -> 0 <= correct <= total ->
  0 <= correct * 100 / total <= 100
  /\ (correct * 100 / total = 100 <-> correct = total)
  /\ (70 <= correct * 100 / total <-> 7 * total <= 10 * correct).
Proof.
  intros Ht Hc.
  pose proof (Z.div_mod (correct * 100) total ltac:(lia)) as Hdm.
  pose proof (Z.mod_pos_bound (correct * 100) total Ht) as Hm.
  set (q := correct * 100 / total) in *.
  set (m := (correct * 100) mod total) in *.
  repeat split; intros; nia.
Qed.

(** X16: for a lesson with fewer than 50 items, the recorded score lies
    between 0 and 100, it is 100 exactly when every item was answered right,
    and the submission passes exactly when at least 70 percent of the items
    were answered right (7 * total <= 10 * correct). *)
Theorem grading_thresholds (language lesson_id : string)
    (answers : list string) (now : Z) (user : User.t) (db : DB.t)
    (lesson : Lesson.t) :
  lesson_by_id (lessons_of language) lesson_id = Some lesson ->
  Lesson.content lesson <> [] ->
  (length (Lesson.content lesson) < 50)%nat ->
  exists r db' p,
    complete_lesson language lesson_id answers now user db = (Return r, db')
    /\ progress_of (User.id user) lesson_id db' = Some p
    /\ 0 <= QuizResult.correct r <= QuizResult.total r
    /\ 0 <= Progress.score p <= 100
    /\ (Progress.score p = 100 <-> QuizResult.correct r = QuizResult.total r)
    /\ (QuizResult.passed r = true
        <-> 7 * QuizResult.total r <= 10 * QuizResult.correct r).
Proof.
  intros Hfound Hitems Hlen.
  pose proof (complete_lesson_graded language lesson_id answers now user db
                Hfound Hitems) as Hrun.
  cbv zeta in Hrun. rewrite Hrun. clear Hrun.
  do 3 eexists. split; [reflexivity|].
  unfold progress_of. cbn [DB.lesson_progress QuizResult.correct
    QuizResult.total QuizResult.passed].
  rewrite find_upsert by apply progress_key_refl.
  split; [reflexivity|]. cbn [Progress.score].
  rewrite score_loop_count_matching.
  pose proof (count_matching_bounds (Lesson.content lesson) answers) as Hb.
  assert (Ht : 0 < Z.of_nat (length (Lesson.content lesson)) < 50)
    by (destruct (Lesson.content lesson); [congruence | simpl length in *; lia]).
  rewrite (score_percent_floor_below_50 Ht Hb).
  destruct (percent_thresholds (proj1 Ht) Hb) as (Hrange & Hperfect & Hpass).
  split; [exact Hb|]. split; [exact Hrange|]. split; [exact Hperfect|].
  rewrite Z.leb_le. exact Hpass.
Qed.

Lemma answer_matches_firstn (items : list LessonContent.t)
    (answers : list string) (i : nat) :
  (i < length items)%nat ->
  answer_matches items (firstn (length items) answers) i
  = answer_matches items answers i.
Proof.
  intros Hi. unfold answer_matches.
  now rewrite nth_error_firstn, (proj2 (Nat.ltb_lt _ _) Hi).
Qed.

Lemma score_loop_firstn (items : list LessonContent.t)
    (answers : list string) :
  score_loop items 0 (firstn (length items) answers) 0
  = score_loop items 0 answers 0.
Proof.
  rewrite !score_loop_count_matching. unfold count_matching. do 2 f_equal.
  apply filter_ext_in. intros i Hi. apply in_seq in Hi.
  apply answer_matches_firstn. lia.
Qed.

(** X17: answers past the last item of the lesson are never looked at:
    [complete_lesson] gives the same outcome and the same database for a
    submission and for its first [len(content)] answers. *)
Theorem surplus_answers_ignored (language lesson_id : string)
    (answers : list string) (now : Z) (user : User.t) (db : DB.t)
    (lesson : Lesson.t) :
  lesson_by_id (lessons_of language) lesson_id = Some lesson ->
  complete_lesson language lesson_id
    (firstn (length (Lesson.content lesson)) answers) now user db
  = complete_lesson language lesson_id answers now user db.
Proof.
  intros Hfound.
  destruct (Lesson.content lesson) as [|item items] eqn:Hitems.
  - now rewrite !(empty_lesson_raises _ _ _ now user db Hfound Hitems).
  - assert (Hne : Lesson.content lesson <> []) by congruence.
    rewrite <- Hitems.
    rewrite (complete_lesson_graded language lesson_id
               (firstn (length (Lesson.content lesson)) answers) now user db
               Hfound Hne).
    rewrite (complete_lesson_graded language lesson_id answers now user db
               Hfound Hne).
    cbv zeta. now rewrite score_loop_firstn.
Qed.

(** ** Lesson detail *)

Lemma find_exists {A} (f : A -> bool) (l : list A) (x : A) :
  In x l -> f x = true -> exists y, find f l = Some y.
Proof.
  intros Hin Hx. destruct (find f l) as [y|] eqn:E; [eauto|].
  apply (find_none _ _ E) in Hin. congruence.
Qed.

(** X18: the lesson endpoints agree.  Every entry that [get_lessons] lists
    can be fetched with [get_lesson_detail], which returns a lesson of that
    id and leaves the database alone; a lesson that [get_lesson_detail]
    returns has the requested id and is listed with its title, order and
    reward; and [get_lesson_detail] raises 404 exactly when
    [complete_lesson] does. *)
Theorem lesson_detail_agrees (language : string) (user : User.t) (db : DB.t) :
  exists out,
    get_lessons SAMPLE_LESSONS language user db = (Return out, db)
    /\ (forall d, In d out ->
          exists lesson,
            get_lesson_detail SAMPLE_LESSONS language (LessonData.id d) user db
            = (Return lesson, db)
            /\ Lesson.id lesson = LessonData.id d)
    /\ (forall lesson_id lesson,
          get_lesson_detail SAMPLE_LESSONS language lesson_id user db
          = (Return lesson, db) ->
          Lesson.id lesson = lesson_id
          /\ exists d,
               In d out
               /\ LessonData.id d = lesson_id
               /\ LessonData.title d = Lesson.title lesson
               /\ LessonData.order d = Lesson.order lesson
               /\ LessonData.xp_reward d = Lesson.xp_reward lesson)
    /\ (forall lesson_id answers now,
          get_lesson_detail SAMPLE_LESSONS language lesson_id user db
          = (Raise (HTTPException 404 "Lesson not found"), db)
          <-> complete_lesson language lesson_id answers now user db
              = (Raise (HTTPException 404 "Lesson not found"), db)).
Proof.
  unfold get_lessons, bind, lesson_progress_find, ret.
  eexists. split; [reflexivity|]. split; [|split].
  - intros d Hd. apply in_map_iff in Hd as (l & <- & Hl).
    destruct (@find_exists _ (fun x => String.eqb (Lesson.id x) (Lesson.id l))
                (lessons_of language) l Hl (String.eqb_refl _))
      as (lesson & Hfound).
    exists lesson. unfold get_lesson_detail, lesson_by_id.
    cbn [LessonData.id lesson_data]. rewrite Hfound.
    split; [reflexivity|].
    apply find_some in Hfound as [_ Heq]. now apply String.eqb_eq in Heq.
  - intros lesson_id lesson. unfold get_lesson_detail, lesson_by_id.
    destruct (find _ (lessons_of language)) as [l|] eqn:E;
      [|discriminate].
    intros [= ->]. apply find_some in E as [Hin Heq].
    apply String.eqb_eq in Heq. split; [exact Heq|].
    eexists. split; [apply in_map, Hin|]. now repeat split.
  - intros lesson_id answers now. unfold get_lesson_detail.
    destruct (lesson_by_id (lessons_of language) lesson_id) as [lesson|]
      eqn:Hfound.
    + split; [discriminate|].
      destruct (Lesson.content lesson) as [|item items] eqn:Hitems.
      * rewrite (empty_lesson_raises _ _ answers now user db Hfound Hitems).
        discriminate.
      * assert (Hne : Lesson.content lesson <> []) by congruence.
        rewrite (complete_lesson_graded _ _ answers now user db Hfound Hne).
        discriminate.
    + split; [|reflexivity]. intros _.
      unfold complete_lesson. now rewrite Hfound.
Qed.

(** ** Language overview *)

(** The entry of one language, as a function of the database. *)
Lemma progress_pct_run (n_docs n_lessons : Z) (db : DB.t) :
  0 <= n_lessons ->
  progress_pct n_docs n_lessons db
  = (Return (if n_lessons =? 0 then 0
             else score_percent n_docs n_lessons), db).
Proof.
  intros Hn. unfold progress_pct.
  destruct (n_lessons =? 0) eqn:E; [reflexivity|].
  apply Z.eqb_neq in E. unfold bind, true_div.
  rewrite Z.max_l by lia.
  destruct (n_lessons =? 0) eqn:E'; [apply Z.eqb_eq in E'; lia|].
  reflexivity.
Qed.

Lemma get_languages_loop_run (user : User.t) (db : DB.t)
    (langs : list Language.t) :
  forall result,
    get_languages_loop SAMPLE_LESSONS user langs result db
    = (Return
         (result
          ++ map (fun lang =>
                    let n := Z.of_nat (length (lessons_of (Language.code lang))) in
                    LanguageInfo.mk (Language.code lang) (Language.name lang) n
                      (if n =? 0 then 0
                       else score_percent
                              (Z.of_nat
                                 (length
                                    (firstn 100
                                       (filter
                                          (completed_in (User.id user)
                                             (Language.code lang))
                                          (DB.lesson_progress db)))))
                              n))
              langs)%list,
       db).
Proof.
  induction langs as [|lang rest IH]; intros result.
  - simpl. now rewrite app_nil_r.
  - cbn [get_languages_loop]. unfold bind at 1. unfold lesson_progress_find.
    unfold bind at 1. rewrite progress_pct_run by lia.
    rewrite IH. cbn [map]. now rewrite <- app_assoc.
Qed.

(** X19: [get_languages] never raises and never writes: for every database
    it returns one entry per language of [LANGUAGES], in that order, with the
    number of lessons of the language; a language without lessons is
    reported with progress 0 instead of dividing by zero. *)
Theorem get_languages_total (user : User.t) (db : DB.t) :
  exists out,
    get_languages SAMPLE_LESSONS user db = (Return out, db)
    /\ map LanguageInfo.code out = map Language.code LANGUAGES
    /\ map LanguageInfo.name out = map Language.name LANGUAGES
    /\ map LanguageInfo.lessons_count out
       = map (fun lang => Z.of_nat (length (lessons_of (Language.code lang))))
           LANGUAGES
    /\ forall info,
         In info out -> LanguageInfo.lessons_count info = 0 ->
         LanguageInfo.progress info = 0.
Proof.
  unfold get_languages. rewrite get_languages_loop_run. cbn [app].
  eexists. split; [reflexivity|].
  rewrite !map_map. cbv zeta. cbn [LanguageInfo.code LanguageInfo.name
    LanguageInfo.lessons_count].
  repeat split.
  intros info Hin. apply in_map_iff in Hin as (lang & <- & _).
  cbn [LanguageInfo.lessons_count LanguageInfo.progress].
  intros ->. reflexivity.
Qed.

Lemma completed_le_records (uid code : string) (db : DB.t) :
  (length (filter (completed_in uid code) (DB.lesson_progress db))
   <= length (records_of uid code db))%nat.
Proof.
  unfold records_of, completed_in.
  induction (DB.lesson_progress db) as [|p ps IH]; simpl; [lia|].
  destruct (String.eqb (Progress.user_id p) uid
            && String.eqb (Progress.language p) code); simpl;
    [destruct (Bool.eqb (Progress.completed p) true); simpl; lia | exact IH].
Qed.

(** X20: on a reachable database, for a catalog with fewer than 50 lessons
    per language, the progress that [get_languages] reports for a language
    with lessons is [completed * 100 // lessons], where [completed] counts
    the user's completed lessons of the language; it lies between 0 and 100
    and is 100 exactly when every lesson of the language is completed. *)
Theorem get_languages_progress (user : User.t) (db : DB.t) :
  reachable db ->
  (forall code, (length (lessons_of code) < 50)%nat) ->
  exists out,
    get_languages SAMPLE_LESSONS user db = (Return out, db)
    /\ forall i lang,
         nth_error LANGUAGES i = Some lang ->
         exists info,
           nth_error out i = Some info
           /\ LanguageInfo.code info = Language.code lang
           /\ 0 <= LanguageInfo.progress info <= 100
           /\ (0 < LanguageInfo.lessons_count info ->
               LanguageInfo.progress info
               = completed_lessons (User.id user) (Language.code lang) db
                 * 100 / LanguageInfo.lessons_count info
               /\ (LanguageInfo.progress info = 100
                   <-> completed_lessons (User.id user) (Language.code lang)
                         db
                       = LanguageInfo.lessons_count info)).
Proof.
  intros Hdb Hsmall.
  unfold get_languages. rewrite get_languages_loop_run. cbn [app].
  eexists. split; [reflexivity|].
  intros i lang Hi. eexists. split; [apply map_nth_error, Hi|].
  cbv zeta. cbn [LanguageInfo.code LanguageInfo.progress
    LanguageInfo.lessons_count].
  split; [reflexivity|].
  set (code := Language.code lang).
  pose proof (Hsmall code) as Hlen.
  pose proof (completed_le_records (User.id user) code db) as Hle.
  pose proof (@records_bounded_by_catalog_aux db (User.id user) code Hdb)
    as Hbound.
  assert (Hall : firstn 100 (filter (completed_in (User.id user) code)
                               (DB.lesson_progress db))
                 = filter (completed_in (User.id user) code)
                     (DB.lesson_progress db))
    by (apply firstn_all2; lia).
  rewrite Hall. fold (completed_lessons (User.id user) code db).
  unfold completed_lessons in *.
  set (c := Z.of_nat (length (filter (completed_in (User.id user) code)
                                (DB.lesson_progress db)))) in *.
  set (n := Z.of_nat (length (lessons_of code))) in *.
  destruct (n =? 0) eqn:E; [apply Z.eqb_eq in E; split; lia|].
  apply Z.eqb_neq in E.
  assert (Hn : 0 < n < 50) by (unfold n; lia).
  assert (Hc : 0 <= c <= n) by (unfold c, n; lia).
  rewrite (score_percent_floor_below_50 Hn Hc).
  destruct (percent_thresholds (proj1 Hn) Hc) as (Hrange & Hfull & _).
  split; [exact Hrange|]. intros _. split; [reflexivity | exact Hfull].
Qed.

(** ** Leaderboard *)

Lemma insert_by_xp_perm (u : User.t) (l : list User.t) :
  Permutation (insert_by_xp u l) (u :: l).
Proof.
  induction l as [|v l IH]; simpl; [reflexivity|].
  destruct (User.xp v <=? User.xp u); [reflexivity|].
  rewrite IH. apply perm_swap.
Qed.

Lemma sort_by_xp_perm (us : list User.t) : Permutation (sort_by_xp us) us.
Proof.
  induction us as [|u us IH]; simpl; [reflexivity|].
  rewrite insert_by_xp_perm. now constructor.
Qed.

Lemma insert_by_xp_sorted (u : User.t) (l : list User.t) :
  StronglySorted (fun a b => User.xp b <= User.xp a) l ->
  StronglySorted (fun a b => User.xp b <= User.xp a) (insert_by_xp u l).
Proof.
  induction 1 as [|v l Hl IH Hv]; simpl.
  - repeat constructor.
  - destruct (User.xp v <=? User.xp u) eqn:E.
    + apply Z.leb_le in E. constructor; [now constructor|].
      constructor; [exact E|].
      rewrite Forall_forall in *. intros w Hw. specialize (Hv w Hw). lia.
    + apply Z.leb_gt in E. constructor; [exact IH|].
      rewrite Forall_forall in *. intros w Hw.
      apply (Permutation_in _ (insert_by_xp_perm u l)) in Hw.
      destruct Hw as [<- | Hw]; [lia | auto].
Qed.

Lemma sort_by_xp_sorted (us : list User.t) :
  StronglySorted (fun a b => User.xp b <= User.xp a) (sort_by_xp us).
Proof.
  induction us as [|u us IH]; simpl; [constructor|].
  now apply insert_by_xp_sorted.
Qed.

Lemma StronglySorted_app_cross {A} (R : A -> A -> Prop) (l1 l2 : list A) :
  StronglySorted R (l1 ++ l2) ->
  StronglySorted R l1 /\ forall a b, In a l1 -> In b l2 -> R a b.
Proof.
  induction l1 as [|x l1 IH]; simpl; intros H.
  - split; [constructor | intros ? ? []].
  - inversion H as [|? ? Hs Hf]; subst. destruct (IH Hs) as [Hs1 Hcross].
    rewrite Forall_forall in Hf. split.
    + constructor; [exact Hs1|]. rewrite Forall_forall.
      intros y Hy. apply Hf, in_or_app. now left.
    + intros a b [<- | Ha] Hb; [|auto]. apply Hf, in_or_app. now right.
Qed.

Lemma StronglySorted_nth {A} (R : A -> A -> Prop) (l : list A) :
  StronglySorted R l ->
  forall j k a b, (j < k)%nat ->
    nth_error l j = Some a -> nth_error l k = Some b -> R a b.
Proof.
  induction 1 as [|x l Hl IH Hx]; intros j k a b Hjk Ha Hb.
  - destruct j; discriminate.
  - destruct k as [|k]; [lia|]. simpl in Hb. destruct j as [|j]; simpl in Ha.
    + injection Ha as <-. rewrite Forall_forall in Hx.
      apply Hx. now apply nth_error_In with k.
    + apply (IH j k); auto. lia.
Qed.

Lemma leaderboard_entries_nth (users : list User.t) :
  forall i k,
    nth_error (leaderboard_entries i users) k
    = option_map
        (fun u => LeaderboardEntry.mk (i + Z.of_nat k + 1) (User.id u)
                    (User.name u) (User.xp u) (User.level u) (User.streak u))
        (nth_error users k).
Proof.
  induction users as [|u users IH]; intros i k.
  - destruct k; reflexivity.
  - destruct k as [|k]; cbn [leaderboard_entries nth_error option_map].
    + do 2 f_equal. lia.
    + rewrite IH. destruct (nth_error users k); cbn [option_map];
        [|reflexivity].
      do 2 f_equal. lia.
Qed.

Lemma leaderboard_entries_length (users : list User.t) :
  forall i, length (leaderboard_entries i users) = length users.
Proof.
  induction users as [|u users IH]; intros i; simpl; [reflexivity|].
  now rewrite IH.
Qed.

(** X21: [get_leaderboard] writes nothing and lists at most 50 entries,
    each the id, name, xp, level and streak of a stored profile, ranked
    1, 2, 3, ... with xp that never increases down the list; a stored
    profile is either listed or, when 50 are listed, has no more xp than any
    listed entry. *)
Theorem leaderboard_ranked (user : User.t) (db : DB.t) :
  exists out,
    get_leaderboard user db = (Return out, db)
    /\ length out = Nat.min 50 (length (DB.users db))
    /\ (forall k e,
          nth_error out k = Some e ->
          LeaderboardEntry.rank e = Z.of_nat k + 1
          /\ exists u,
               In u (DB.users db)
               /\ LeaderboardEntry.user_id e = User.id u
               /\ LeaderboardEntry.name e = User.name u
               /\ LeaderboardEntry.xp e = User.xp u
               /\ LeaderboardEntry.level e = User.level u
               /\ LeaderboardEntry.streak e = User.streak u)
    /\ (forall j k e e',
          (j <= k)%nat ->
          nth_error out j = Some e -> nth_error out k = Some e' ->
          LeaderboardEntry.xp e' <= LeaderboardEntry.xp e)
    /\ (forall u,
          In u (DB.users db) ->
          (exists e, In e out
                     /\ LeaderboardEntry.user_id e = User.id u
                     /\ LeaderboardEntry.xp e = User.xp u)
          \/ (length out = 50%nat
              /\ forall e, In e out -> User.xp u <= LeaderboardEntry.xp e)).
Proof.
  unfold get_leaderboard. rewrite firstn_firstn. cbn [Nat.min].
  set (sorted := sort_by_xp (DB.users db)).
  pose proof (sort_by_xp_perm (DB.users db)) as Hperm. fold sorted in Hperm.
  pose proof (sort_by_xp_sorted (DB.users db)) as Hsorted.
  fold sorted in Hsorted.
  rewrite <- (firstn_skipn 50 sorted) in Hsorted.
  apply StronglySorted_app_cross in Hsorted as [Htop Hcross].
  set (top := firstn 50 sorted) in *.
  assert (Hentry : forall k e,
    nth_error (leaderboard_entries 0 top) k = Some e ->
    exists u, nth_error top k = Some u
              /\ e = LeaderboardEntry.mk (Z.of_nat k + 1) (User.id u)
                       (User.name u) (User.xp u) (User.level u)
                       (User.streak u)).
  { intros k e He. rewrite leaderboard_entries_nth in He.
    destruct (nth_error top k) as [u|]; [|discriminate].
    injection He as <-. now exists u. }
  eexists. split; [reflexivity|]. split; [|split; [|split]].
  - rewrite leaderboard_entries_length. unfold top.
    rewrite length_firstn. now rewrite (Permutation_length Hperm).
  - intros k e He. destruct (Hentry k e He) as (u & Hu & ->).
    split; [reflexivity|]. exists u. split; [|now repeat split].
    apply (Permutation_in _ Hperm). apply nth_error_In in Hu.
    rewrite <- (firstn_skipn 50 sorted). apply in_or_app. now left.
  - intros j k e e' Hjk He He'.
    destruct (Hentry j e He) as (u & Hu & ->).
    destruct (Hentry k e' He') as (u' & Hu' & ->).
    cbn [LeaderboardEntry.xp].
    destruct (Nat.eq_dec j k) as [-> | Hne].
    + rewrite Hu in Hu'. injection Hu' as <-. lia.
    + apply (StronglySorted_nth Htop (j := j) (k := k)); auto. lia.
  - intros u Hu. apply (Permutation_in _ (Permutation_sym Hperm)) in Hu.
    rewrite <- (firstn_skipn 50 sorted) in Hu. fold top in Hu.
    apply in_app_or in Hu as [Hu | Hu].
    + left. apply In_nth_error in Hu as (k & Hk).
      eexists. split.
      * apply nth_error_In with k. rewrite leaderboard_entries_nth, Hk.
        reflexivity.
      * split; reflexivity.
    + right. split.
      * rewrite leaderboard_entries_length. unfold top.
        rewrite length_firstn. apply Nat.min_l.
        destruct (Nat.le_gt_cases 50 (length sorted)) as [H | H]; [exact H|].
        rewrite skipn_all2 in Hu by lia. destruct Hu.
      * intros e He. apply In_nth_error in He as (k & Hk).
        destruct (Hentry k e Hk) as (v & Hv & ->). cbn [LeaderboardEntry.xp].
        apply (Hcross v u); [now apply nth_error_In with k | exact Hu].
Qed.

End Properties.



(** * The catalog generator *)

(** Closes a case of the generator with the kind named in the id. *)
Ltac generated_as kind :=
  intros [= <-];
  split; [reflexivity|]; split; [reflexivity|];
  split; [simpl; lia|]; split; [simpl; lia|];
  exists kind; reflexivity.

Lemma make_lesson_generated (code name : string) (data : Phrases.t)
    (idx : nat) (lesson : Lesson.t) :
  make_lesson code name data idx = Some lesson ->
  generated_lesson code idx lesson.
Proof.
  unfold make_lesson, generated_lesson.
  destruct (idx =? 1)%nat; [generated_as "greetings"|].
  destruct (idx =? 2)%nat.
  { unfold make_numbers_lesson. cbv zeta.
    match goal with |- context [nth_error ?l 0] => set (nums := l) end.
    destruct (nth_error nums 0), (nth_error nums 1), (nth_error nums 2),
      (nth_error nums 4); try discriminate.
    generated_as "numbers". }
  destruct (idx =? 3)%nat.
  { unfold make_colors_lesson. cbv zeta.
    match goal with |- context [nth_error ?l 0] => set (cols := l) end.
    destruct (nth_error cols 0), (nth_error cols 1), (nth_error cols 2);
      try discriminate.
    generated_as "colors". }
  destruct (idx =? 4)%nat; [generated_as "phrases"|].
  destruct (idx =? 5)%nat; [generated_as "family" | generated_as "travel"].
Qed.

Lemma make_lesson_usable (code name : string) (data : Phrases.t) (idx : nat) :
  phrases_usable data ->
  exists lesson, make_lesson code name data idx = Some lesson.
Proof.
  intros [Hnums Hcols]. unfold make_lesson.
  destruct (idx =? 1)%nat; [eauto|].
  destruct (idx =? 2)%nat.
  { unfold make_numbers_lesson, get_default.
    destruct (Phrases.numbers data) as [nums|] eqn:E; [|simpl; eauto].
    specialize (Hnums nums eq_refl).
    destruct nums as [|? [|? [|? [|? [|? ?]]]]]; simpl in Hnums; try lia.
    simpl. eauto. }
  destruct (idx =? 3)%nat.
  { unfold make_colors_lesson, get_default.
    destruct (Phrases.colors data) as [cols|] eqn:E; [|simpl; eauto].
    specialize (Hcols cols eq_refl).
    destruct cols as [|? [|? [|? ?]]]; simpl in Hcols; try lia.
    simpl. eauto. }
  destruct (idx =? 4)%nat; [eauto|].
  destruct (idx =? 5)%nat; eauto.
Qed.

(** What the loop returns when it returns: the lessons it started from,
    followed by generated lessons up to six in all. *)
Lemma fill_lessons_built (code name : string) (data : Phrases.t) (fuel : nat) :
  forall lessons result,
    fill_lessons fuel code name data lessons = Built result ->
    exists added,
      result = (lessons ++ added)%list
      /\ length result = Nat.max 6 (length lessons)
      /\ forall j lesson,
           nth_error added j = Some lesson ->
           generated_lesson code (length lessons + j + 1) lesson.
Proof.
  induction fuel as [|fuel IH]; intros lessons result; cbn [fill_lessons].
  - destruct (length lessons <? 6)%nat eqn:E; [discriminate|].
    apply Nat.ltb_ge in E. intros [= <-]. exists [].
    rewrite app_nil_r. split; [reflexivity|]. split; [lia|].
    intros [|j] ?; discriminate.
  - destruct (length lessons <? 6)%nat eqn:E.
    + apply Nat.ltb_lt in E.
      destruct (make_lesson code name data (length lessons + 1)) as [l|] eqn:Hl;
        [|discriminate].
      intros Hfill. apply IH in Hfill as (added & -> & Hlen & Hgen).
      exists (l :: added). rewrite <- app_assoc. split; [reflexivity|].
      rewrite !length_app in Hlen. cbn [length] in Hlen.
      split; [rewrite !length_app; cbn [length]; lia|].
      intros [|j] lesson; cbn [nth_error].
      * intros [= <-]. rewrite Nat.add_0_r.
        now apply make_lesson_generated with name data.
      * intros Hj. specialize (Hgen j lesson Hj).
        rewrite length_app in Hgen. cbn [length] in Hgen.
        now replace (length lessons + S j + 1)%nat
          with (length lessons + 1 + j + 1)%nat by lia.
    + apply Nat.ltb_ge in E. intros [= <-]. exists [].
      rewrite app_nil_r. split; [reflexivity|]. split; [lia|].
      intros [|j] ?; discriminate.
Qed.

(** With usable data and fuel for the missing lessons the loop returns. *)
Lemma fill_lessons_returns (code name : string) (data : Phrases.t)
    (fuel : nat) :
  phrases_usable data ->
  forall lessons,
    (6 - length lessons <= fuel)%nat ->
    exists result, fill_lessons fuel code name data lessons = Built result.
Proof.
  intros Hdata.
  induction fuel as [|fuel IH]; intros lessons Hfuel; cbn [fill_lessons].
  - destruct (length lessons <? 6)%nat eqn:E; [|eauto].
    apply Nat.ltb_lt in E. lia.
  - destruct (length lessons <? 6)%nat eqn:E; [|eauto].
    destruct (make_lesson_usable code name (length lessons + 1) Hdata)
      as (l & ->).
    apply IH. rewrite length_app. cbn [length]. lia.
Qed.

Lemma fill_lessons_more_fuel (code name : string) (data : Phrases.t)
    (fuel : nat) :
  forall lessons result,
    fill_lessons fuel code name data lessons = Built result ->
    fill_lessons (S fuel) code name data lessons = Built result.
Proof.
  induction fuel as [|fuel IH]; intros lessons result.
  - simpl. destruct (length lessons <? 6)%nat; [discriminate | auto].
  - intros H. cbn [fill_lessons] in *.
    destruct (length lessons <? 6)%nat; [|exact H].
    destruct (make_lesson code name data (length lessons + 1)); [|discriminate].
    now apply IH.
Qed.

(** X22: the backfill loop of one language.  With a [numbers] list of five
    entries or more and a [colors] list of three or more (or none), the loop
    ends within six rounds, keeps the lessons it was given and appends
    generated lessons until there are six: the lesson appended at position k
    has order k, the language code, three or four items, a reward between 15
    and 25 and an id ending in k.  More rounds of fuel give the same
    list. *)
Theorem fill_lessons_backfills (code name : string) (data : Phrases.t)
    (lessons : list Lesson.t) :
  phrases_usable data ->
  exists added,
    fill_lessons 6 code name data lessons = Built (lessons ++ added)%list
    /\ length (lessons ++ added) = Nat.max 6 (length lessons)
    /\ (forall j lesson,
          nth_error added j = Some lesson ->
          generated_lesson code (length lessons + j + 1) lesson)
    /\ forall fuel,
         (6 <= fuel)%nat ->
         fill_lessons fuel code name data lessons
         = Built (lessons ++ added)%list.
Proof.
  intros Hdata.
  destruct (@fill_lessons_returns code name data 6%nat Hdata lessons
              ltac:(lia)) as (result & Hfill).
  destruct (@fill_lessons_built code name data 6%nat lessons result Hfill)
    as (added & -> & Hlen & Hgen).
  exists added. split; [exact Hfill|]. split; [exact Hlen|].
  split; [exact Hgen|].
  intros fuel Hfuel. induction Hfuel as [|fuel _ IH]; [exact Hfill|].
  now apply fill_lessons_more_fuel.
Qed.

(** X23: a [numbers] list of fewer than five entries makes the generator
    raise [IndexError] for a language with at most one curated lesson, and a
    [colors] list of fewer than three entries for a language with exactly
    two. *)
Theorem fill_lessons_index_error (code name : string) (data : Phrases.t)
    (lessons : list Lesson.t) :
  ((exists nums, Phrases.numbers data = Some nums /\ (length nums < 5)%nat)
   /\ (length lessons <= 1)%nat
   \/ (exists cols, Phrases.colors data = Some cols /\ (length cols < 3)%nat)
      /\ length lessons = 2%nat) ->
  fill_lessons 6 code name data lessons = RaisedIndexError.
Proof.
  assert (Hnum : forall order,
    (exists nums, Phrases.numbers data = Some nums /\ (length nums < 5)%nat) ->
    make_numbers_lesson code name data order = None).
  { intros order (nums & E & Hlen). unfold make_numbers_lesson. rewrite E.
    destruct nums as [|? [|? [|? [|? [|? ?]]]]]; simpl in Hlen; try lia;
      reflexivity. }
  assert (Hcol : forall order,
    (exists cols, Phrases.colors data = Some cols /\ (length cols < 3)%nat) ->
    make_colors_lesson code name data order = None).
  { intros order (cols & E & Hlen). unfold make_colors_lesson. rewrite E.
    destruct cols as [|? [|? [|? ?]]]; simpl in Hlen; try lia; reflexivity. }
  intros [[Hn Hlen] | [Hc Hlen]].
  - destruct lessons as [|l0 [|l1 ?]]; simpl in Hlen; try lia.
    + cbn [fill_lessons length Nat.ltb Nat.leb Nat.add app].
      unfold make_lesson at 1. cbn [Nat.eqb].
      cbn [fill_lessons length Nat.ltb Nat.leb Nat.add app].
      unfold make_lesson. cbn [Nat.eqb]. now rewrite Hnum.
    + cbn [fill_lessons length Nat.ltb Nat.leb Nat.add app].
      unfold make_lesson. cbn [Nat.eqb]. now rewrite Hnum.
  - destruct lessons as [|l0 [|l1 [|l2 ?]]]; simpl in Hlen; try lia.
    cbn [fill_lessons length Nat.ltb Nat.leb Nat.add app].
    unfold make_lesson. cbn [Nat.eqb]. now rewrite Hcol.
Qed.

Lemma dict_set_same {A} (d : string -> option A) (key : string) (value : A) :
  dict_set d key value key = Some value.
Proof. unfold dict_set. now rewrite String.eqb_refl. Qed.

Lemma dict_set_other {A} (d : string -> option A) (key k : string)
    (value : A) :
  k <> key -> dict_set d key value k = d k.
Proof.
  intros Hne. unfold dict_set.
  destruct (String.eqb k key) eqn:E; [|reflexivity].
  apply String.eqb_eq in E. congruence.
Qed.

(** Setting a missing key to the empty list does not change what
    [.get(code, [])] reads. *)
Lemma lessons_of_setdefault (samples : string -> option (list Lesson.t))
    (code k : string) :
  lessons_of
    (match samples code with
     | None => dict_set samples code []
     | Some _ => samples
     end) k
  = lessons_of samples k.
Proof.
  destruct (samples code) eqn:E; [reflexivity|]. unfold lessons_of, dict_set.
  destruct (String.eqb k code) eqn:Ek; [|reflexivity].
  apply String.eqb_eq in Ek. subst k. now rewrite E.
Qed.

Lemma backfill_built (fuel : nat) (common_phrases : string -> option Phrases.t)
    (langs : list Language.t) :
  NoDup (map Language.code langs) ->
  forall samples catalog,
    backfill fuel common_phrases langs samples = Built catalog ->
    (forall code, ~ In code (map Language.code langs) ->
                  lessons_of catalog code = lessons_of samples code)
    /\ (forall lang, In lang langs ->
                     backfilled samples catalog (Language.code lang)).
Proof.
  induction langs as [|lang rest IH]; intros Hnd samples catalog; simpl.
  - intros [= <-]. split; [reflexivity | intros ? []].
  - inversion Hnd as [|? ? Hnotin Hnd']; subst.
    set (code := Language.code lang) in *.
    set (samples1 := match samples code with
                     | None => dict_set samples code []
                     | Some _ => samples
                     end).
    destruct (fill_lessons fuel code (Language.name lang) _
                (lessons_of samples1 code)) as [lessons | |] eqn:Hfill;
      try discriminate.
    intros Hrest. destruct (IH Hnd' _ _ Hrest) as [Hother Hin].
    apply fill_lessons_built in Hfill as (added & -> & Hlen & Hgen).
    unfold samples1 in Hlen, Hgen, Hother, Hin.
    rewrite lessons_of_setdefault in Hlen, Hgen.
    assert (Hread : forall k, k <> code ->
      lessons_of (dict_set samples1 code
                    (lessons_of samples1 code ++ added)%list) k
      = lessons_of samples k).
    { intros k Hk. unfold lessons_of at 1. rewrite dict_set_other by exact Hk.
      apply lessons_of_setdefault. }
    split.
    + intros k Hk.
      rewrite Hother by (intros Hin'; apply Hk; now right).
      apply Hread. intros Heq. apply Hk. left. now rewrite Heq.
    + intros lang' [<- | Hl'].
      * exists added. split; [|split; [exact Hlen | exact Hgen]].
        specialize (Hother code Hnotin). unfold lessons_of at 1 in Hother.
        unfold lessons_of at 1 in Hother.
        rewrite dict_set_same in Hother.
        unfold samples1 in Hother. rewrite lessons_of_setdefault in Hother.
        fold code.
        destruct (catalog code) as [l|] eqn:E; [now rewrite Hother|].
        rewrite <- Hother in Hlen. cbn [length] in Hlen. lia.
      * destruct (Hin lang' Hl') as (added' & Hcat & Hlen' & Hgen').
        assert (Hne : Language.code lang' <> code).
        { intros Heq. apply Hnotin. rewrite <- Heq. now apply in_map. }
        fold samples1 in Hcat, Hlen', Hgen'.
        rewrite (Hread _ Hne) in Hcat, Hlen', Hgen'.
        now exists added'.
Qed.

Lemma backfill_returns (common_phrases : string -> option Phrases.t)
    (langs : list Language.t) :
  (forall lang, In lang langs ->
     phrases_usable
       (get_default (common_phrases (Language.code lang)) Phrases.empty)) ->
  forall samples,
    exists catalog, backfill 6 common_phrases langs samples = Built catalog.
Proof.
  induction langs as [|lang rest IH]; intros Hdata samples; cbn [backfill];
    [eauto|].
  cbv zeta.
  destruct (@fill_lessons_returns (Language.code lang) (Language.name lang)
              _ 6%nat (Hdata lang (or_introl eq_refl))
              (lessons_of
                 (match samples (Language.code lang) with
                  | None => dict_set samples (Language.code lang) []
                  | Some _ => samples
                  end) (Language.code lang)) ltac:(lia))
    as (lessons & ->).
  apply IH. intros l Hl. apply Hdata. now right.
Qed.

Lemma LANGUAGES_NoDup : NoDup (map Language.code LANGUAGES).
Proof.
  simpl. repeat (constructor; [simpl; intuition discriminate|]). constructor.
Qed.

Lemma generated_orders (n : nat) (code : string) (added : list Lesson.t) :
  (forall j lesson,
      nth_error added j = Some lesson ->
      generated_lesson code (n + j + 1) lesson) ->
  map Lesson.order added = map Z.of_nat (seq (n + 1) (length added)).
Proof.
  revert n. induction added as [|l added IH]; intros n Hgen; [reflexivity|].
  cbn [map length seq]. f_equal.
  - destruct (Hgen 0%nat l eq_refl) as (_ & Ho & _). rewrite Ho. f_equal. lia.
  - replace (S (n + 1)) with (S n + 1)%nat by lia. apply IH.
    intros j lesson Hj. specialize (Hgen (S j) lesson Hj).
    now replace (S n + j + 1)%nat with (n + S j + 1)%nat by lia.
Qed.

(** X24: the backfill of the catalog.  When every language of [LANGUAGES]
    has usable phrase data, the loop over the languages returns a catalog in
    which every language of [LANGUAGES] keeps its curated lessons, followed
    by generated lessons up to six in all, each with the order of its
    position; where the curated lessons are numbered 1, 2, ... all lessons
    of the language are, so no order is skipped.  Other keys of the catalog
    are read as before. *)
Theorem backfill_catalog (common_phrases : string -> option Phrases.t)
    (curated : string -> option (list Lesson.t)) :
  (forall lang, In lang LANGUAGES ->
     phrases_usable
       (get_default (common_phrases (Language.code lang)) Phrases.empty)) ->
  exists catalog,
    backfill 6 common_phrases LANGUAGES curated = Built catalog
    /\ (forall code, ~ In code language_codes ->
                     lessons_of catalog code = lessons_of curated code)
    /\ forall lang,
         In lang LANGUAGES ->
         let code := Language.code lang in
         exists added,
           lessons_of catalog code = (lessons_of curated code ++ added)%list
           /\ length (lessons_of catalog code)
              = Nat.max 6 (length (lessons_of curated code))
           /\ (forall j lesson,
                 nth_error added j = Some lesson ->
                 generated_lesson code
                   (length (lessons_of curated code) + j + 1) lesson)
           /\ (map Lesson.order (lessons_of curated code)
               = map Z.of_nat (seq 1 (length (lessons_of curated code))) ->
               map Lesson.order (lessons_of catalog code)
               = map Z.of_nat (seq 1 (length (lessons_of catalog code)))).
Proof.
  intros Hdata.
  destruct (@backfill_returns common_phrases LANGUAGES Hdata curated)
    as (catalog & Hbuilt).
  destruct (@backfill_built 6%nat common_phrases LANGUAGES LANGUAGES_NoDup
              curated catalog Hbuilt) as [Hother Hin].
  exists catalog. split; [exact Hbuilt|]. split; [exact Hother|].
  intros lang Hlang code.
  destruct (Hin lang Hlang) as (added & Hcat & Hlen & Hgen).
  fold code in Hcat, Hlen, Hgen.
  assert (Hread : lessons_of catalog code
                  = (lessons_of curated code ++ added)%list)
    by (unfold lessons_of at 1; now rewrite Hcat).
  exists added. rewrite Hread. split; [reflexivity|].
  split; [exact Hlen|]. split; [exact Hgen|].
  intros Hdense.
  rewrite map_app, Hdense, (@generated_orders _ code added Hgen).
  rewrite length_app, seq_app, map_app. do 3 f_equal. lia.
Qed.

(** X25: with a backfilled catalog whose curated lessons all have items,
    every lesson has at least one item, and [complete_lesson] never raises
    [ZeroDivisionError]; where the curated rewards are not negative, no
    reward of the catalog is. *)
Theorem backfilled_catalog_gradable (fuel : nat)
    (common_phrases : string -> option Phrases.t)
    (curated catalog : string -> option (list Lesson.t)) :
  backfill fuel common_phrases LANGUAGES curated = Built catalog ->
  (forall code lesson, In lesson (lessons_of curated code) ->
                       Lesson.content lesson <> []) ->
  (forall code lesson, In lesson (lessons_of catalog code) ->
                       Lesson.content lesson <> [])
  /\ (forall str_lower str_strip language lesson_id answers now user db,
        fst (complete_lesson str_lower str_strip catalog language lesson_id
               answers now user db)
        <> Raise ZeroDivisionError)
  /\ (nonnegative_rewards curated -> nonnegative_rewards catalog).
Proof.
  intros Hbuilt Hitems.
  destruct (@backfill_built fuel common_phrases LANGUAGES LANGUAGES_NoDup
              curated catalog Hbuilt) as [Hother Hin].
  assert (Hsplit : forall code lesson,
    In lesson (lessons_of catalog code) ->
    In lesson (lessons_of curated code)
    \/ exists k, generated_lesson code k lesson).
  { intros code lesson Hl.
    destruct (in_dec string_dec code language_codes) as [Hc | Hc].
    - apply in_map_iff in Hc as (lang & <- & Hlang).
      destruct (Hin lang Hlang) as (added & Hcat & _ & Hgen).
      unfold lessons_of at 1 in Hl. rewrite Hcat in Hl.
      apply in_app_or in Hl as [Hl | Hl]; [now left|].
      apply In_nth_error in Hl as (j & Hj). right. eauto.
    - rewrite (Hother code Hc) in Hl. now left. }
  assert (Hall : forall code lesson,
    In lesson (lessons_of catalog code) -> Lesson.content lesson <> []).
  { intros code lesson Hl.
    destruct (Hsplit code lesson Hl) as [Hc | (k & _ & _ & Hlen & _)];
      [now apply (Hitems code)|].
    intros E. rewrite E in Hlen. simpl in Hlen. lia. }
  split; [exact Hall|]. split.
  - intros str_lower str_strip language lesson_id answers now user db.
    destruct (lesson_by_id (lessons_of catalog language) lesson_id)
      as [lesson|] eqn:Hfound.
    + assert (Hne : Lesson.content lesson <> []).
      { apply (Hall language). now apply find_some in Hfound as [Hl _]. }
      rewrite (complete_lesson_graded str_lower str_strip catalog _ _ answers
                 now user db Hfound Hne).
      discriminate.
    + unfold complete_lesson. rewrite Hfound. discriminate.
  - intros Hr language lessons lesson Hcat Hl.
    assert (Hl' : In lesson (lessons_of catalog language))
      by (unfold lessons_of; now rewrite Hcat).
    destruct (Hsplit language lesson Hl') as [Hc | (k & _ & _ & _ & Hx & _)];
      [|lia].
    unfold lessons_of in Hc.
    destruct (curated language) as [ls|] eqn:E; [|destruct Hc].
    exact (Hr language ls lesson E Hc).
Qed.

(** * Port selection *)





(** * Worked examples *)

(** ** A percentage that is not the integer quotient *)

(** C1: on a lesson of 50 items with 29 right answers, [complete_lesson]
    counts 29 of 50 and records the score 57, because 29 / 50 * 100 is
    57.99999999999999 in binary64; the integer quotient 29 * 100 // 50 is
    58. *)
Theorem score_percent_29_of_50 :
  exists r db' p,
    complete_lesson ascii_lower ascii_strip (drill_catalog 50) "es" "drill"
      (repeat "a" 29) 86400 ana (DB.mk [ana] [])
    = (Return r, db')
    /\ QuizResult.correct r = 29
    /\ QuizResult.total r = 50
    /\ progress_of "u1" "drill" db' = Some p
    /\ Progress.score p = 57
    /\ QuizResult.correct r * 100 / QuizResult.total r = 58.
Proof.
  do 3 eexists. split; [vm_compute; reflexivity|].
  repeat split; vm_compute; reflexivity.
Qed.

(** ** A lesson without items *)

(** C7: on a lesson with no item, [complete_lesson] raises
    [ZeroDivisionError] for every submission; it does not take the total
    for 1, and it writes nothing. *)
Theorem empty_lesson_division_by_zero :
  forall answers : list string,
    complete_lesson ascii_lower ascii_strip (drill_catalog 0) "es" "drill"
      answers 86400 ana (DB.mk [ana] [])
    = (Raise ZeroDivisionError, DB.mk [ana] []).
Proof.
  intros answers.
  apply (@empty_lesson_raises ascii_lower ascii_strip (drill_catalog 0)
           "es" "drill" answers 86400 ana (DB.mk [ana] []) (uniform_lesson 0));
    reflexivity.
Qed.

(** ** Streak, level and experience *)

Lemma streak_transition_witness :
  exists r db' user',
    complete_lesson ascii_lower ascii_strip spanish_catalog "es" "es-basics-1"
      all_right 86400 ben (DB.mk [ben] [])
    = (Return r, db')
    /\ user_of "u2" db' = Some user'
    /\ User.streak user' = 3
    /\ QuizResult.streak_bonus r = 6.
Proof.
  destruct (@streak_transition ascii_lower ascii_strip spanish_catalog
              "es" "es-basics-1" all_right 86400 ben (DB.mk [ben] [])
              es_basics_1)
    as (r & db' & user' & Hrun & Huser & _ & Hlast & _);
    [reflexivity | discriminate | reflexivity |].
  destruct (Hlast 0 eq_refl) as (_ & Hnext & _).
  destruct (Hnext eq_refl) as [Hstreak Hbonus].
  exists r, db', user'. rewrite Hbonus, Hstreak.
  repeat split; assumption.
Defined.

Lemma level_after_completion_witness :
  exists r db' user',
    complete_lesson ascii_lower ascii_strip spanish_catalog "es" "es-basics-1"
      all_right 90000 cleo (DB.mk [cleo] [])
    = (Return r, db')
    /\ user_of "u3" db' = Some user'
    /\ User.level user' = User.xp user' / 100 + 1
    /\ QuizResult.new_level r
       = (if 1 <? User.level user' then Some (User.level user') else None).
Proof.
  apply (@level_after_completion ascii_lower ascii_strip spanish_catalog
           "es" "es-basics-1" all_right 90000 cleo (DB.mk [cleo] [])
           es_basics_1);
    [reflexivity | discriminate | reflexivity].
Defined.

Lemma spanish_rewards : nonnegative_rewards spanish_catalog.
Proof.
  intros language lessons lesson. unfold spanish_catalog.
  destruct (String.eqb language "es"); [|discriminate].
  intros [= <-] [<- | [<- | [<- | []]]]; simpl; lia.
Qed.

Lemma xp_earned_and_monotone_witness :
  (exists r db' user',
      complete_lesson ascii_lower ascii_strip spanish_catalog "es"
        "es-basics-1" one_right 90000 cleo (DB.mk [cleo] [])
      = (Return r, db')
      /\ user_of "u3" db' = Some user'
      /\ QuizResult.xp_earned r
         = (if QuizResult.passed r then 15 else 15 / 2)
           + QuizResult.streak_bonus r
      /\ User.xp user' = 90 + QuizResult.xp_earned r)
  /\ xp_of "u1" passed_db
     <= xp_of "u1"
          (serve_all ascii_lower ascii_strip spanish_catalog [ana_fails]
             passed_db).
Proof.
  destruct (xp_earned_and_monotone ascii_lower ascii_strip spanish_catalog)
    as [Hevent Hmono].
  split.
  - apply (Hevent "es" "es-basics-1" one_right 90000 cleo (DB.mk [cleo] [])
             es_basics_1);
      [reflexivity | discriminate | reflexivity].
  - apply Hmono; [exact spanish_rewards|].
    unfold passed_db, serve_all, ana_passes. cbn [fold_left].
    do 2 apply reachable_serve. apply reachable_empty.
Defined.

(** ** Achievements *)

Lemma achievements_after_completion_witness :
  exists r db' user',
    complete_lesson ascii_lower ascii_strip spanish_catalog "es" "es-basics-1"
      all_right 86400 ana
      (serve ascii_lower ascii_strip spanish_catalog
         (Register "u1" "ana@example.org" "Ana") DB.empty)
    = (Return r, db')
    /\ user_of "u1" db' = Some user'
    /\ In "first-lesson" (User.achievements user')
    /\ In "perfect-lesson" (User.achievements user').
Proof.
  destruct (@achievements_after_completion ascii_lower ascii_strip
              spanish_catalog "es" "es-basics-1" all_right 86400 ana
              (serve ascii_lower ascii_strip spanish_catalog
                 (Register "u1" "ana@example.org" "Ana") DB.empty)
              es_basics_1)
    as (r & db' & user' & p & Hrun & Huser & Hp & Hfirst & _ & _ & _ & _ & _
        & _ & Hperfect & _);
    [ apply reachable_serve, reachable_empty
    | reflexivity | discriminate | reflexivity |].
  exists r, db', user'. vm_compute in Hrun. injection Hrun as <- <-.
  vm_compute in Hp. injection Hp as <-.
  repeat split; [assumption | apply Hfirst | apply Hperfect]; reflexivity.
Defined.

Lemma achievement_unlocking_idempotent_witness :
  check_and_award_achievement "u1" "perfect-lesson" passed_db
  = (Return tt, passed_db)
  /\ In "first-lesson" (achievements_of "u1" failed_db).
Proof.
  destruct (achievement_unlocking_idempotent ascii_lower ascii_strip
              spanish_catalog) as (Hsame & _ & _ & _ & _ & Hkept & _).
  split.
  - apply Hsame. vm_compute. auto.
  - apply Hkept. vm_compute. auto.
Defined.

(** ** Unknown lessons *)

Lemma unknown_lesson_not_found_witness :
  complete_lesson ascii_lower ascii_strip spanish_catalog "xx" "es-basics-1"
    all_right 86400 ana (DB.mk [ana] [])
  = (Raise (HTTPException 404 "Lesson not found"), DB.mk [ana] []).
Proof.
  apply (@unknown_lesson_not_found ascii_lower ascii_strip spanish_catalog
           "xx" "es-basics-1" all_right 86400 ana (DB.mk [ana] [])).
  left. reflexivity.
Defined.

(** ** The lesson list *)

(** C6 as stated fails past 100 records: after Ana has passed lessons 1 to
    101 of a catalog of 102, [get_lessons] reads 100 of her 101 records and
    lists lesson 102 as locked although lesson 101 has a record with
    [completed == True]. *)
Lemma unlock_rule_fails_past_100_records :
  exists user out d,
    user_of "u1" drilled_db = Some user
    /\ unique_records drilled_db
    /\ get_lessons (long_catalog 102) "es" user drilled_db
       = (Return out, drilled_db)
    /\ nth_error out 101 = Some d
    /\ LessonData.order d = 102
    /\ LessonData.locked d = true
    /\ In (drill_lesson 101) (lessons_of (long_catalog 102) "es")
    /\ Lesson.order (drill_lesson 101) = LessonData.order d - 1
    /\ completed_record "u1" "es" (Lesson.id (drill_lesson 101)) drilled_db.
Proof.
  do 3 eexists.
  split; [vm_compute; reflexivity|].
  split.
  { apply (@reachable_unique_records ascii_lower ascii_strip
             (long_catalog 102)).
    apply reachable_serve_all, reachable_empty. }
  split; [vm_compute; reflexivity|].
  split; [vm_compute; reflexivity|].
  split; [reflexivity|]. split; [reflexivity|].
  split; [apply (@nth_error_In _ _ 100); vm_compute; reflexivity|].
  split; [reflexivity|].
  exists (Progress.mk "u1" (drill_id 101) "es" true 100 86400).
  split; [apply (@nth_error_In _ _ 100); vm_compute; reflexivity|].
  split; reflexivity.
Qed.

Lemma lesson_unlock_rule_witness :
  exists out d,
    get_lessons spanish_catalog "es" ana_passed passed_db
    = (Return out, passed_db)
    /\ nth_error out 1 = Some d
    /\ LessonData.id d = "es-basics-2"
    /\ LessonData.locked d = false.
Proof.
  destruct (@lesson_unlock_rule spanish_catalog "es" ana_passed passed_db)
    as (out & Hrun & _ & Hrule).
  - vm_compute. repeat constructor. intros [].
  - vm_compute. repeat constructor.
  - destruct (Hrule 1%nat es_basics_2 eq_refl)
      as (d & Hd & Hid & _ & Hlater).
    exists out, d. repeat split; try assumption.
    apply Hlater; [reflexivity|].
    exists es_basics_1. split; [left; reflexivity|]. split; [reflexivity|].
    exists (Progress.mk "u1" "es-basics-1" "es" true 100 86400).
    split; [apply (@nth_error_In _ _ 0%nat); vm_compute; reflexivity|].
    split; reflexivity.
Defined.

(** ** The latest attempt decides *)

(** C10: after a graded submission the record of the (user, lesson) pair has
    [completed] equal to the verdict of this submission and [score] equal to
    its percentage, whatever an earlier attempt recorded; so failing a lesson
    that was passed sets [completed] back to false, and the lesson of the
    next order, unlocked before, is listed as locked again. *)
Theorem latest_attempt_overwrites :
  (forall str_lower str_strip SAMPLE_LESSONS language lesson_id answers now
          user db lesson,
      lesson_by_id (lessons_of SAMPLE_LESSONS language) lesson_id
      = Some lesson ->
      Lesson.content lesson <> [] ->
      exists r db' p,
        complete_lesson str_lower str_strip SAMPLE_LESSONS language lesson_id
          answers now user db
        = (Return r, db')
        /\ progress_of (User.id user) lesson_id db' = Some p
        /\ Progress.completed p = QuizResult.passed r
        /\ Progress.score p
           = score_percent (QuizResult.correct r) (QuizResult.total r))
  /\ (progress_of "u1" "es-basics-1" passed_db
      = Some (Progress.mk "u1" "es-basics-1" "es" true 100 86400)
      /\ listed_locks spanish_catalog "es" "u1" passed_db
         = [("es-basics-1", false); ("es-basics-2", false);
            ("es-basics-3", true)]
      /\ progress_of "u1" "es-basics-1" failed_db
         = Some (Progress.mk "u1" "es-basics-1" "es" false 25 90000)
      /\ listed_locks spanish_catalog "es" "u1" failed_db
         = [("es-basics-1", false); ("es-basics-2", true);
            ("es-basics-3", true)]).
Proof.
  split.
  - intros str_lower str_strip SAMPLE_LESSONS language lesson_id answers now
      user db lesson Hfound Hitems.
    destruct (@completion_record_overwritten str_lower str_strip
                SAMPLE_LESSONS language lesson_id answers now user db lesson
                Hfound Hitems)
      as (r & db' & p & Hrun & Hp & Hc & Hs & _).
    exists r, db', p. auto.
  - repeat split; vm_compute; reflexivity.
Qed.

Lemma latest_attempt_overwrites_witness :
  exists r db' p,
    complete_lesson ascii_lower ascii_strip spanish_catalog "es" "es-basics-1"
      one_right 90000 ana_passed passed_db
    = (Return r, db')
    /\ progress_of "u1" "es-basics-1" db' = Some p
    /\ Progress.completed p = QuizResult.passed r
    /\ Progress.score p
       = score_percent (QuizResult.correct r) (QuizResult.total r).
Proof.
  apply (proj1 latest_attempt_overwrites ascii_lower ascii_strip
           spanish_catalog "es" "es-basics-1" one_right 90000 ana_passed _
           es_basics_1);
    [reflexivity | discriminate].
Defined.

(** ** Worked examples of the further properties *)

(** Ana, with 5 hearts, fails [es_basics_1]. *)
Lemma hearts_after_completion_witness :
  exists r db' user',
    complete_lesson ascii_lower ascii_strip spanish_catalog "es" "es-basics-1"
      one_right 90000 ana_passed passed_db = (Return r, db')
    /\ user_of "u1" db' = Some user'
    /\ (QuizResult.passed r = true -> User.hearts user' = 5)
    /\ (QuizResult.passed r = false -> 0 < 5 -> User.hearts user' = 5 - 1)
    /\ (QuizResult.passed r = false -> 5 <= 0 -> User.hearts user' = 5).
Proof.
  apply (@hearts_after_completion ascii_lower ascii_strip spanish_catalog
           "es" "es-basics-1" one_right 90000 ana_passed passed_db
           es_basics_1);
    [reflexivity | discriminate | vm_compute; reflexivity].
Defined.

Lemma hearts_in_range_witness : 0 <= User.hearts ana_passed <= 5.
Proof.
  apply (@hearts_in_range ascii_lower ascii_strip spanish_catalog passed_db
           "u1" ana_passed);
    [apply reachable_serve_all, reachable_empty | vm_compute; reflexivity].
Defined.

Lemma level_matches_xp_witness :
  User.level ana_passed = User.xp ana_passed / 100 + 1
  /\ (nonnegative_rewards spanish_catalog ->
      0 <= User.xp ana_passed /\ 1 <= User.level ana_passed).
Proof.
  apply (@level_matches_xp ascii_lower ascii_strip spanish_catalog passed_db
           "u1" ana_passed);
    [apply reachable_serve_all, reachable_empty | vm_compute; reflexivity].
Defined.

Lemma streak_zero_iff_never_practised_witness :
  (User.streak ana_passed = 0 <-> User.last_practice_date ana_passed = None)
  /\ (User.last_practice_date ana_passed <> None ->
      1 <= User.streak ana_passed).
Proof.
  apply (@streak_zero_iff_never_practised ascii_lower ascii_strip
           spanish_catalog passed_db "u1" ana_passed);
    [apply reachable_serve_all, reachable_empty | vm_compute; reflexivity].
Defined.

(** Ana practises again on day 2. *)
Lemma practice_day_and_bonus_witness :
  exists r db' user',
    complete_lesson ascii_lower ascii_strip spanish_catalog "es" "es-basics-1"
      all_right 172800 ana_passed passed_db = (Return r, db')
    /\ user_of "u1" db' = Some user'
    /\ User.last_practice_date user' = Some (date_of 172800)
    /\ 1 <= User.streak user'
    /\ 0 <= QuizResult.streak_bonus r <= 20.
Proof.
  apply (@practice_day_and_bonus ascii_lower ascii_strip spanish_catalog
           "es" "es-basics-1" all_right 172800 ana_passed passed_db
           es_basics_1);
    [ apply reachable_serve_all, reachable_empty
    | reflexivity | discriminate | vm_compute; reflexivity ].
Defined.

(** Ana's failed attempt changes nothing of Ben. *)
Lemma other_users_untouched_witness :
  user_of "u2" (serve ascii_lower ascii_strip spanish_catalog ana_fails
                  shared_db)
  = user_of "u2" shared_db
  /\ (forall lesson_id,
        progress_of "u2" lesson_id
          (serve ascii_lower ascii_strip spanish_catalog ana_fails shared_db)
        = progress_of "u2" lesson_id shared_db)
  /\ (forall language,
        records_of "u2" language
          (serve ascii_lower ascii_strip spanish_catalog ana_fails shared_db)
        = records_of "u2" language shared_db).
Proof.
  apply (@other_users_untouched ascii_lower ascii_strip spanish_catalog
           ana_fails shared_db "u2").
  simpl. discriminate.
Defined.

(** Ana starts French. *)
Lemma start_language_effect_witness :
  exists db' user',
    start_language "fr" ana_passed passed_db
    = (Return (Language.mk "fr" "French"), db')
    /\ user_of "u1" db' = Some user'
    /\ User.current_language user' = Some "fr"
    /\ User.languages_learning user' = ["fr"]
    /\ User.xp user' = 15.
Proof.
  assert (Hana : user_of (User.id ana_passed) passed_db = Some ana_passed)
    by (vm_compute; reflexivity).
  destruct (proj1 (@start_language_effect "fr" ana_passed passed_db Hana)
              (Language.mk "fr" "French") eq_refl)
    as (db' & user' & Hrun & _ & Huser & Hcur & _ & _ & Hnew & Hxp & _).
  exists db', user'.
  repeat split; [exact Hrun | exact Huser | exact Hcur | | exact Hxp].
  apply Hnew. intros [].
Defined.

Lemma languages_in_progress_wellformed_witness :
  NoDup (User.languages_learning ana_polyglot)
  /\ (forall c, In c (User.languages_learning ana_polyglot) ->
                exists lang, In lang LANGUAGES /\ Language.code lang = c)
  /\ (length (User.languages_learning ana_polyglot) <= 10)%nat
  /\ (forall c, User.current_language ana_polyglot = Some c ->
                In c (User.languages_learning ana_polyglot)).
Proof.
  apply (@languages_in_progress_wellformed ascii_lower ascii_strip
           spanish_catalog shared_db "u1" ana_polyglot);
    [apply reachable_serve_all, reachable_empty | vm_compute; reflexivity].
Defined.

Lemma polyglot_iff_three_languages_witness :
  In "multi-language" (User.achievements ana_polyglot)
  <-> (3 <= length (User.languages_learning ana_polyglot))%nat.
Proof.
  apply (@polyglot_iff_three_languages ascii_lower ascii_strip
           spanish_catalog shared_db "u1" ana_polyglot);
    [apply reachable_serve_all, reachable_empty | vm_compute; reflexivity].
Defined.

Lemma achievements_listing_witness :
  incl (User.achievements ana_polyglot) ACHIEVEMENTS
  /\ (length (User.achievements ana_polyglot) <= 11)%nat
  /\ map fst (get_achievements ana_polyglot) = ACHIEVEMENTS
  /\ length (filter snd (get_achievements ana_polyglot))
     = length (User.achievements ana_polyglot).
Proof.
  apply (@achievements_listing ascii_lower ascii_strip spanish_catalog
           shared_db "u1" ana_polyglot);
    [apply reachable_serve_all, reachable_empty | vm_compute; reflexivity].
Defined.

Lemma metric_achievements_backed_witness :
  (In "xp-100" (User.achievements ana_polyglot) -> 100 <= User.xp ana_polyglot)
  /\ (In "xp-500" (User.achievements ana_polyglot) ->
      500 <= User.xp ana_polyglot)
  /\ (In "xp-1000" (User.achievements ana_polyglot) ->
      1000 <= User.xp ana_polyglot)
  /\ (In "level-5" (User.achievements ana_polyglot) ->
      5 <= User.level ana_polyglot)
  /\ (In "level-10" (User.achievements ana_polyglot) ->
      10 <= User.level ana_polyglot).
Proof.
  apply (@metric_achievements_backed ascii_lower ascii_strip spanish_catalog
           shared_db "u1" ana_polyglot);
    [ exact spanish_rewards
    | apply reachable_serve_all, reachable_empty
    | vm_compute; reflexivity ].
Defined.

(** Ben cannot register with Ana's email, and registers with his own. *)
Lemma register_effect_witness :
  register "u2" "ana@example.org" "Ben" passed_db
  = (Raise (HTTPException 400 "Email already registered"), passed_db)
  /\ exists db',
       register "u2" "ben@example.org" "Ben" passed_db
       = (Return (new_user "u2" "ben@example.org" "Ben"), db')
       /\ user_of "u1" db' = Some ana_passed
       /\ get_current_user "u2" db'
          = (Return (new_user "u2" "ben@example.org" "Ben"), db').
Proof.
  split.
  - apply (proj1 (@register_effect "u2" "ana@example.org" "Ben" passed_db)).
    exists ana_passed. split; [|reflexivity].
    apply (@nth_error_In _ _ 0%nat). vm_compute. reflexivity.
  - destruct (proj2 (@register_effect "u2" "ben@example.org" "Ben" passed_db))
      as (db' & Hrun & _ & Hkeep & Hnew).
    + intros u Hu.
      assert (Husers : DB.users passed_db = [ana_passed])
        by (vm_compute; reflexivity).
      rewrite Husers in Hu. destruct Hu as [<- | []]. discriminate.
    + exists db'. repeat split; [exact Hrun | | ].
      * apply Hkeep. vm_compute. reflexivity.
      * apply Hnew. vm_compute. reflexivity.
Defined.

Lemma emails_unique_witness : NoDup (map User.email (DB.users shared_db)).
Proof.
  apply (@emails_unique ascii_lower ascii_strip spanish_catalog shared_db).
  apply reachable_serve_all, reachable_empty.
Defined.

Lemma records_bounded_by_catalog_witness :
  (forall p, In p (DB.lesson_progress shared_db) ->
             exists lesson,
               In lesson (lessons_of spanish_catalog (Progress.language p))
               /\ Lesson.id lesson = Progress.lesson_id p)
  /\ NoDup (map Progress.lesson_id (records_of "u1" "es" shared_db))
  /\ (length (records_of "u1" "es" shared_db)
      <= length (lessons_of spanish_catalog "es"))%nat.
Proof.
  apply (@records_bounded_by_catalog ascii_lower ascii_strip spanish_catalog
           shared_db "u1" "es").
  apply reachable_serve_all, reachable_empty.
Defined.

(** After Ana's failed attempt the listing shows [es_basics_1] as not
    completed. *)
Lemma listing_shows_latest_attempt_witness :
  exists r db' out,
    complete_lesson ascii_lower ascii_strip spanish_catalog "es" "es-basics-1"
      one_right 90000 ana_passed passed_db = (Return r, db')
    /\ get_lessons spanish_catalog "es" ana_passed db' = (Return out, db')
    /\ forall i l,
         nth_error (lessons_of spanish_catalog "es") i = Some l ->
         Lesson.id l = "es-basics-1" ->
         exists d,
           nth_error out i = Some d
           /\ LessonData.id d = "es-basics-1"
           /\ LessonData.completed d = QuizResult.passed r
           /\ LessonData.score d
              = score_percent (QuizResult.correct r) (QuizResult.total r).
Proof.
  apply (@listing_shows_latest_attempt ascii_lower ascii_strip
           spanish_catalog "es" "es-basics-1" one_right 90000 ana_passed
           passed_db es_basics_1);
    [ reflexivity | discriminate
    | apply reachable_unique_records with ascii_lower ascii_strip
        spanish_catalog; apply reachable_serve_all, reachable_empty
    | apply Nat.ltb_lt; vm_compute; reflexivity ].
Defined.

Lemma grading_thresholds_witness :
  exists r db' p,
    complete_lesson ascii_lower ascii_strip spanish_catalog "es" "es-basics-1"
      one_right 90000 ana_passed passed_db = (Return r, db')
    /\ progress_of "u1" "es-basics-1" db' = Some p
    /\ 0 <= QuizResult.correct r <= QuizResult.total r
    /\ 0 <= Progress.score p <= 100
    /\ (Progress.score p = 100 <-> QuizResult.correct r = QuizResult.total r)
    /\ (QuizResult.passed r = true
        <-> 7 * QuizResult.total r <= 10 * QuizResult.correct r).
Proof.
  apply (@grading_thresholds ascii_lower ascii_strip spanish_catalog
           "es" "es-basics-1" one_right 90000 ana_passed passed_db
           es_basics_1);
    [reflexivity | discriminate | simpl; lia].
Defined.

Lemma surplus_answers_ignored_witness :
  complete_lesson ascii_lower ascii_strip spanish_catalog "es" "es-basics-1"
    (firstn (length (Lesson.content es_basics_1))
       (all_right ++ ["one too many"])) 90000 ana_passed passed_db
  = complete_lesson ascii_lower ascii_strip spanish_catalog "es" "es-basics-1"
      (all_right ++ ["one too many"]) 90000 ana_passed passed_db.
Proof.
  apply (@surplus_answers_ignored ascii_lower ascii_strip spanish_catalog
           "es" "es-basics-1" (all_right ++ ["one too many"]) 90000
           ana_passed passed_db es_basics_1).
  reflexivity.
Defined.

(** The lesson endpoints on the Spanish catalog. *)
Lemma lesson_detail_agrees_witness :
  exists out,
    get_lessons spanish_catalog "es" ana_passed passed_db
    = (Return out, passed_db)
    /\ (forall d, In d out ->
          exists lesson,
            get_lesson_detail spanish_catalog "es" (LessonData.id d)
              ana_passed passed_db
            = (Return lesson, passed_db)
            /\ Lesson.id lesson = LessonData.id d)
    /\ (forall lesson_id lesson,
          get_lesson_detail spanish_catalog "es" lesson_id ana_passed
            passed_db
          = (Return lesson, passed_db) ->
          Lesson.id lesson = lesson_id
          /\ exists d,
               In d out
               /\ LessonData.id d = lesson_id
               /\ LessonData.title d = Lesson.title lesson
               /\ LessonData.order d = Lesson.order lesson
               /\ LessonData.xp_reward d = Lesson.xp_reward lesson)
    /\ (forall lesson_id answers now,
          get_lesson_detail spanish_catalog "es" lesson_id ana_passed
            passed_db
          = (Raise (HTTPException 404 "Lesson not found"), passed_db)
          <-> complete_lesson ascii_lower ascii_strip spanish_catalog "es"
                lesson_id answers now ana_passed passed_db
              = (Raise (HTTPException 404 "Lesson not found"), passed_db)).
Proof.
  exact (@lesson_detail_agrees ascii_lower ascii_strip spanish_catalog
           "es" ana_passed passed_db).
Defined.

(** French, which the Spanish catalog has no lessons for, is listed with
    no lessons and progress 0. *)
Lemma get_languages_total_witness :
  exists out,
    get_languages spanish_catalog ana_passed passed_db
    = (Return out, passed_db)
    /\ map LanguageInfo.code out = map Language.code LANGUAGES
    /\ forall info,
         In info out -> LanguageInfo.lessons_count info = 0 ->
         LanguageInfo.progress info = 0.
Proof.
  destruct (@get_languages_total spanish_catalog ana_passed passed_db)
    as (out & Hrun & Hcodes & _ & _ & Hzero).
  exists out. repeat split; [exact Hrun | exact Hcodes | exact Hzero].
Defined.

Lemma get_languages_progress_witness :
  exists out,
    get_languages spanish_catalog ana_passed passed_db
    = (Return out, passed_db)
    /\ forall i lang,
         nth_error LANGUAGES i = Some lang ->
         exists info,
           nth_error out i = Some info
           /\ LanguageInfo.code info = Language.code lang
           /\ 0 <= LanguageInfo.progress info <= 100
           /\ (0 < LanguageInfo.lessons_count info ->
               LanguageInfo.progress info
               = completed_lessons "u1" (Language.code lang) passed_db
                 * 100 / LanguageInfo.lessons_count info
               /\ (LanguageInfo.progress info = 100
                   <-> completed_lessons "u1" (Language.code lang) passed_db
                       = LanguageInfo.lessons_count info)).
Proof.
  apply (@get_languages_progress ascii_lower ascii_strip spanish_catalog
           ana_passed passed_db);
    [ apply reachable_serve_all, reachable_empty
    | intros code; unfold lessons_of, spanish_catalog;
      destruct (String.eqb code "es"); simpl; lia ].
Defined.

(** Ana, with 15 xp, is ranked before Ben. *)
Lemma leaderboard_ranked_witness :
  exists out,
    get_leaderboard ana_polyglot shared_db = (Return out, shared_db)
    /\ length out = 2%nat
    /\ forall j k e e',
         (j <= k)%nat ->
         nth_error out j = Some e -> nth_error out k = Some e' ->
         LeaderboardEntry.xp e' <= LeaderboardEntry.xp e.
Proof.
  destruct (@leaderboard_ranked ana_polyglot shared_db)
    as (out & Hrun & Hlen & _ & Hsorted & _).
  exists out. repeat split; [exact Hrun | | exact Hsorted].
  rewrite Hlen. vm_compute. reflexivity.
Defined.

(** Spanish has three curated lessons: three generated ones follow. *)
Lemma fill_lessons_backfills_witness :
  exists added,
    fill_lessons 6 "es" "Spanish" es_phrases
      [es_basics_1; es_basics_2; es_basics_3]
    = Built ([es_basics_1; es_basics_2; es_basics_3] ++ added)%list
    /\ length ([es_basics_1; es_basics_2; es_basics_3] ++ added) = 6%nat
    /\ forall j lesson,
         nth_error added j = Some lesson ->
         generated_lesson "es" (3 + j + 1) lesson.
Proof.
  destruct (@fill_lessons_backfills "es" "Spanish" es_phrases
              [es_basics_1; es_basics_2; es_basics_3])
    as (added & Hrun & Hlen & Hgen & _).
  - split; intros ? [= <-]; simpl; lia.
  - exists added. split; [exact Hrun|]. split; [exact Hlen | exact Hgen].
Defined.

Lemma fill_lessons_index_error_witness :
  fill_lessons 6 "xx" "Other" short_numbers [] = RaisedIndexError.
Proof.
  apply (@fill_lessons_index_error "xx" "Other" short_numbers []).
  left. split; [|simpl; lia].
  exists ["uno"; "dos"]. split; [reflexivity | simpl; lia].
Defined.

(** With the Spanish phrase data, French gets six generated lessons. *)
Lemma backfill_catalog_witness :
  exists catalog,
    backfill 6 spanish_phrases LANGUAGES spanish_catalog = Built catalog
    /\ length (lessons_of catalog "fr") = 6%nat
    /\ length (lessons_of catalog "es") = 6%nat.
Proof.
  destruct (@backfill_catalog spanish_phrases spanish_catalog)
    as (catalog & Hrun & _ & Hlangs).
  - intros lang _. unfold spanish_phrases.
    destruct (String.eqb (Language.code lang) "es");
      split; intros ? [= <-]; simpl; lia.
  - exists catalog. split; [exact Hrun|]. split.
    + destruct (Hlangs (Language.mk "fr" "French")) as (_ & _ & Hlen & _).
      * apply (@nth_error_In _ _ 1%nat). reflexivity.
      * exact Hlen.
    + destruct (Hlangs (Language.mk "es" "Spanish")) as (_ & _ & Hlen & _).
      * apply (@nth_error_In _ _ 0%nat). reflexivity.
      * exact Hlen.
Defined.

Lemma backfilled_catalog_gradable_witness :
  (forall code lesson, In lesson (lessons_of spanish_backfilled code) ->
                       Lesson.content lesson <> [])
  /\ (forall str_lower str_strip language lesson_id answers now user db,
        fst (complete_lesson str_lower str_strip spanish_backfilled language
               lesson_id answers now user db)
        <> Raise ZeroDivisionError)
  /\ (nonnegative_rewards spanish_catalog ->
      nonnegative_rewards spanish_backfilled).
Proof.
  apply (@backfilled_catalog_gradable 6 spanish_phrases spanish_catalog
           spanish_backfilled).
  - vm_compute. reflexivity.
  - intros code lesson. unfold lessons_of, spanish_catalog.
    destruct (String.eqb code "es"); simpl; [|intros []].
    intros [<- | [<- | [<- | []]]]; discriminate.
Defined.

